(** * Secure download tokens: a shallow embedding and its properties

    The development follows three source files of the repository:
    - [utils/secureDownloads] ([generateSecureDownloadTokens],
      [verifyDownloadToken], [logDownloadAttempt], [revokeDownloadToken]),
      embedded in [Module SecureDownloads];
    - [pages/VerifyDownloadPage.tsx] ([checkSession],
      [handleEmailVerification], [handleDownload]), embedded in
      [Module VerifyDownloadPage];
    - the migration [20250620133340_teal_fog.sql]
      ([unlock_progressive_stages], [cleanup_expired_sessions]), embedded in
      [Module Migration].

    Conventions.  An instant ([Date], [timestamptz]) is a [Z] counting
    milliseconds; a database [integer] is a [Z]; [text] is a [string]; a
    nullable column is an [option].  A table is the list of its rows, in
    insertion order.  Every awaited call to the record store ends in one of
    three ways, see [outcome].  A call reads the clock once: [now] stands for
    each [new Date()] of the call.  A [string] holds the UTF-8 encoding of a
    JavaScript string. *)

From Stdlib Require Import ZArith List String Ascii Bool Lia.
From Stdlib Require Import DecimalString.
Import ListNotations.

Open Scope string_scope.
Open Scope Z_scope.

(** ** JavaScript string helpers *)

Module Js.

(** *** [String.prototype.toLowerCase]

    The method converts a string by the default case conversion of the
    Unicode standard: the lower-case mappings of the character database,
    with the one conditional mapping that holds in every language, the final
    sigma. *)

(** A [string] holds the UTF-8 encoding of a JavaScript string.  A string
    that is not well-formed UTF-8 stands for no JavaScript string. *)

Definition byte (b : ascii) : N := N_of_ascii b.

Definition continuation (b : ascii) : bool :=
  ((0x80 <=? byte b) && (byte b <=? 0xBF))%N.

(** The code points a string can hold: all but the surrogates. *)
Definition scalar (n : N) : bool :=
  ((n <? 0xD800) || ((0xDFFF <? n) && (n <? 0x110000)))%N.

(** The code points of a string, [None] when it is not well-formed. *)
Fixpoint decode (s : string) : option (list N) :=
  match s with
  | EmptyString => Some []
  | String b1 r1 =>
      if (byte b1 <? 0x80)%N then option_map (cons (byte b1)) (decode r1)
      else
        match r1 with
        | EmptyString => None
        | String b2 r2 =>
            if ((0xC2 <=? byte b1) && (byte b1 <=? 0xDF))%N then
              if continuation b2 then
                option_map
                  (cons ((byte b1 - 0xC0) * 64 + (byte b2 - 0x80))%N)
                  (decode r2)
              else None
            else
              match r2 with
              | EmptyString => None
              | String b3 r3 =>
                  if ((0xE0 <=? byte b1) && (byte b1 <=? 0xEF))%N then
                    let n := ((byte b1 - 0xE0) * 4096 + (byte b2 - 0x80) * 64
                              + (byte b3 - 0x80))%N in
                    if (continuation b2 && continuation b3
                        && (0x800 <=? n)%N && scalar n)%bool
                    then option_map (cons n) (decode r3)
                    else None
                  else
                    match r3 with
                    | EmptyString => None
                    | String b4 r4 =>
                        let n := ((byte b1 - 0xF0) * 262144
                                  + (byte b2 - 0x80) * 4096
                                  + (byte b3 - 0x80) * 64
                                  + (byte b4 - 0x80))%N in
                        if ((0xF0 <=? byte b1)%N && (byte b1 <=? 0xF4)%N
                            && continuation b2 && continuation b3
                            && continuation b4
                            && (0x10000 <=? n)%N && (n <? 0x110000)%N)%bool
                        then option_map (cons n) (decode r4)
                        else None
                    end
              end
        end
  end.

Definition encode_point (n : N) : string :=
  if (n <? 0x80)%N then String (ascii_of_N n) EmptyString
  else if (n <? 0x800)%N then
    String (ascii_of_N (0xC0 + n / 64))
      (String (ascii_of_N (0x80 + n mod 64)) EmptyString)
  else if (n <? 0x10000)%N then
    String (ascii_of_N (0xE0 + n / 4096))
      (String (ascii_of_N (0x80 + (n / 64) mod 64))
         (String (ascii_of_N (0x80 + n mod 64)) EmptyString))
  else
    String (ascii_of_N (0xF0 + n / 262144))
      (String (ascii_of_N (0x80 + (n / 4096) mod 64))
         (String (ascii_of_N (0x80 + (n / 64) mod 64))
            (String (ascii_of_N (0x80 + n mod 64)) EmptyString))).

Fixpoint encode (l : list N) : string :=
  match l with
  | [] => EmptyString
  | n :: rest => encode_point n ++ encode rest
  end.

(** The letters whose lower-case form is another single letter, each with
    that form: the simple lower-case mappings of the Unicode Character
    Database (version 14.0). *)

Definition lower_pairs : list (N * N) :=
  [
    (0x41, 0x61); (0x42, 0x62); (0x43, 0x63); (0x44, 0x64); (0x45, 0x65);
    (0x46, 0x66); (0x47, 0x67); (0x48, 0x68); (0x49, 0x69); (0x4A, 0x6A);
    (0x4B, 0x6B); (0x4C, 0x6C); (0x4D, 0x6D); (0x4E, 0x6E); (0x4F, 0x6F);
    (0x50, 0x70); (0x51, 0x71); (0x52, 0x72); (0x53, 0x73); (0x54, 0x74);
    (0x55, 0x75); (0x56, 0x76); (0x57, 0x77); (0x58, 0x78); (0x59, 0x79);
    (0x5A, 0x7A); (0xC0, 0xE0); (0xC1, 0xE1); (0xC2, 0xE2); (0xC3, 0xE3);
    (0xC4, 0xE4); (0xC5, 0xE5); (0xC6, 0xE6); (0xC7, 0xE7); (0xC8, 0xE8);
    (0xC9, 0xE9); (0xCA, 0xEA); (0xCB, 0xEB); (0xCC, 0xEC); (0xCD, 0xED);
    (0xCE, 0xEE); (0xCF, 0xEF); (0xD0, 0xF0); (0xD1, 0xF1); (0xD2, 0xF2);
    (0xD3, 0xF3); (0xD4, 0xF4); (0xD5, 0xF5); (0xD6, 0xF6); (0xD8, 0xF8);
    (0xD9, 0xF9); (0xDA, 0xFA); (0xDB, 0xFB); (0xDC, 0xFC); (0xDD, 0xFD);
    (0xDE, 0xFE); (0x100, 0x101); (0x102, 0x103); (0x104, 0x105); (0x106, 0x107);
    (0x108, 0x109); (0x10A, 0x10B); (0x10C, 0x10D); (0x10E, 0x10F); (0x110, 0x111);
    (0x112, 0x113); (0x114, 0x115); (0x116, 0x117); (0x118, 0x119); (0x11A, 0x11B);
    (0x11C, 0x11D); (0x11E, 0x11F); (0x120, 0x121); (0x122, 0x123); (0x124, 0x125);
    (0x126, 0x127); (0x128, 0x129); (0x12A, 0x12B); (0x12C, 0x12D); (0x12E, 0x12F);
    (0x132, 0x133); (0x134, 0x135); (0x136, 0x137); (0x139, 0x13A); (0x13B, 0x13C);
    (0x13D, 0x13E); (0x13F, 0x140); (0x141, 0x142); (0x143, 0x144); (0x145, 0x146);
    (0x147, 0x148); (0x14A, 0x14B); (0x14C, 0x14D); (0x14E, 0x14F); (0x150, 0x151);
    (0x152, 0x153); (0x154, 0x155); (0x156, 0x157); (0x158, 0x159); (0x15A, 0x15B);
    (0x15C, 0x15D); (0x15E, 0x15F); (0x160, 0x161); (0x162, 0x163); (0x164, 0x165);
    (0x166, 0x167); (0x168, 0x169); (0x16A, 0x16B); (0x16C, 0x16D); (0x16E, 0x16F);
    (0x170, 0x171); (0x172, 0x173); (0x174, 0x175); (0x176, 0x177); (0x178, 0xFF);
    (0x179, 0x17A); (0x17B, 0x17C); (0x17D, 0x17E); (0x181, 0x253); (0x182, 0x183);
    (0x184, 0x185); (0x186, 0x254); (0x187, 0x188); (0x189, 0x256); (0x18A, 0x257);
    (0x18B, 0x18C); (0x18E, 0x1DD); (0x18F, 0x259); (0x190, 0x25B); (0x191, 0x192);
    (0x193, 0x260); (0x194, 0x263); (0x196, 0x269); (0x197, 0x268); (0x198, 0x199);
    (0x19C, 0x26F); (0x19D, 0x272); (0x19F, 0x275); (0x1A0, 0x1A1); (0x1A2, 0x1A3);
    (0x1A4, 0x1A5); (0x1A6, 0x280); (0x1A7, 0x1A8); (0x1A9, 0x283); (0x1AC, 0x1AD);
    (0x1AE, 0x288); (0x1AF, 0x1B0); (0x1B1, 0x28A); (0x1B2, 0x28B); (0x1B3, 0x1B4);
    (0x1B5, 0x1B6); (0x1B7, 0x292); (0x1B8, 0x1B9); (0x1BC, 0x1BD); (0x1C4, 0x1C6);
    (0x1C5, 0x1C6); (0x1C7, 0x1C9); (0x1C8, 0x1C9); (0x1CA, 0x1CC); (0x1CB, 0x1CC);
    (0x1CD, 0x1CE); (0x1CF, 0x1D0); (0x1D1, 0x1D2); (0x1D3, 0x1D4); (0x1D5, 0x1D6);
    (0x1D7, 0x1D8); (0x1D9, 0x1DA); (0x1DB, 0x1DC); (0x1DE, 0x1DF); (0x1E0, 0x1E1);
    (0x1E2, 0x1E3); (0x1E4, 0x1E5); (0x1E6, 0x1E7); (0x1E8, 0x1E9); (0x1EA, 0x1EB);
    (0x1EC, 0x1ED); (0x1EE, 0x1EF); (0x1F1, 0x1F3); (0x1F2, 0x1F3); (0x1F4, 0x1F5);
    (0x1F6, 0x195); (0x1F7, 0x1BF); (0x1F8, 0x1F9); (0x1FA, 0x1FB); (0x1FC, 0x1FD);
    (0x1FE, 0x1FF); (0x200, 0x201); (0x202, 0x203); (0x204, 0x205); (0x206, 0x207);
    (0x208, 0x209); (0x20A, 0x20B); (0x20C, 0x20D); (0x20E, 0x20F); (0x210, 0x211);
    (0x212, 0x213); (0x214, 0x215); (0x216, 0x217); (0x218, 0x219); (0x21A, 0x21B);
    (0x21C, 0x21D); (0x21E, 0x21F); (0x220, 0x19E); (0x222, 0x223); (0x224, 0x225);
    (0x226, 0x227); (0x228, 0x229); (0x22A, 0x22B); (0x22C, 0x22D); (0x22E, 0x22F);
    (0x230, 0x231); (0x232, 0x233); (0x23A, 0x2C65); (0x23B, 0x23C); (0x23D, 0x19A);
    (0x23E, 0x2C66); (0x241, 0x242); (0x243, 0x180); (0x244, 0x289); (0x245, 0x28C);
    (0x246, 0x247); (0x248, 0x249); (0x24A, 0x24B); (0x24C, 0x24D); (0x24E, 0x24F);
    (0x370, 0x371); (0x372, 0x373); (0x376, 0x377); (0x37F, 0x3F3); (0x386, 0x3AC);
    (0x388, 0x3AD); (0x389, 0x3AE); (0x38A, 0x3AF); (0x38C, 0x3CC); (0x38E, 0x3CD);
    (0x38F, 0x3CE); (0x391, 0x3B1); (0x392, 0x3B2); (0x393, 0x3B3); (0x394, 0x3B4);
    (0x395, 0x3B5); (0x396, 0x3B6); (0x397, 0x3B7); (0x398, 0x3B8); (0x399, 0x3B9);
    (0x39A, 0x3BA); (0x39B, 0x3BB); (0x39C, 0x3BC); (0x39D, 0x3BD); (0x39E, 0x3BE);
    (0x39F, 0x3BF); (0x3A0, 0x3C0); (0x3A1, 0x3C1); (0x3A3, 0x3C3); (0x3A4, 0x3C4);
    (0x3A5, 0x3C5); (0x3A6, 0x3C6); (0x3A7, 0x3C7); (0x3A8, 0x3C8); (0x3A9, 0x3C9);
    (0x3AA, 0x3CA); (0x3AB, 0x3CB); (0x3CF, 0x3D7); (0x3D8, 0x3D9); (0x3DA, 0x3DB);
    (0x3DC, 0x3DD); (0x3DE, 0x3DF); (0x3E0, 0x3E1); (0x3E2, 0x3E3); (0x3E4, 0x3E5);
    (0x3E6, 0x3E7); (0x3E8, 0x3E9); (0x3EA, 0x3EB); (0x3EC, 0x3ED); (0x3EE, 0x3EF);
    (0x3F4, 0x3B8); (0x3F7, 0x3F8); (0x3F9, 0x3F2); (0x3FA, 0x3FB); (0x3FD, 0x37B);
    (0x3FE, 0x37C); (0x3FF, 0x37D); (0x400, 0x450); (0x401, 0x451); (0x402, 0x452);
    (0x403, 0x453); (0x404, 0x454); (0x405, 0x455); (0x406, 0x456); (0x407, 0x457);
    (0x408, 0x458); (0x409, 0x459); (0x40A, 0x45A); (0x40B, 0x45B); (0x40C, 0x45C);
    (0x40D, 0x45D); (0x40E, 0x45E); (0x40F, 0x45F); (0x410, 0x430); (0x411, 0x431);
    (0x412, 0x432); (0x413, 0x433); (0x414, 0x434); (0x415, 0x435); (0x416, 0x436);
    (0x417, 0x437); (0x418, 0x438); (0x419, 0x439); (0x41A, 0x43A); (0x41B, 0x43B);
    (0x41C, 0x43C); (0x41D, 0x43D); (0x41E, 0x43E); (0x41F, 0x43F); (0x420, 0x440);
    (0x421, 0x441); (0x422, 0x442); (0x423, 0x443); (0x424, 0x444); (0x425, 0x445);
    (0x426, 0x446); (0x427, 0x447); (0x428, 0x448); (0x429, 0x449); (0x42A, 0x44A);
    (0x42B, 0x44B); (0x42C, 0x44C); (0x42D, 0x44D); (0x42E, 0x44E); (0x42F, 0x44F);
    (0x460, 0x461); (0x462, 0x463); (0x464, 0x465); (0x466, 0x467); (0x468, 0x469);
    (0x46A, 0x46B); (0x46C, 0x46D); (0x46E, 0x46F); (0x470, 0x471); (0x472, 0x473);
    (0x474, 0x475); (0x476, 0x477); (0x478, 0x479); (0x47A, 0x47B); (0x47C, 0x47D);
    (0x47E, 0x47F); (0x480, 0x481); (0x48A, 0x48B); (0x48C, 0x48D); (0x48E, 0x48F);
    (0x490, 0x491); (0x492, 0x493); (0x494, 0x495); (0x496, 0x497); (0x498, 0x499);
    (0x49A, 0x49B); (0x49C, 0x49D); (0x49E, 0x49F); (0x4A0, 0x4A1); (0x4A2, 0x4A3);
    (0x4A4, 0x4A5); (0x4A6, 0x4A7); (0x4A8, 0x4A9); (0x4AA, 0x4AB); (0x4AC, 0x4AD);
    (0x4AE, 0x4AF); (0x4B0, 0x4B1); (0x4B2, 0x4B3); (0x4B4, 0x4B5); (0x4B6, 0x4B7);
    (0x4B8, 0x4B9); (0x4BA, 0x4BB); (0x4BC, 0x4BD); (0x4BE, 0x4BF); (0x4C0, 0x4CF);
    (0x4C1, 0x4C2); (0x4C3, 0x4C4); (0x4C5, 0x4C6); (0x4C7, 0x4C8); (0x4C9, 0x4CA);
    (0x4CB, 0x4CC); (0x4CD, 0x4CE); (0x4D0, 0x4D1); (0x4D2, 0x4D3); (0x4D4, 0x4D5);
    (0x4D6, 0x4D7); (0x4D8, 0x4D9); (0x4DA, 0x4DB); (0x4DC, 0x4DD); (0x4DE, 0x4DF);
    (0x4E0, 0x4E1); (0x4E2, 0x4E3); (0x4E4, 0x4E5); (0x4E6, 0x4E7); (0x4E8, 0x4E9);
    (0x4EA, 0x4EB); (0x4EC, 0x4ED); (0x4EE, 0x4EF); (0x4F0, 0x4F1); (0x4F2, 0x4F3);
    (0x4F4, 0x4F5); (0x4F6, 0x4F7); (0x4F8, 0x4F9); (0x4FA, 0x4FB); (0x4FC, 0x4FD);
    (0x4FE, 0x4FF); (0x500, 0x501); (0x502, 0x503); (0x504, 0x505); (0x506, 0x507);
    (0x508, 0x509); (0x50A, 0x50B); (0x50C, 0x50D); (0x50E, 0x50F); (0x510, 0x511);
    (0x512, 0x513); (0x514, 0x515); (0x516, 0x517); (0x518, 0x519); (0x51A, 0x51B);
    (0x51C, 0x51D); (0x51E, 0x51F); (0x520, 0x521); (0x522, 0x523); (0x524, 0x525);
    (0x526, 0x527); (0x528, 0x529); (0x52A, 0x52B); (0x52C, 0x52D); (0x52E, 0x52F);
    (0x531, 0x561); (0x532, 0x562); (0x533, 0x563); (0x534, 0x564); (0x535, 0x565);
    (0x536, 0x566); (0x537, 0x567); (0x538, 0x568); (0x539, 0x569); (0x53A, 0x56A);
    (0x53B, 0x56B); (0x53C, 0x56C); (0x53D, 0x56D); (0x53E, 0x56E); (0x53F, 0x56F);
    (0x540, 0x570); (0x541, 0x571); (0x542, 0x572); (0x543, 0x573); (0x544, 0x574);
    (0x545, 0x575); (0x546, 0x576); (0x547, 0x577); (0x548, 0x578); (0x549, 0x579);
    (0x54A, 0x57A); (0x54B, 0x57B); (0x54C, 0x57C); (0x54D, 0x57D); (0x54E, 0x57E);
    (0x54F, 0x57F); (0x550, 0x580); (0x551, 0x581); (0x552, 0x582); (0x553, 0x583);
    (0x554, 0x584); (0x555, 0x585); (0x556, 0x586); (0x10A0, 0x2D00); (0x10A1, 0x2D01);
    (0x10A2, 0x2D02); (0x10A3, 0x2D03); (0x10A4, 0x2D04); (0x10A5, 0x2D05); (0x10A6, 0x2D06);
    (0x10A7, 0x2D07); (0x10A8, 0x2D08); (0x10A9, 0x2D09); (0x10AA, 0x2D0A); (0x10AB, 0x2D0B);
    (0x10AC, 0x2D0C); (0x10AD, 0x2D0D); (0x10AE, 0x2D0E); (0x10AF, 0x2D0F); (0x10B0, 0x2D10);
    (0x10B1, 0x2D11); (0x10B2, 0x2D12); (0x10B3, 0x2D13); (0x10B4, 0x2D14); (0x10B5, 0x2D15);
    (0x10B6, 0x2D16); (0x10B7, 0x2D17); (0x10B8, 0x2D18); (0x10B9, 0x2D19); (0x10BA, 0x2D1A);
    (0x10BB, 0x2D1B); (0x10BC, 0x2D1C); (0x10BD, 0x2D1D); (0x10BE, 0x2D1E); (0x10BF, 0x2D1F);
    (0x10C0, 0x2D20); (0x10C1, 0x2D21); (0x10C2, 0x2D22); (0x10C3, 0x2D23); (0x10C4, 0x2D24);
    (0x10C5, 0x2D25); (0x10C7, 0x2D27); (0x10CD, 0x2D2D); (0x13A0, 0xAB70); (0x13A1, 0xAB71);
    (0x13A2, 0xAB72); (0x13A3, 0xAB73); (0x13A4, 0xAB74); (0x13A5, 0xAB75); (0x13A6, 0xAB76);
    (0x13A7, 0xAB77); (0x13A8, 0xAB78); (0x13A9, 0xAB79); (0x13AA, 0xAB7A); (0x13AB, 0xAB7B);
    (0x13AC, 0xAB7C); (0x13AD, 0xAB7D); (0x13AE, 0xAB7E); (0x13AF, 0xAB7F); (0x13B0, 0xAB80);
    (0x13B1, 0xAB81); (0x13B2, 0xAB82); (0x13B3, 0xAB83); (0x13B4, 0xAB84); (0x13B5, 0xAB85);
    (0x13B6, 0xAB86); (0x13B7, 0xAB87); (0x13B8, 0xAB88); (0x13B9, 0xAB89); (0x13BA, 0xAB8A);
    (0x13BB, 0xAB8B); (0x13BC, 0xAB8C); (0x13BD, 0xAB8D); (0x13BE, 0xAB8E); (0x13BF, 0xAB8F);
    (0x13C0, 0xAB90); (0x13C1, 0xAB91); (0x13C2, 0xAB92); (0x13C3, 0xAB93); (0x13C4, 0xAB94);
    (0x13C5, 0xAB95); (0x13C6, 0xAB96); (0x13C7, 0xAB97); (0x13C8, 0xAB98); (0x13C9, 0xAB99);
    (0x13CA, 0xAB9A); (0x13CB, 0xAB9B); (0x13CC, 0xAB9C); (0x13CD, 0xAB9D); (0x13CE, 0xAB9E);
    (0x13CF, 0xAB9F); (0x13D0, 0xABA0); (0x13D1, 0xABA1); (0x13D2, 0xABA2); (0x13D3, 0xABA3);
    (0x13D4, 0xABA4); (0x13D5, 0xABA5); (0x13D6, 0xABA6); (0x13D7, 0xABA7); (0x13D8, 0xABA8);
    (0x13D9, 0xABA9); (0x13DA, 0xABAA); (0x13DB, 0xABAB); (0x13DC, 0xABAC); (0x13DD, 0xABAD);
    (0x13DE, 0xABAE); (0x13DF, 0xABAF); (0x13E0, 0xABB0); (0x13E1, 0xABB1); (0x13E2, 0xABB2);
    (0x13E3, 0xABB3); (0x13E4, 0xABB4); (0x13E5, 0xABB5); (0x13E6, 0xABB6); (0x13E7, 0xABB7);
    (0x13E8, 0xABB8); (0x13E9, 0xABB9); (0x13EA, 0xABBA); (0x13EB, 0xABBB); (0x13EC, 0xABBC);
    (0x13ED, 0xABBD); (0x13EE, 0xABBE); (0x13EF, 0xABBF); (0x13F0, 0x13F8); (0x13F1, 0x13F9);
    (0x13F2, 0x13FA); (0x13F3, 0x13FB); (0x13F4, 0x13FC); (0x13F5, 0x13FD); (0x1C90, 0x10D0);
    (0x1C91, 0x10D1); (0x1C92, 0x10D2); (0x1C93, 0x10D3); (0x1C94, 0x10D4); (0x1C95, 0x10D5);
    (0x1C96, 0x10D6); (0x1C97, 0x10D7); (0x1C98, 0x10D8); (0x1C99, 0x10D9); (0x1C9A, 0x10DA);
    (0x1C9B, 0x10DB); (0x1C9C, 0x10DC); (0x1C9D, 0x10DD); (0x1C9E, 0x10DE); (0x1C9F, 0x10DF);
    (0x1CA0, 0x10E0); (0x1CA1, 0x10E1); (0x1CA2, 0x10E2); (0x1CA3, 0x10E3); (0x1CA4, 0x10E4);
    (0x1CA5, 0x10E5); (0x1CA6, 0x10E6); (0x1CA7, 0x10E7); (0x1CA8, 0x10E8); (0x1CA9, 0x10E9);
    (0x1CAA, 0x10EA); (0x1CAB, 0x10EB); (0x1CAC, 0x10EC); (0x1CAD, 0x10ED); (0x1CAE, 0x10EE);
    (0x1CAF, 0x10EF); (0x1CB0, 0x10F0); (0x1CB1, 0x10F1); (0x1CB2, 0x10F2); (0x1CB3, 0x10F3);
    (0x1CB4, 0x10F4); (0x1CB5, 0x10F5); (0x1CB6, 0x10F6); (0x1CB7, 0x10F7); (0x1CB8, 0x10F8);
    (0x1CB9, 0x10F9); (0x1CBA, 0x10FA); (0x1CBD, 0x10FD); (0x1CBE, 0x10FE); (0x1CBF, 0x10FF);
    (0x1E00, 0x1E01); (0x1E02, 0x1E03); (0x1E04, 0x1E05); (0x1E06, 0x1E07); (0x1E08, 0x1E09);
    (0x1E0A, 0x1E0B); (0x1E0C, 0x1E0D); (0x1E0E, 0x1E0F); (0x1E10, 0x1E11); (0x1E12, 0x1E13);
    (0x1E14, 0x1E15); (0x1E16, 0x1E17); (0x1E18, 0x1E19); (0x1E1A, 0x1E1B); (0x1E1C, 0x1E1D);
    (0x1E1E, 0x1E1F); (0x1E20, 0x1E21); (0x1E22, 0x1E23); (0x1E24, 0x1E25); (0x1E26, 0x1E27);
    (0x1E28, 0x1E29); (0x1E2A, 0x1E2B); (0x1E2C, 0x1E2D); (0x1E2E, 0x1E2F); (0x1E30, 0x1E31);
    (0x1E32, 0x1E33); (0x1E34, 0x1E35); (0x1E36, 0x1E37); (0x1E38, 0x1E39); (0x1E3A, 0x1E3B);
    (0x1E3C, 0x1E3D); (0x1E3E, 0x1E3F); (0x1E40, 0x1E41); (0x1E42, 0x1E43); (0x1E44, 0x1E45);
    (0x1E46, 0x1E47); (0x1E48, 0x1E49); (0x1E4A, 0x1E4B); (0x1E4C, 0x1E4D); (0x1E4E, 0x1E4F);
    (0x1E50, 0x1E51); (0x1E52, 0x1E53); (0x1E54, 0x1E55); (0x1E56, 0x1E57); (0x1E58, 0x1E59);
    (0x1E5A, 0x1E5B); (0x1E5C, 0x1E5D); (0x1E5E, 0x1E5F); (0x1E60, 0x1E61); (0x1E62, 0x1E63);
    (0x1E64, 0x1E65); (0x1E66, 0x1E67); (0x1E68, 0x1E69); (0x1E6A, 0x1E6B); (0x1E6C, 0x1E6D);
    (0x1E6E, 0x1E6F); (0x1E70, 0x1E71); (0x1E72, 0x1E73); (0x1E74, 0x1E75); (0x1E76, 0x1E77);
    (0x1E78, 0x1E79); (0x1E7A, 0x1E7B); (0x1E7C, 0x1E7D); (0x1E7E, 0x1E7F); (0x1E80, 0x1E81);
    (0x1E82, 0x1E83); (0x1E84, 0x1E85); (0x1E86, 0x1E87); (0x1E88, 0x1E89); (0x1E8A, 0x1E8B);
    (0x1E8C, 0x1E8D); (0x1E8E, 0x1E8F); (0x1E90, 0x1E91); (0x1E92, 0x1E93); (0x1E94, 0x1E95);
    (0x1E9E, 0xDF); (0x1EA0, 0x1EA1); (0x1EA2, 0x1EA3); (0x1EA4, 0x1EA5); (0x1EA6, 0x1EA7);
    (0x1EA8, 0x1EA9); (0x1EAA, 0x1EAB); (0x1EAC, 0x1EAD); (0x1EAE, 0x1EAF); (0x1EB0, 0x1EB1);
    (0x1EB2, 0x1EB3); (0x1EB4, 0x1EB5); (0x1EB6, 0x1EB7); (0x1EB8, 0x1EB9); (0x1EBA, 0x1EBB);
    (0x1EBC, 0x1EBD); (0x1EBE, 0x1EBF); (0x1EC0, 0x1EC1); (0x1EC2, 0x1EC3); (0x1EC4, 0x1EC5);
    (0x1EC6, 0x1EC7); (0x1EC8, 0x1EC9); (0x1ECA, 0x1ECB); (0x1ECC, 0x1ECD); (0x1ECE, 0x1ECF);
    (0x1ED0, 0x1ED1); (0x1ED2, 0x1ED3); (0x1ED4, 0x1ED5); (0x1ED6, 0x1ED7); (0x1ED8, 0x1ED9);
    (0x1EDA, 0x1EDB); (0x1EDC, 0x1EDD); (0x1EDE, 0x1EDF); (0x1EE0, 0x1EE1); (0x1EE2, 0x1EE3);
    (0x1EE4, 0x1EE5); (0x1EE6, 0x1EE7); (0x1EE8, 0x1EE9); (0x1EEA, 0x1EEB); (0x1EEC, 0x1EED);
    (0x1EEE, 0x1EEF); (0x1EF0, 0x1EF1); (0x1EF2, 0x1EF3); (0x1EF4, 0x1EF5); (0x1EF6, 0x1EF7);
    (0x1EF8, 0x1EF9); (0x1EFA, 0x1EFB); (0x1EFC, 0x1EFD); (0x1EFE, 0x1EFF); (0x1F08, 0x1F00);
    (0x1F09, 0x1F01); (0x1F0A, 0x1F02); (0x1F0B, 0x1F03); (0x1F0C, 0x1F04); (0x1F0D, 0x1F05);
    (0x1F0E, 0x1F06); (0x1F0F, 0x1F07); (0x1F18, 0x1F10); (0x1F19, 0x1F11); (0x1F1A, 0x1F12);
    (0x1F1B, 0x1F13); (0x1F1C, 0x1F14); (0x1F1D, 0x1F15); (0x1F28, 0x1F20); (0x1F29, 0x1F21);
    (0x1F2A, 0x1F22); (0x1F2B, 0x1F23); (0x1F2C, 0x1F24); (0x1F2D, 0x1F25); (0x1F2E, 0x1F26);
    (0x1F2F, 0x1F27); (0x1F38, 0x1F30); (0x1F39, 0x1F31); (0x1F3A, 0x1F32); (0x1F3B, 0x1F33);
    (0x1F3C, 0x1F34); (0x1F3D, 0x1F35); (0x1F3E, 0x1F36); (0x1F3F, 0x1F37); (0x1F48, 0x1F40);
    (0x1F49, 0x1F41); (0x1F4A, 0x1F42); (0x1F4B, 0x1F43); (0x1F4C, 0x1F44); (0x1F4D, 0x1F45);
    (0x1F59, 0x1F51); (0x1F5B, 0x1F53); (0x1F5D, 0x1F55); (0x1F5F, 0x1F57); (0x1F68, 0x1F60);
    (0x1F69, 0x1F61); (0x1F6A, 0x1F62); (0x1F6B, 0x1F63); (0x1F6C, 0x1F64); (0x1F6D, 0x1F65);
    (0x1F6E, 0x1F66); (0x1F6F, 0x1F67); (0x1F88, 0x1F80); (0x1F89, 0x1F81); (0x1F8A, 0x1F82);
    (0x1F8B, 0x1F83); (0x1F8C, 0x1F84); (0x1F8D, 0x1F85); (0x1F8E, 0x1F86); (0x1F8F, 0x1F87);
    (0x1F98, 0x1F90); (0x1F99, 0x1F91); (0x1F9A, 0x1F92); (0x1F9B, 0x1F93); (0x1F9C, 0x1F94);
    (0x1F9D, 0x1F95); (0x1F9E, 0x1F96); (0x1F9F, 0x1F97); (0x1FA8, 0x1FA0); (0x1FA9, 0x1FA1);
    (0x1FAA, 0x1FA2); (0x1FAB, 0x1FA3); (0x1FAC, 0x1FA4); (0x1FAD, 0x1FA5); (0x1FAE, 0x1FA6);
    (0x1FAF, 0x1FA7); (0x1FB8, 0x1FB0); (0x1FB9, 0x1FB1); (0x1FBA, 0x1F70); (0x1FBB, 0x1F71);
    (0x1FBC, 0x1FB3); (0x1FC8, 0x1F72); (0x1FC9, 0x1F73); (0x1FCA, 0x1F74); (0x1FCB, 0x1F75);
    (0x1FCC, 0x1FC3); (0x1FD8, 0x1FD0); (0x1FD9, 0x1FD1); (0x1FDA, 0x1F76); (0x1FDB, 0x1F77);
    (0x1FE8, 0x1FE0); (0x1FE9, 0x1FE1); (0x1FEA, 0x1F7A); (0x1FEB, 0x1F7B); (0x1FEC, 0x1FE5);
    (0x1FF8, 0x1F78); (0x1FF9, 0x1F79); (0x1FFA, 0x1F7C); (0x1FFB, 0x1F7D); (0x1FFC, 0x1FF3);
    (0x2126, 0x3C9); (0x212A, 0x6B); (0x212B, 0xE5); (0x2132, 0x214E); (0x2160, 0x2170);
    (0x2161, 0x2171); (0x2162, 0x2172); (0x2163, 0x2173); (0x2164, 0x2174); (0x2165, 0x2175);
    (0x2166, 0x2176); (0x2167, 0x2177); (0x2168, 0x2178); (0x2169, 0x2179); (0x216A, 0x217A);
    (0x216B, 0x217B); (0x216C, 0x217C); (0x216D, 0x217D); (0x216E, 0x217E); (0x216F, 0x217F);
    (0x2183, 0x2184); (0x24B6, 0x24D0); (0x24B7, 0x24D1); (0x24B8, 0x24D2); (0x24B9, 0x24D3);
    (0x24BA, 0x24D4); (0x24BB, 0x24D5); (0x24BC, 0x24D6); (0x24BD, 0x24D7); (0x24BE, 0x24D8);
    (0x24BF, 0x24D9); (0x24C0, 0x24DA); (0x24C1, 0x24DB); (0x24C2, 0x24DC); (0x24C3, 0x24DD);
    (0x24C4, 0x24DE); (0x24C5, 0x24DF); (0x24C6, 0x24E0); (0x24C7, 0x24E1); (0x24C8, 0x24E2);
    (0x24C9, 0x24E3); (0x24CA, 0x24E4); (0x24CB, 0x24E5); (0x24CC, 0x24E6); (0x24CD, 0x24E7);
    (0x24CE, 0x24E8); (0x24CF, 0x24E9); (0x2C00, 0x2C30); (0x2C01, 0x2C31); (0x2C02, 0x2C32);
    (0x2C03, 0x2C33); (0x2C04, 0x2C34); (0x2C05, 0x2C35); (0x2C06, 0x2C36); (0x2C07, 0x2C37);
    (0x2C08, 0x2C38); (0x2C09, 0x2C39); (0x2C0A, 0x2C3A); (0x2C0B, 0x2C3B); (0x2C0C, 0x2C3C);
    (0x2C0D, 0x2C3D); (0x2C0E, 0x2C3E); (0x2C0F, 0x2C3F); (0x2C10, 0x2C40); (0x2C11, 0x2C41);
    (0x2C12, 0x2C42); (0x2C13, 0x2C43); (0x2C14, 0x2C44); (0x2C15, 0x2C45); (0x2C16, 0x2C46);
    (0x2C17, 0x2C47); (0x2C18, 0x2C48); (0x2C19, 0x2C49); (0x2C1A, 0x2C4A); (0x2C1B, 0x2C4B);
    (0x2C1C, 0x2C4C); (0x2C1D, 0x2C4D); (0x2C1E, 0x2C4E); (0x2C1F, 0x2C4F); (0x2C20, 0x2C50);
    (0x2C21, 0x2C51); (0x2C22, 0x2C52); (0x2C23, 0x2C53); (0x2C24, 0x2C54); (0x2C25, 0x2C55);
    (0x2C26, 0x2C56); (0x2C27, 0x2C57); (0x2C28, 0x2C58); (0x2C29, 0x2C59); (0x2C2A, 0x2C5A);
    (0x2C2B, 0x2C5B); (0x2C2C, 0x2C5C); (0x2C2D, 0x2C5D); (0x2C2E, 0x2C5E); (0x2C2F, 0x2C5F);
    (0x2C60, 0x2C61); (0x2C62, 0x26B); (0x2C63, 0x1D7D); (0x2C64, 0x27D); (0x2C67, 0x2C68);
    (0x2C69, 0x2C6A); (0x2C6B, 0x2C6C); (0x2C6D, 0x251); (0x2C6E, 0x271); (0x2C6F, 0x250);
    (0x2C70, 0x252); (0x2C72, 0x2C73); (0x2C75, 0x2C76); (0x2C7E, 0x23F); (0x2C7F, 0x240);
    (0x2C80, 0x2C81); (0x2C82, 0x2C83); (0x2C84, 0x2C85); (0x2C86, 0x2C87); (0x2C88, 0x2C89);
    (0x2C8A, 0x2C8B); (0x2C8C, 0x2C8D); (0x2C8E, 0x2C8F); (0x2C90, 0x2C91); (0x2C92, 0x2C93);
    (0x2C94, 0x2C95); (0x2C96, 0x2C97); (0x2C98, 0x2C99); (0x2C9A, 0x2C9B); (0x2C9C, 0x2C9D);
    (0x2C9E, 0x2C9F); (0x2CA0, 0x2CA1); (0x2CA2, 0x2CA3); (0x2CA4, 0x2CA5); (0x2CA6, 0x2CA7);
    (0x2CA8, 0x2CA9); (0x2CAA, 0x2CAB); (0x2CAC, 0x2CAD); (0x2CAE, 0x2CAF); (0x2CB0, 0x2CB1);
    (0x2CB2, 0x2CB3); (0x2CB4, 0x2CB5); (0x2CB6, 0x2CB7); (0x2CB8, 0x2CB9); (0x2CBA, 0x2CBB);
    (0x2CBC, 0x2CBD); (0x2CBE, 0x2CBF); (0x2CC0, 0x2CC1); (0x2CC2, 0x2CC3); (0x2CC4, 0x2CC5);
    (0x2CC6, 0x2CC7); (0x2CC8, 0x2CC9); (0x2CCA, 0x2CCB); (0x2CCC, 0x2CCD); (0x2CCE, 0x2CCF);
    (0x2CD0, 0x2CD1); (0x2CD2, 0x2CD3); (0x2CD4, 0x2CD5); (0x2CD6, 0x2CD7); (0x2CD8, 0x2CD9);
    (0x2CDA, 0x2CDB); (0x2CDC, 0x2CDD); (0x2CDE, 0x2CDF); (0x2CE0, 0x2CE1); (0x2CE2, 0x2CE3);
    (0x2CEB, 0x2CEC); (0x2CED, 0x2CEE); (0x2CF2, 0x2CF3); (0xA640, 0xA641); (0xA642, 0xA643);
    (0xA644, 0xA645); (0xA646, 0xA647); (0xA648, 0xA649); (0xA64A, 0xA64B); (0xA64C, 0xA64D);
    (0xA64E, 0xA64F); (0xA650, 0xA651); (0xA652, 0xA653); (0xA654, 0xA655); (0xA656, 0xA657);
    (0xA658, 0xA659); (0xA65A, 0xA65B); (0xA65C, 0xA65D); (0xA65E, 0xA65F); (0xA660, 0xA661);
    (0xA662, 0xA663); (0xA664, 0xA665); (0xA666, 0xA667); (0xA668, 0xA669); (0xA66A, 0xA66B);
    (0xA66C, 0xA66D); (0xA680, 0xA681); (0xA682, 0xA683); (0xA684, 0xA685); (0xA686, 0xA687);
    (0xA688, 0xA689); (0xA68A, 0xA68B); (0xA68C, 0xA68D); (0xA68E, 0xA68F); (0xA690, 0xA691);
    (0xA692, 0xA693); (0xA694, 0xA695); (0xA696, 0xA697); (0xA698, 0xA699); (0xA69A, 0xA69B);
    (0xA722, 0xA723); (0xA724, 0xA725); (0xA726, 0xA727); (0xA728, 0xA729); (0xA72A, 0xA72B);
    (0xA72C, 0xA72D); (0xA72E, 0xA72F); (0xA732, 0xA733); (0xA734, 0xA735); (0xA736, 0xA737);
    (0xA738, 0xA739); (0xA73A, 0xA73B); (0xA73C, 0xA73D); (0xA73E, 0xA73F); (0xA740, 0xA741);
    (0xA742, 0xA743); (0xA744, 0xA745); (0xA746, 0xA747); (0xA748, 0xA749); (0xA74A, 0xA74B);
    (0xA74C, 0xA74D); (0xA74E, 0xA74F); (0xA750, 0xA751); (0xA752, 0xA753); (0xA754, 0xA755);
    (0xA756, 0xA757); (0xA758, 0xA759); (0xA75A, 0xA75B); (0xA75C, 0xA75D); (0xA75E, 0xA75F);
    (0xA760, 0xA761); (0xA762, 0xA763); (0xA764, 0xA765); (0xA766, 0xA767); (0xA768, 0xA769);
    (0xA76A, 0xA76B); (0xA76C, 0xA76D); (0xA76E, 0xA76F); (0xA779, 0xA77A); (0xA77B, 0xA77C);
    (0xA77D, 0x1D79); (0xA77E, 0xA77F); (0xA780, 0xA781); (0xA782, 0xA783); (0xA784, 0xA785);
    (0xA786, 0xA787); (0xA78B, 0xA78C); (0xA78D, 0x265); (0xA790, 0xA791); (0xA792, 0xA793);
    (0xA796, 0xA797); (0xA798, 0xA799); (0xA79A, 0xA79B); (0xA79C, 0xA79D); (0xA79E, 0xA79F);
    (0xA7A0, 0xA7A1); (0xA7A2, 0xA7A3); (0xA7A4, 0xA7A5); (0xA7A6, 0xA7A7); (0xA7A8, 0xA7A9);
    (0xA7AA, 0x266); (0xA7AB, 0x25C); (0xA7AC, 0x261); (0xA7AD, 0x26C); (0xA7AE, 0x26A);
    (0xA7B0, 0x29E); (0xA7B1, 0x287); (0xA7B2, 0x29D); (0xA7B3, 0xAB53); (0xA7B4, 0xA7B5);
    (0xA7B6, 0xA7B7); (0xA7B8, 0xA7B9); (0xA7BA, 0xA7BB); (0xA7BC, 0xA7BD); (0xA7BE, 0xA7BF);
    (0xA7C0, 0xA7C1); (0xA7C2, 0xA7C3); (0xA7C4, 0xA794); (0xA7C5, 0x282); (0xA7C6, 0x1D8E);
    (0xA7C7, 0xA7C8); (0xA7C9, 0xA7CA); (0xA7D0, 0xA7D1); (0xA7D6, 0xA7D7); (0xA7D8, 0xA7D9);
    (0xA7F5, 0xA7F6); (0xFF21, 0xFF41); (0xFF22, 0xFF42); (0xFF23, 0xFF43); (0xFF24, 0xFF44);
    (0xFF25, 0xFF45); (0xFF26, 0xFF46); (0xFF27, 0xFF47); (0xFF28, 0xFF48); (0xFF29, 0xFF49);
    (0xFF2A, 0xFF4A); (0xFF2B, 0xFF4B); (0xFF2C, 0xFF4C); (0xFF2D, 0xFF4D); (0xFF2E, 0xFF4E);
    (0xFF2F, 0xFF4F); (0xFF30, 0xFF50); (0xFF31, 0xFF51); (0xFF32, 0xFF52); (0xFF33, 0xFF53);
    (0xFF34, 0xFF54); (0xFF35, 0xFF55); (0xFF36, 0xFF56); (0xFF37, 0xFF57); (0xFF38, 0xFF58);
    (0xFF39, 0xFF59); (0xFF3A, 0xFF5A); (0x10400, 0x10428); (0x10401, 0x10429); (0x10402, 0x1042A);
    (0x10403, 0x1042B); (0x10404, 0x1042C); (0x10405, 0x1042D); (0x10406, 0x1042E); (0x10407, 0x1042F);
    (0x10408, 0x10430); (0x10409, 0x10431); (0x1040A, 0x10432); (0x1040B, 0x10433); (0x1040C, 0x10434);
    (0x1040D, 0x10435); (0x1040E, 0x10436); (0x1040F, 0x10437); (0x10410, 0x10438); (0x10411, 0x10439);
    (0x10412, 0x1043A); (0x10413, 0x1043B); (0x10414, 0x1043C); (0x10415, 0x1043D); (0x10416, 0x1043E);
    (0x10417, 0x1043F); (0x10418, 0x10440); (0x10419, 0x10441); (0x1041A, 0x10442); (0x1041B, 0x10443);
    (0x1041C, 0x10444); (0x1041D, 0x10445); (0x1041E, 0x10446); (0x1041F, 0x10447); (0x10420, 0x10448);
    (0x10421, 0x10449); (0x10422, 0x1044A); (0x10423, 0x1044B); (0x10424, 0x1044C); (0x10425, 0x1044D);
    (0x10426, 0x1044E); (0x10427, 0x1044F); (0x104B0, 0x104D8); (0x104B1, 0x104D9); (0x104B2, 0x104DA);
    (0x104B3, 0x104DB); (0x104B4, 0x104DC); (0x104B5, 0x104DD); (0x104B6, 0x104DE); (0x104B7, 0x104DF);
    (0x104B8, 0x104E0); (0x104B9, 0x104E1); (0x104BA, 0x104E2); (0x104BB, 0x104E3); (0x104BC, 0x104E4);
    (0x104BD, 0x104E5); (0x104BE, 0x104E6); (0x104BF, 0x104E7); (0x104C0, 0x104E8); (0x104C1, 0x104E9);
    (0x104C2, 0x104EA); (0x104C3, 0x104EB); (0x104C4, 0x104EC); (0x104C5, 0x104ED); (0x104C6, 0x104EE);
    (0x104C7, 0x104EF); (0x104C8, 0x104F0); (0x104C9, 0x104F1); (0x104CA, 0x104F2); (0x104CB, 0x104F3);
    (0x104CC, 0x104F4); (0x104CD, 0x104F5); (0x104CE, 0x104F6); (0x104CF, 0x104F7); (0x104D0, 0x104F8);
    (0x104D1, 0x104F9); (0x104D2, 0x104FA); (0x104D3, 0x104FB); (0x10570, 0x10597); (0x10571, 0x10598);
    (0x10572, 0x10599); (0x10573, 0x1059A); (0x10574, 0x1059B); (0x10575, 0x1059C); (0x10576, 0x1059D);
    (0x10577, 0x1059E); (0x10578, 0x1059F); (0x10579, 0x105A0); (0x1057A, 0x105A1); (0x1057C, 0x105A3);
    (0x1057D, 0x105A4); (0x1057E, 0x105A5); (0x1057F, 0x105A6); (0x10580, 0x105A7); (0x10581, 0x105A8);
    (0x10582, 0x105A9); (0x10583, 0x105AA); (0x10584, 0x105AB); (0x10585, 0x105AC); (0x10586, 0x105AD);
    (0x10587, 0x105AE); (0x10588, 0x105AF); (0x10589, 0x105B0); (0x1058A, 0x105B1); (0x1058C, 0x105B3);
    (0x1058D, 0x105B4); (0x1058E, 0x105B5); (0x1058F, 0x105B6); (0x10590, 0x105B7); (0x10591, 0x105B8);
    (0x10592, 0x105B9); (0x10594, 0x105BB); (0x10595, 0x105BC); (0x10C80, 0x10CC0); (0x10C81, 0x10CC1);
    (0x10C82, 0x10CC2); (0x10C83, 0x10CC3); (0x10C84, 0x10CC4); (0x10C85, 0x10CC5); (0x10C86, 0x10CC6);
    (0x10C87, 0x10CC7); (0x10C88, 0x10CC8); (0x10C89, 0x10CC9); (0x10C8A, 0x10CCA); (0x10C8B, 0x10CCB);
    (0x10C8C, 0x10CCC); (0x10C8D, 0x10CCD); (0x10C8E, 0x10CCE); (0x10C8F, 0x10CCF); (0x10C90, 0x10CD0);
    (0x10C91, 0x10CD1); (0x10C92, 0x10CD2); (0x10C93, 0x10CD3); (0x10C94, 0x10CD4); (0x10C95, 0x10CD5);
    (0x10C96, 0x10CD6); (0x10C97, 0x10CD7); (0x10C98, 0x10CD8); (0x10C99, 0x10CD9); (0x10C9A, 0x10CDA);
    (0x10C9B, 0x10CDB); (0x10C9C, 0x10CDC); (0x10C9D, 0x10CDD); (0x10C9E, 0x10CDE); (0x10C9F, 0x10CDF);
    (0x10CA0, 0x10CE0); (0x10CA1, 0x10CE1); (0x10CA2, 0x10CE2); (0x10CA3, 0x10CE3); (0x10CA4, 0x10CE4);
    (0x10CA5, 0x10CE5); (0x10CA6, 0x10CE6); (0x10CA7, 0x10CE7); (0x10CA8, 0x10CE8); (0x10CA9, 0x10CE9);
    (0x10CAA, 0x10CEA); (0x10CAB, 0x10CEB); (0x10CAC, 0x10CEC); (0x10CAD, 0x10CED); (0x10CAE, 0x10CEE);
    (0x10CAF, 0x10CEF); (0x10CB0, 0x10CF0); (0x10CB1, 0x10CF1); (0x10CB2, 0x10CF2); (0x118A0, 0x118C0);
    (0x118A1, 0x118C1); (0x118A2, 0x118C2); (0x118A3, 0x118C3); (0x118A4, 0x118C4); (0x118A5, 0x118C5);
    (0x118A6, 0x118C6); (0x118A7, 0x118C7); (0x118A8, 0x118C8); (0x118A9, 0x118C9); (0x118AA, 0x118CA);
    (0x118AB, 0x118CB); (0x118AC, 0x118CC); (0x118AD, 0x118CD); (0x118AE, 0x118CE); (0x118AF, 0x118CF);
    (0x118B0, 0x118D0); (0x118B1, 0x118D1); (0x118B2, 0x118D2); (0x118B3, 0x118D3); (0x118B4, 0x118D4);
    (0x118B5, 0x118D5); (0x118B6, 0x118D6); (0x118B7, 0x118D7); (0x118B8, 0x118D8); (0x118B9, 0x118D9);
    (0x118BA, 0x118DA); (0x118BB, 0x118DB); (0x118BC, 0x118DC); (0x118BD, 0x118DD); (0x118BE, 0x118DE);
    (0x118BF, 0x118DF); (0x16E40, 0x16E60); (0x16E41, 0x16E61); (0x16E42, 0x16E62); (0x16E43, 0x16E63);
    (0x16E44, 0x16E64); (0x16E45, 0x16E65); (0x16E46, 0x16E66); (0x16E47, 0x16E67); (0x16E48, 0x16E68);
    (0x16E49, 0x16E69); (0x16E4A, 0x16E6A); (0x16E4B, 0x16E6B); (0x16E4C, 0x16E6C); (0x16E4D, 0x16E6D);
    (0x16E4E, 0x16E6E); (0x16E4F, 0x16E6F); (0x16E50, 0x16E70); (0x16E51, 0x16E71); (0x16E52, 0x16E72);
    (0x16E53, 0x16E73); (0x16E54, 0x16E74); (0x16E55, 0x16E75); (0x16E56, 0x16E76); (0x16E57, 0x16E77);
    (0x16E58, 0x16E78); (0x16E59, 0x16E79); (0x16E5A, 0x16E7A); (0x16E5B, 0x16E7B); (0x16E5C, 0x16E7C);
    (0x16E5D, 0x16E7D); (0x16E5E, 0x16E7E); (0x16E5F, 0x16E7F); (0x1E900, 0x1E922); (0x1E901, 0x1E923);
    (0x1E902, 0x1E924); (0x1E903, 0x1E925); (0x1E904, 0x1E926); (0x1E905, 0x1E927); (0x1E906, 0x1E928);
    (0x1E907, 0x1E929); (0x1E908, 0x1E92A); (0x1E909, 0x1E92B); (0x1E90A, 0x1E92C); (0x1E90B, 0x1E92D);
    (0x1E90C, 0x1E92E); (0x1E90D, 0x1E92F); (0x1E90E, 0x1E930); (0x1E90F, 0x1E931); (0x1E910, 0x1E932);
    (0x1E911, 0x1E933); (0x1E912, 0x1E934); (0x1E913, 0x1E935); (0x1E914, 0x1E936); (0x1E915, 0x1E937);
    (0x1E916, 0x1E938); (0x1E917, 0x1E939); (0x1E918, 0x1E93A); (0x1E919, 0x1E93B); (0x1E91A, 0x1E93C);
    (0x1E91B, 0x1E93D); (0x1E91C, 0x1E93E); (0x1E91D, 0x1E93F); (0x1E91E, 0x1E940); (0x1E91F, 0x1E941);
    (0x1E920, 0x1E942); (0x1E921, 0x1E943)
  ]%N.

(** The code points with the property [Cased], as ranges. *)

Definition cased : list (N * N) :=
  [
    (0x41, 0x5A); (0x61, 0x7A); (0xAA, 0xAA); (0xB5, 0xB5); (0xBA, 0xBA);
    (0xC0, 0xD6); (0xD8, 0xF6); (0xF8, 0x1BA); (0x1BC, 0x1BF); (0x1C4, 0x293);
    (0x295, 0x2B8); (0x2C0, 0x2C1); (0x2E0, 0x2E4); (0x345, 0x345); (0x370, 0x373);
    (0x376, 0x377); (0x37A, 0x37D); (0x37F, 0x37F); (0x386, 0x386); (0x388, 0x38A);
    (0x38C, 0x38C); (0x38E, 0x3A1); (0x3A3, 0x3F5); (0x3F7, 0x481); (0x48A, 0x52F);
    (0x531, 0x556); (0x560, 0x588); (0x10A0, 0x10C5); (0x10C7, 0x10C7); (0x10CD, 0x10CD);
    (0x10D0, 0x10FA); (0x10FD, 0x10FF); (0x13A0, 0x13F5); (0x13F8, 0x13FD); (0x1C80, 0x1C88);
    (0x1C90, 0x1CBA); (0x1CBD, 0x1CBF); (0x1D00, 0x1DBF); (0x1E00, 0x1F15); (0x1F18, 0x1F1D);
    (0x1F20, 0x1F45); (0x1F48, 0x1F4D); (0x1F50, 0x1F57); (0x1F59, 0x1F59); (0x1F5B, 0x1F5B);
    (0x1F5D, 0x1F5D); (0x1F5F, 0x1F7D); (0x1F80, 0x1FB4); (0x1FB6, 0x1FBC); (0x1FBE, 0x1FBE);
    (0x1FC2, 0x1FC4); (0x1FC6, 0x1FCC); (0x1FD0, 0x1FD3); (0x1FD6, 0x1FDB); (0x1FE0, 0x1FEC);
    (0x1FF2, 0x1FF4); (0x1FF6, 0x1FFC); (0x2071, 0x2071); (0x207F, 0x207F); (0x2090, 0x209C);
    (0x2102, 0x2102); (0x2107, 0x2107); (0x210A, 0x2113); (0x2115, 0x2115); (0x2119, 0x211D);
    (0x2124, 0x2124); (0x2126, 0x2126); (0x2128, 0x2128); (0x212A, 0x212D); (0x212F, 0x2134);
    (0x2139, 0x2139); (0x213C, 0x213F); (0x2145, 0x2149); (0x214E, 0x214E); (0x2160, 0x217F);
    (0x2183, 0x2184); (0x24B6, 0x24E9); (0x2C00, 0x2CE4); (0x2CEB, 0x2CEE); (0x2CF2, 0x2CF3);
    (0x2D00, 0x2D25); (0x2D27, 0x2D27); (0x2D2D, 0x2D2D); (0xA640, 0xA66D); (0xA680, 0xA69D);
    (0xA722, 0xA787); (0xA78B, 0xA78E); (0xA790, 0xA7CA); (0xA7D0, 0xA7D1); (0xA7D3, 0xA7D3);
    (0xA7D5, 0xA7D9); (0xA7F5, 0xA7F6); (0xA7F8, 0xA7FA); (0xAB30, 0xAB5A); (0xAB5C, 0xAB68);
    (0xAB70, 0xABBF); (0xFB00, 0xFB06); (0xFB13, 0xFB17); (0xFF21, 0xFF3A); (0xFF41, 0xFF5A);
    (0x10400, 0x1044F); (0x104B0, 0x104D3); (0x104D8, 0x104FB); (0x10570, 0x1057A); (0x1057C, 0x1058A);
    (0x1058C, 0x10592); (0x10594, 0x10595); (0x10597, 0x105A1); (0x105A3, 0x105B1); (0x105B3, 0x105B9);
    (0x105BB, 0x105BC); (0x10780, 0x10780); (0x10783, 0x10785); (0x10787, 0x107B0); (0x107B2, 0x107BA);
    (0x10C80, 0x10CB2); (0x10CC0, 0x10CF2); (0x118A0, 0x118DF); (0x16E40, 0x16E7F); (0x1D400, 0x1D454);
    (0x1D456, 0x1D49C); (0x1D49E, 0x1D49F); (0x1D4A2, 0x1D4A2); (0x1D4A5, 0x1D4A6); (0x1D4A9, 0x1D4AC);
    (0x1D4AE, 0x1D4B9); (0x1D4BB, 0x1D4BB); (0x1D4BD, 0x1D4C3); (0x1D4C5, 0x1D505); (0x1D507, 0x1D50A);
    (0x1D50D, 0x1D514); (0x1D516, 0x1D51C); (0x1D51E, 0x1D539); (0x1D53B, 0x1D53E); (0x1D540, 0x1D544);
    (0x1D546, 0x1D546); (0x1D54A, 0x1D550); (0x1D552, 0x1D6A5); (0x1D6A8, 0x1D6C0); (0x1D6C2, 0x1D6DA);
    (0x1D6DC, 0x1D6FA); (0x1D6FC, 0x1D714); (0x1D716, 0x1D734); (0x1D736, 0x1D74E); (0x1D750, 0x1D76E);
    (0x1D770, 0x1D788); (0x1D78A, 0x1D7A8); (0x1D7AA, 0x1D7C2); (0x1D7C4, 0x1D7CB); (0x1DF00, 0x1DF09);
    (0x1DF0B, 0x1DF1E); (0x1E900, 0x1E943); (0x1F130, 0x1F149); (0x1F150, 0x1F169); (0x1F170, 0x1F189)
  ]%N.

(** The code points with the property [Case_Ignorable], as ranges. *)

Definition case_ignorable : list (N * N) :=
  [
    (0x27, 0x27); (0x2E, 0x2E); (0x3A, 0x3A); (0x5E, 0x5E); (0x60, 0x60);
    (0xA8, 0xA8); (0xAD, 0xAD); (0xAF, 0xAF); (0xB4, 0xB4); (0xB7, 0xB8);
    (0x2B0, 0x36F); (0x374, 0x375); (0x37A, 0x37A); (0x384, 0x385); (0x387, 0x387);
    (0x483, 0x489); (0x559, 0x559); (0x55F, 0x55F); (0x591, 0x5BD); (0x5BF, 0x5BF);
    (0x5C1, 0x5C2); (0x5C4, 0x5C5); (0x5C7, 0x5C7); (0x5F4, 0x5F4); (0x600, 0x605);
    (0x610, 0x61A); (0x61C, 0x61C); (0x640, 0x640); (0x64B, 0x65F); (0x670, 0x670);
    (0x6D6, 0x6DD); (0x6DF, 0x6E8); (0x6EA, 0x6ED); (0x70F, 0x70F); (0x711, 0x711);
    (0x730, 0x74A); (0x7A6, 0x7B0); (0x7EB, 0x7F5); (0x7FA, 0x7FA); (0x7FD, 0x7FD);
    (0x816, 0x82D); (0x859, 0x85B); (0x888, 0x888); (0x890, 0x891); (0x898, 0x89F);
    (0x8C9, 0x902); (0x93A, 0x93A); (0x93C, 0x93C); (0x941, 0x948); (0x94D, 0x94D);
    (0x951, 0x957); (0x962, 0x963); (0x971, 0x971); (0x981, 0x981); (0x9BC, 0x9BC);
    (0x9C1, 0x9C4); (0x9CD, 0x9CD); (0x9E2, 0x9E3); (0x9FE, 0x9FE); (0xA01, 0xA02);
    (0xA3C, 0xA3C); (0xA41, 0xA42); (0xA47, 0xA48); (0xA4B, 0xA4D); (0xA51, 0xA51);
    (0xA70, 0xA71); (0xA75, 0xA75); (0xA81, 0xA82); (0xABC, 0xABC); (0xAC1, 0xAC5);
    (0xAC7, 0xAC8); (0xACD, 0xACD); (0xAE2, 0xAE3); (0xAFA, 0xAFF); (0xB01, 0xB01);
    (0xB3C, 0xB3C); (0xB3F, 0xB3F); (0xB41, 0xB44); (0xB4D, 0xB4D); (0xB55, 0xB56);
    (0xB62, 0xB63); (0xB82, 0xB82); (0xBC0, 0xBC0); (0xBCD, 0xBCD); (0xC00, 0xC00);
    (0xC04, 0xC04); (0xC3C, 0xC3C); (0xC3E, 0xC40); (0xC46, 0xC48); (0xC4A, 0xC4D);
    (0xC55, 0xC56); (0xC62, 0xC63); (0xC81, 0xC81); (0xCBC, 0xCBC); (0xCBF, 0xCBF);
    (0xCC6, 0xCC6); (0xCCC, 0xCCD); (0xCE2, 0xCE3); (0xD00, 0xD01); (0xD3B, 0xD3C);
    (0xD41, 0xD44); (0xD4D, 0xD4D); (0xD62, 0xD63); (0xD81, 0xD81); (0xDCA, 0xDCA);
    (0xDD2, 0xDD4); (0xDD6, 0xDD6); (0xE31, 0xE31); (0xE34, 0xE3A); (0xE46, 0xE4E);
    (0xEB1, 0xEB1); (0xEB4, 0xEBC); (0xEC6, 0xEC6); (0xEC8, 0xECD); (0xF18, 0xF19);
    (0xF35, 0xF35); (0xF37, 0xF37); (0xF39, 0xF39); (0xF71, 0xF7E); (0xF80, 0xF84);
    (0xF86, 0xF87); (0xF8D, 0xF97); (0xF99, 0xFBC); (0xFC6, 0xFC6); (0x102D, 0x1030);
    (0x1032, 0x1037); (0x1039, 0x103A); (0x103D, 0x103E); (0x1058, 0x1059); (0x105E, 0x1060);
    (0x1071, 0x1074); (0x1082, 0x1082); (0x1085, 0x1086); (0x108D, 0x108D); (0x109D, 0x109D);
    (0x10FC, 0x10FC); (0x135D, 0x135F); (0x1712, 0x1714); (0x1732, 0x1733); (0x1752, 0x1753);
    (0x1772, 0x1773); (0x17B4, 0x17B5); (0x17B7, 0x17BD); (0x17C6, 0x17C6); (0x17C9, 0x17D3);
    (0x17D7, 0x17D7); (0x17DD, 0x17DD); (0x180B, 0x180F); (0x1843, 0x1843); (0x1885, 0x1886);
    (0x18A9, 0x18A9); (0x1920, 0x1922); (0x1927, 0x1928); (0x1932, 0x1932); (0x1939, 0x193B);
    (0x1A17, 0x1A18); (0x1A1B, 0x1A1B); (0x1A56, 0x1A56); (0x1A58, 0x1A5E); (0x1A60, 0x1A60);
    (0x1A62, 0x1A62); (0x1A65, 0x1A6C); (0x1A73, 0x1A7C); (0x1A7F, 0x1A7F); (0x1AA7, 0x1AA7);
    (0x1AB0, 0x1ACE); (0x1B00, 0x1B03); (0x1B34, 0x1B34); (0x1B36, 0x1B3A); (0x1B3C, 0x1B3C);
    (0x1B42, 0x1B42); (0x1B6B, 0x1B73); (0x1B80, 0x1B81); (0x1BA2, 0x1BA5); (0x1BA8, 0x1BA9);
    (0x1BAB, 0x1BAD); (0x1BE6, 0x1BE6); (0x1BE8, 0x1BE9); (0x1BED, 0x1BED); (0x1BEF, 0x1BF1);
    (0x1C2C, 0x1C33); (0x1C36, 0x1C37); (0x1C78, 0x1C7D); (0x1CD0, 0x1CD2); (0x1CD4, 0x1CE0);
    (0x1CE2, 0x1CE8); (0x1CED, 0x1CED); (0x1CF4, 0x1CF4); (0x1CF8, 0x1CF9); (0x1D2C, 0x1D6A);
    (0x1D78, 0x1D78); (0x1D9B, 0x1DFF); (0x1FBD, 0x1FBD); (0x1FBF, 0x1FC1); (0x1FCD, 0x1FCF);
    (0x1FDD, 0x1FDF); (0x1FED, 0x1FEF); (0x1FFD, 0x1FFE); (0x200B, 0x200F); (0x2018, 0x2019);
    (0x2024, 0x2024); (0x2027, 0x2027); (0x202A, 0x202E); (0x2060, 0x2064); (0x2066, 0x206F);
    (0x2071, 0x2071); (0x207F, 0x207F); (0x2090, 0x209C); (0x20D0, 0x20F0); (0x2C7C, 0x2C7D);
    (0x2CEF, 0x2CF1); (0x2D6F, 0x2D6F); (0x2D7F, 0x2D7F); (0x2DE0, 0x2DFF); (0x2E2F, 0x2E2F);
    (0x3005, 0x3005); (0x302A, 0x302D); (0x3031, 0x3035); (0x303B, 0x303B); (0x3099, 0x309E);
    (0x30FC, 0x30FE); (0xA015, 0xA015); (0xA4F8, 0xA4FD); (0xA60C, 0xA60C); (0xA66F, 0xA672);
    (0xA674, 0xA67D); (0xA67F, 0xA67F); (0xA69C, 0xA69F); (0xA6F0, 0xA6F1); (0xA700, 0xA721);
    (0xA770, 0xA770); (0xA788, 0xA78A); (0xA7F2, 0xA7F4); (0xA7F8, 0xA7F9); (0xA802, 0xA802);
    (0xA806, 0xA806); (0xA80B, 0xA80B); (0xA825, 0xA826); (0xA82C, 0xA82C); (0xA8C4, 0xA8C5);
    (0xA8E0, 0xA8F1); (0xA8FF, 0xA8FF); (0xA926, 0xA92D); (0xA947, 0xA951); (0xA980, 0xA982);
    (0xA9B3, 0xA9B3); (0xA9B6, 0xA9B9); (0xA9BC, 0xA9BD); (0xA9CF, 0xA9CF); (0xA9E5, 0xA9E6);
    (0xAA29, 0xAA2E); (0xAA31, 0xAA32); (0xAA35, 0xAA36); (0xAA43, 0xAA43); (0xAA4C, 0xAA4C);
    (0xAA70, 0xAA70); (0xAA7C, 0xAA7C); (0xAAB0, 0xAAB0); (0xAAB2, 0xAAB4); (0xAAB7, 0xAAB8);
    (0xAABE, 0xAABF); (0xAAC1, 0xAAC1); (0xAADD, 0xAADD); (0xAAEC, 0xAAED); (0xAAF3, 0xAAF4);
    (0xAAF6, 0xAAF6); (0xAB5B, 0xAB5F); (0xAB69, 0xAB6B); (0xABE5, 0xABE5); (0xABE8, 0xABE8);
    (0xABED, 0xABED); (0xFB1E, 0xFB1E); (0xFBB2, 0xFBC2); (0xFE00, 0xFE0F); (0xFE13, 0xFE13);
    (0xFE20, 0xFE2F); (0xFE52, 0xFE52); (0xFE55, 0xFE55); (0xFEFF, 0xFEFF); (0xFF07, 0xFF07);
    (0xFF0E, 0xFF0E); (0xFF1A, 0xFF1A); (0xFF3E, 0xFF3E); (0xFF40, 0xFF40); (0xFF70, 0xFF70);
    (0xFF9E, 0xFF9F); (0xFFE3, 0xFFE3); (0xFFF9, 0xFFFB); (0x101FD, 0x101FD); (0x102E0, 0x102E0);
    (0x10376, 0x1037A); (0x10780, 0x10785); (0x10787, 0x107B0); (0x107B2, 0x107BA); (0x10A01, 0x10A03);
    (0x10A05, 0x10A06); (0x10A0C, 0x10A0F); (0x10A38, 0x10A3A); (0x10A3F, 0x10A3F); (0x10AE5, 0x10AE6);
    (0x10D24, 0x10D27); (0x10EAB, 0x10EAC); (0x10F46, 0x10F50); (0x10F82, 0x10F85); (0x11001, 0x11001);
    (0x11038, 0x11046); (0x11070, 0x11070); (0x11073, 0x11074); (0x1107F, 0x11081); (0x110B3, 0x110B6);
    (0x110B9, 0x110BA); (0x110BD, 0x110BD); (0x110C2, 0x110C2); (0x110CD, 0x110CD); (0x11100, 0x11102);
    (0x11127, 0x1112B); (0x1112D, 0x11134); (0x11173, 0x11173); (0x11180, 0x11181); (0x111B6, 0x111BE);
    (0x111C9, 0x111CC); (0x111CF, 0x111CF); (0x1122F, 0x11231); (0x11234, 0x11234); (0x11236, 0x11237);
    (0x1123E, 0x1123E); (0x112DF, 0x112DF); (0x112E3, 0x112EA); (0x11300, 0x11301); (0x1133B, 0x1133C);
    (0x11340, 0x11340); (0x11366, 0x1136C); (0x11370, 0x11374); (0x11438, 0x1143F); (0x11442, 0x11444);
    (0x11446, 0x11446); (0x1145E, 0x1145E); (0x114B3, 0x114B8); (0x114BA, 0x114BA); (0x114BF, 0x114C0);
    (0x114C2, 0x114C3); (0x115B2, 0x115B5); (0x115BC, 0x115BD); (0x115BF, 0x115C0); (0x115DC, 0x115DD);
    (0x11633, 0x1163A); (0x1163D, 0x1163D); (0x1163F, 0x11640); (0x116AB, 0x116AB); (0x116AD, 0x116AD);
    (0x116B0, 0x116B5); (0x116B7, 0x116B7); (0x1171D, 0x1171F); (0x11722, 0x11725); (0x11727, 0x1172B);
    (0x1182F, 0x11837); (0x11839, 0x1183A); (0x1193B, 0x1193C); (0x1193E, 0x1193E); (0x11943, 0x11943);
    (0x119D4, 0x119D7); (0x119DA, 0x119DB); (0x119E0, 0x119E0); (0x11A01, 0x11A0A); (0x11A33, 0x11A38);
    (0x11A3B, 0x11A3E); (0x11A47, 0x11A47); (0x11A51, 0x11A56); (0x11A59, 0x11A5B); (0x11A8A, 0x11A96);
    (0x11A98, 0x11A99); (0x11C30, 0x11C36); (0x11C38, 0x11C3D); (0x11C3F, 0x11C3F); (0x11C92, 0x11CA7);
    (0x11CAA, 0x11CB0); (0x11CB2, 0x11CB3); (0x11CB5, 0x11CB6); (0x11D31, 0x11D36); (0x11D3A, 0x11D3A);
    (0x11D3C, 0x11D3D); (0x11D3F, 0x11D45); (0x11D47, 0x11D47); (0x11D90, 0x11D91); (0x11D95, 0x11D95);
    (0x11D97, 0x11D97); (0x11EF3, 0x11EF4); (0x13430, 0x13438); (0x16AF0, 0x16AF4); (0x16B30, 0x16B36);
    (0x16B40, 0x16B43); (0x16F4F, 0x16F4F); (0x16F8F, 0x16F9F); (0x16FE0, 0x16FE1); (0x16FE3, 0x16FE4);
    (0x1AFF0, 0x1AFF3); (0x1AFF5, 0x1AFFB); (0x1AFFD, 0x1AFFE); (0x1BC9D, 0x1BC9E); (0x1BCA0, 0x1BCA3);
    (0x1CF00, 0x1CF2D); (0x1CF30, 0x1CF46); (0x1D167, 0x1D169); (0x1D173, 0x1D182); (0x1D185, 0x1D18B);
    (0x1D1AA, 0x1D1AD); (0x1D242, 0x1D244); (0x1DA00, 0x1DA36); (0x1DA3B, 0x1DA6C); (0x1DA75, 0x1DA75);
    (0x1DA84, 0x1DA84); (0x1DA9B, 0x1DA9F); (0x1DAA1, 0x1DAAF); (0x1E000, 0x1E006); (0x1E008, 0x1E018);
    (0x1E01B, 0x1E021); (0x1E023, 0x1E024); (0x1E026, 0x1E02A); (0x1E130, 0x1E13D); (0x1E2AE, 0x1E2AE);
    (0x1E2EC, 0x1E2EF); (0x1E8D0, 0x1E8D6); (0x1E944, 0x1E94B); (0x1F3FB, 0x1F3FF); (0xE0001, 0xE0001);
    (0xE0020, 0xE007F); (0xE0100, 0xE01EF)
  ]%N.

Definition in_ranges (c : N) (ranges : list (N * N)) : bool :=
  existsb (fun r => ((fst r <=? c) && (c <=? snd r))%N) ranges.

Definition is_cased (c : N) : bool := in_ranges c cased.

Definition is_case_ignorable (c : N) : bool := in_ranges c case_ignorable.

(** The lower-case form of one code point, out of context: the one full
    mapping that gives two code points, U+0130, and the simple mappings. *)
Definition lower_point (c : N) : list N :=
  if (c =? 0x130)%N then [0x69; 0x307]%N
  else
    match find (fun p => (fst p =? c)%N) lower_pairs with
    | Some p => [snd p]
    | None => [c]
    end.

(** [rest] goes on with case-ignorable code points and then a cased one. *)
Fixpoint followed_by_cased (rest : list N) : bool :=
  match rest with
  | [] => false
  | c :: more =>
      if is_case_ignorable c then followed_by_cased more else is_cased c
  end.

(** The default lower-case conversion: every code point gets its lower-case
    form, and U+03A3, capital sigma, becomes the final small sigma U+03C2
    when it comes after a cased letter, case-ignorable code points aside, and
    no cased letter comes after it; [after_cased] tells whether a cased
    letter came before. *)
Fixpoint lower_points (after_cased : bool) (l : list N) : list N :=
  match l with
  | [] => []
  | c :: rest =>
      ((if (c =? 0x3A3)%N then
          if (after_cased && negb (followed_by_cased rest))%bool
          then [0x3C2]%N else [0x3C3]%N
        else lower_point c)
       ++ lower_points (if is_case_ignorable c then after_cased else is_cased c)
            rest)%list
  end.

(** [String.prototype.toLowerCase]. *)
Definition toLowerCase (s : string) : string :=
  match decode s with
  | Some l => encode (lower_points false l)
  | None => s
  end.

Arguments toLowerCase : simpl never.


(** *** Dates *)

(** The instants a [Date] can hold; a [Date] set outside is invalid, and
    [toISOString] throws a [RangeError] on it. *)
Definition valid_date (t : Z) : bool :=
  (-8640000000000000 <=? t) && (t <=? 8640000000000000).

(** The time zone of the runtime: [LocalTime] takes an instant to the local
    wall clock, [UTC] takes a reading of the local wall clock to the
    instant. *)
Record TimeZone : Type := {
  LocalTime : Z -> Z;
  UTC : Z -> Z
}.

(** Template-literal rendering of an integer. *)
Definition show_int (z : Z) : string := NilZero.string_of_int (Z.to_int z).

End Js.

(** ** The record store as the code sees it *)

(** How one awaited store call ends: it resolves with data, it resolves with
    an [error] field set (and did nothing), or the promise rejects (and the
    call did nothing). *)
Inductive outcome : Type :=
| Resolves
| ResolvesWithError
| Rejects.

(** The value carried by a rejected promise is never inspected by the code
    (it is only printed), so one value stands for all of them. *)
Inductive exn : Type := Thrown.

(** [.single()]: the data when exactly one row matches, an error otherwise. *)
Definition single {A} (rows : list A) : option A :=
  match rows with
  | [r] => Some r
  | _ => None
  end.

(** ** The migration: tables and maintenance functions *)

Module Migration.

(** A column declared without [NOT NULL] is an [option]; a comparison with
    [NULL] is not true, so [c = false] holds of [Some false] only. *)
Definition sql_is (c : option bool) (b : bool) : bool :=
  match c with
  | Some v => Bool.eqb v b
  | None => false
  end.

Module SecureDownloadSessions.
Record t : Type := {
  id : string;
  token : string;
  recipient_email : string;
  order_id : option string;
  verification_code : string;
  expires_at : Z;
  max_downloads : option Z;
  download_count : option Z;
  is_verified : option bool;
  is_active : option bool;
  device_fingerprint : option string;
  allowed_ip_addresses : option (list string);
  download_window_start : option Z;
  download_window_end : option Z;
  created_at : option Z;
  updated_at : option Z
}.
(** [SET is_active = false, updated_at = now()] *)
Definition expire (now : Z) (r : t) : t :=
  {| id := id r; token := token r; recipient_email := recipient_email r;
     order_id := order_id r; verification_code := verification_code r;
     expires_at := expires_at r; max_downloads := max_downloads r;
     download_count := download_count r; is_verified := is_verified r;
     is_active := Some false; device_fingerprint := device_fingerprint r;
     allowed_ip_addresses := allowed_ip_addresses r;
     download_window_start := download_window_start r;
     download_window_end := download_window_end r;
     created_at := created_at r; updated_at := Some now |}.
End SecureDownloadSessions.

Module SessionDocuments.
Record t : Type := {
  id : string;
  session_id : option string;
  document_id : option string;
  document_name : string;
  document_url : string;
  document_category : string;
  review_stage : string;
  download_count : option Z;
  created_at : option Z
}.
End SessionDocuments.

Module BlockchainDownloadSessions.
Record t : Type := {
  id : string;
  order_id : option string;
  recipient_email : string;
  blockchain_tx_id : string;
  proof_of_delivery : string;
  document_hashes : list string;
  expires_at : Z;
  is_active : option bool;
  created_at : option Z;
  updated_at : option Z
}.
Definition expire (now : Z) (r : t) : t :=
  {| id := id r; order_id := order_id r; recipient_email := recipient_email r;
     blockchain_tx_id := blockchain_tx_id r;
     proof_of_delivery := proof_of_delivery r;
     document_hashes := document_hashes r; expires_at := expires_at r;
     is_active := Some false; created_at := created_at r;
     updated_at := Some now |}.
End BlockchainDownloadSessions.

Module ProgressiveDownloadSessions.
Record t : Type := {
  id : string;
  token : string;
  recipient_email : string;
  order_id : option string;
  expires_at : Z;
  is_active : option bool;
  created_at : option Z;
  updated_at : option Z
}.
Definition expire (now : Z) (r : t) : t :=
  {| id := id r; token := token r; recipient_email := recipient_email r;
     order_id := order_id r; expires_at := expires_at r;
     is_active := Some false; created_at := created_at r;
     updated_at := Some now |}.
End ProgressiveDownloadSessions.

Module ProgressiveUnlocks.
Record t : Type := {
  id : string;
  session_id : option string;
  review_stage : string;
  unlock_time : Z;
  documents : string;
  is_unlocked : option bool;
  unlocked_at : option Z;
  created_at : option Z
}.
(** [SET is_unlocked = true, unlocked_at = now()] *)
Definition unlock (now : Z) (u : t) : t :=
  {| id := id u; session_id := session_id u; review_stage := review_stage u;
     unlock_time := unlock_time u; documents := documents u;
     is_unlocked := Some true; unlocked_at := Some now;
     created_at := created_at u |}.
End ProgressiveUnlocks.

Module CustomerPortals.
Record t : Type := {
  id : string;
  access_token : string;
  customer_email : string;
  customer_name : string;
  order_id : option string;
  temporary_password : string;
  password_changed : option bool;
  expires_at : Z;
  last_login : option Z;
  is_active : option bool;
  created_at : option Z;
  updated_at : option Z
}.
Definition expire (now : Z) (r : t) : t :=
  {| id := id r; access_token := access_token r;
     customer_email := customer_email r; customer_name := customer_name r;
     order_id := order_id r; temporary_password := temporary_password r;
     password_changed := password_changed r; expires_at := expires_at r;
     last_login := last_login r; is_active := Some false;
     created_at := created_at r; updated_at := Some now |}.
End CustomerPortals.

Module QrDownloadSessions.
Record t : Type := {
  id : string;
  verification_token : string;
  recipient_email : string;
  order_id : option string;
  documents : string;
  expires_at : Z;
  is_active : option bool;
  is_scanned : option bool;
  scanned_at : option Z;
  device_info : option string;
  created_at : option Z
}.
(** [SET is_active = false]: this table has no [updated_at]. *)
Definition expire (r : t) : t :=
  {| id := id r; verification_token := verification_token r;
     recipient_email := recipient_email r; order_id := order_id r;
     documents := documents r; expires_at := expires_at r;
     is_active := Some false; is_scanned := is_scanned r;
     scanned_at := scanned_at r; device_info := device_info r;
     created_at := created_at r |}.
End QrDownloadSessions.

(** The tables the two functions touch. *)
Record Database : Type := {
  secure_download_sessions : list SecureDownloadSessions.t;
  blockchain_download_sessions : list BlockchainDownloadSessions.t;
  progressive_download_sessions : list ProgressiveDownloadSessions.t;
  progressive_unlocks : list ProgressiveUnlocks.t;
  customer_portals : list CustomerPortals.t;
  qr_download_sessions : list QrDownloadSessions.t
}.

(** [UPDATE tbl SET ... WHERE cond]: every row satisfying [cond] is replaced,
    the others stay. *)
Definition update_where {A} (cond : A -> bool) (set : A -> A) (rows : list A)
  : list A :=
  map (fun r => if cond r then set r else r) rows.

(** [WHERE unlock_time <= now() AND is_unlocked = false] *)
Definition due (now : Z) (u : ProgressiveUnlocks.t) : bool :=
  (ProgressiveUnlocks.unlock_time u <=? now)
  && sql_is (ProgressiveUnlocks.is_unlocked u) false.

(** [unlock_progressive_stages()]; [now] is the transaction's [now()]. *)
Definition unlock_progressive_stages (now : Z) (db : Database) : Database :=
  {| secure_download_sessions := secure_download_sessions db;
     blockchain_download_sessions := blockchain_download_sessions db;
     progressive_download_sessions := progressive_download_sessions db;
     progressive_unlocks :=
       update_where (due now) (ProgressiveUnlocks.unlock now)
                    (progressive_unlocks db);
     customer_portals := customer_portals db;
     qr_download_sessions := qr_download_sessions db |}.

(** [WHERE expires_at < now() AND is_active = true] *)
Definition stale (now expires : Z) (active : option bool) : bool :=
  (expires <? now) && sql_is active true.

(** [cleanup_expired_sessions()] *)
Definition cleanup_expired_sessions (now : Z) (db : Database) : Database :=
  {| secure_download_sessions :=
       update_where
         (fun r => stale now (SecureDownloadSessions.expires_at r)
                     (SecureDownloadSessions.is_active r))
         (SecureDownloadSessions.expire now) (secure_download_sessions db);
     blockchain_download_sessions :=
       update_where
         (fun r => stale now (BlockchainDownloadSessions.expires_at r)
                     (BlockchainDownloadSessions.is_active r))
         (BlockchainDownloadSessions.expire now) (blockchain_download_sessions db);
     progressive_download_sessions :=
       update_where
         (fun r => stale now (ProgressiveDownloadSessions.expires_at r)
                     (ProgressiveDownloadSessions.is_active r))
         (ProgressiveDownloadSessions.expire now) (progressive_download_sessions db);
     progressive_unlocks := progressive_unlocks db;
     customer_portals :=
       update_where
         (fun r => stale now (CustomerPortals.expires_at r)
                     (CustomerPortals.is_active r))
         (CustomerPortals.expire now) (customer_portals db);
     qr_download_sessions :=
       update_where
         (fun r => stale now (QrDownloadSessions.expires_at r)
                     (QrDownloadSessions.is_active r))
         QrDownloadSessions.expire (qr_download_sessions db) |}.

(** A run of the scheduler: one of the two functions, with the [now()] of
    its transaction. *)
Inductive job : Type :=
| UnlockStages (now : Z)
| CleanupSessions (now : Z).

Definition run_job (j : job) (db : Database) : Database :=
  match j with
  | UnlockStages now => unlock_progressive_stages now db
  | CleanupSessions now => cleanup_expired_sessions now db
  end.

Definition run_jobs (jobs : list job) (db : Database) : Database :=
  fold_left (fun acc j => run_job j acc) jobs db.

End Migration.

Module SecureDownloads.

(** [interface SecureDownloadToken] *)
Record SecureDownloadToken : Type := {
  id : string;
  token : string;
  document_id : string;
  recipient_email : string;
  order_id : string;
  expires_at : Z;
  max_downloads : Z;
  download_count : Z;
  is_active : bool;
  created_at : Z;
  updated_at : Z
}.

(** [interface DownloadAttempt]; [id] is assigned by the store and plays no
    role here. *)
Record DownloadAttempt : Type := {
  token_id : option string;
  attempted_email : string;
  ip_address : option string;
  user_agent : option string;
  success : bool;
  failure_reason : option string;
  attempted_at : Z
}.

(** The two tables [secure_download_tokens] and [download_attempts]. *)
Record Store : Type := {
  secure_download_tokens : list SecureDownloadToken;
  download_attempts : list DownloadAttempt
}.

(** *** A state and exception monad for [async] code with [try]/[catch] *)

Definition M (A : Type) : Type := Store -> (A + exn) * Store.

Definition ret {A} (a : A) : M A := fun s => (inl a, s).

(** A [throw]: the promise of the function rejects unless a [catch] takes
    it. *)
Definition throw {A} : M A := fun s => (inr Thrown, s).

Definition bind {A B} (m : M A) (k : A -> M B) : M B :=
  fun s =>
    match m s with
    | (inl a, s') => k a s'
    | (inr e, s') => (inr e, s')
    end.

Definition try_catch {A} (body : M A) (handler : M A) : M A :=
  fun s =>
    match body s with
    | (inl a, s') => (inl a, s')
    | (inr _, s') => handler s'
    end.

Declare Scope async_scope.
Delimit Scope async_scope with async.
Notation "x <- m ;; k" := (bind m (fun x => k))
  (at level 100, m at next level, right associativity) : async_scope.
Notation "m ;;; k" := (bind m (fun _ => k))
  (at level 100, right associativity) : async_scope.
Open Scope async_scope.

(** *** Store calls made by the module *)

(** [.from('secure_download_tokens').select(..).eq('token', t)
      .eq('is_active', true)] *)
Definition active_with_token (t : string) (r : SecureDownloadToken) : bool :=
  (String.eqb (token r) t && Bool.eqb (is_active r) true)%bool.

(** The awaited select of [verifyDownloadToken]; [None] stands for
    [tokenError || !tokenData]. *)
Definition select_active_token (o : outcome) (t : string)
  : M (option SecureDownloadToken) :=
  fun s =>
    match o with
    | Resolves =>
        (inl (single (filter (active_with_token t) (secure_download_tokens s))), s)
    | ResolvesWithError => (inl None, s)
    | Rejects => (inr Thrown, s)
    end.

(** [.from('download_attempts').insert(entry)] *)
Definition insert_attempt (o : outcome) (entry : DownloadAttempt) : M unit :=
  fun s =>
    match o with
    | Resolves =>
        (inl tt, {| secure_download_tokens := secure_download_tokens s;
                    download_attempts := download_attempts s ++ [entry] |})
    | ResolvesWithError => (inl tt, s)
    | Rejects => (inr Thrown, s)
    end.

(** [.update(patch).eq('id', i)] on one table. *)
Definition update_where_id (i : string)
    (patch : SecureDownloadToken -> SecureDownloadToken)
    (rows : list SecureDownloadToken) : list SecureDownloadToken :=
  map (fun r => if String.eqb (id r) i then patch r else r) rows.

(** [.from('secure_download_tokens').update(patch).eq('id', i)]; the code
    never looks at the returned [error]. *)
Definition update_token (o : outcome) (i : string)
    (patch : SecureDownloadToken -> SecureDownloadToken) : M unit :=
  fun s =>
    match o with
    | Resolves =>
        (inl tt, {| secure_download_tokens :=
                      update_where_id i patch (secure_download_tokens s);
                    download_attempts := download_attempts s |})
    | ResolvesWithError => (inl tt, s)
    | Rejects => (inr Thrown, s)
    end.

(** [{ is_active: false, updated_at: ... }] *)
Definition set_inactive (now : Z) (r : SecureDownloadToken) : SecureDownloadToken :=
  {| id := id r; token := token r; document_id := document_id r;
     recipient_email := recipient_email r; order_id := order_id r;
     expires_at := expires_at r; max_downloads := max_downloads r;
     download_count := download_count r; is_active := false;
     created_at := created_at r; updated_at := now |}.

(** [{ download_count: n, updated_at: ... }] *)
Definition set_download_count (n now : Z) (r : SecureDownloadToken)
  : SecureDownloadToken :=
  {| id := id r; token := token r; document_id := document_id r;
     recipient_email := recipient_email r; order_id := order_id r;
     expires_at := expires_at r; max_downloads := max_downloads r;
     download_count := n; is_active := is_active r;
     created_at := created_at r; updated_at := now |}.

(** *** [logDownloadAttempt] *)

(** The object handed to [insert]. *)
Definition attempt_row (now : Z)
    (tokenId : option string) (attemptedEmail : string) (success_ : bool)
    (failureReason : option string) (ipAddress userAgent : option string)
  : DownloadAttempt :=
  {| token_id := tokenId;
     attempted_email := Js.toLowerCase attemptedEmail;
     ip_address := ipAddress;
     user_agent := userAgent;
     success := success_;
     failure_reason := failureReason;
     attempted_at := now |}.

Definition logDownloadAttempt (o : outcome) (now : Z)
    (tokenId : option string) (attemptedEmail : string) (success_ : bool)
    (failureReason : option string) (ipAddress userAgent : option string)
  : M unit :=
  try_catch
    (insert_attempt o
       (attempt_row now tokenId attemptedEmail success_ failureReason
          ipAddress userAgent))
    (ret tt).

(** *** [verifyDownloadToken] *)

(** The returned object.  [document] is the joined [project_documents] row,
    represented by its key. *)
Record VerifyResult : Type := {
  valid : bool;
  document : option string;
  reason : option string;
  tokenData : option SecureDownloadToken
}.

Definition deny (why : string) : VerifyResult :=
  {| valid := false; document := None; reason := Some why; tokenData := None |}.

(** The outcomes of the store calls one [verifyDownloadToken] call makes:
    the select, the audit insert of the branch taken, the update of the branch
    taken, and the audit insert of the [catch] block. *)
Record Faults : Type := {
  on_select : outcome;
  on_log : outcome;
  on_update : outcome;
  on_catch_log : outcome
}.

Definition reliable : Faults :=
  {| on_select := Resolves; on_log := Resolves;
     on_update := Resolves; on_catch_log := Resolves |}.

(** [now] is the clock of the call: the [new Date()] of the expiry check and
    of the timestamps written. *)
Definition verifyDownloadToken (env : Faults) (now : Z)
    (token_ attemptedEmail : string) (ipAddress userAgent : option string)
  : M VerifyResult :=
  try_catch
    (tokenData_ <- select_active_token (on_select env) token_ ;;
     match tokenData_ with
     | None =>
         logDownloadAttempt (on_log env) now None attemptedEmail false
           (Some "Invalid or expired token") ipAddress userAgent ;;;
         ret (deny "Invalid or expired token")
     | Some td =>
         if now >? expires_at td then
           logDownloadAttempt (on_log env) now (Some (id td)) attemptedEmail false
             (Some "Token expired") ipAddress userAgent ;;;
           update_token (on_update env) (id td) (set_inactive now) ;;;
           ret (deny "Download link has expired")
         else if negb (String.eqb (Js.toLowerCase (recipient_email td))
                                  (Js.toLowerCase attemptedEmail)) then
           logDownloadAttempt (on_log env) now (Some (id td)) attemptedEmail false
             (Some "Email mismatch") ipAddress userAgent ;;;
           ret (deny "This download link is not authorized for your email address")
         else if download_count td >=? max_downloads td then
           logDownloadAttempt (on_log env) now (Some (id td)) attemptedEmail false
             (Some "Download limit exceeded") ipAddress userAgent ;;;
           ret (deny "Download limit exceeded for this link")
         else
           logDownloadAttempt (on_log env) now (Some (id td)) attemptedEmail true
             None ipAddress userAgent ;;;
           update_token (on_update env) (id td)
             (set_download_count (download_count td + 1) now) ;;;
           ret {| valid := true; document := Some (document_id td);
                  reason := None; tokenData := Some td |}
     end)
    (logDownloadAttempt (on_catch_log env) now None attemptedEmail false
       (Some "System error") ipAddress userAgent ;;;
     ret (deny "System error occurred")).

(** *** [revokeDownloadToken] *)

Definition revokeDownloadToken (o : outcome) (now : Z) (tokenId : string) : M bool :=
  try_catch
    (fun s =>
       match o with
       | Resolves =>
           (inl true,
            {| secure_download_tokens :=
                 update_where_id tokenId (set_inactive now) (secure_download_tokens s);
               download_attempts := download_attempts s |})
       | ResolvesWithError => (inl false, s)
       | Rejects => (inr Thrown, s)
       end)
    (ret false).

(** *** [generateSecureDownloadTokens] *)

(** [interface SecureDownloadConfig], and [Partial<SecureDownloadConfig>]. *)
Record SecureDownloadConfig : Type := {
  expirationHours : Z;
  maxDownloads : Z;
  requireEmailVerification : bool
}.

Record PartialConfig : Type := {
  expirationHours_opt : option Z;
  maxDownloads_opt : option Z;
  requireEmailVerification_opt : option bool
}.

Definition DEFAULT_CONFIG : SecureDownloadConfig :=
  {| expirationHours := 72; maxDownloads := 5; requireEmailVerification := true |}.

Definition or_default {A} (o : option A) (d : A) : A :=
  match o with Some a => a | None => d end.

(** [{ ...DEFAULT_CONFIG, ...config }] *)
Definition finalConfig (config : PartialConfig) : SecureDownloadConfig :=
  {| expirationHours := or_default (expirationHours_opt config) (expirationHours DEFAULT_CONFIG);
     maxDownloads := or_default (maxDownloads_opt config) (maxDownloads DEFAULT_CONFIG);
     requireEmailVerification :=
       or_default (requireEmailVerification_opt config)
                  (requireEmailVerification DEFAULT_CONFIG) |}.

(** One element of the [documents] argument. *)
Record Document : Type := {
  doc_id : string;
  doc_name : string;
  doc_url : string
}.

(** One element of the returned array. *)
Record SecureUrl : Type := {
  documentId : string;
  documentName : string;
  secureUrl : string;
  expiresAt : Z
}.

(** What [supabase.rpc('generate_secure_token')] answers. *)
Inductive rpc_reply : Type :=
| RpcData (t : string)
| RpcError
| RpcRejects.

(** The environment of one loop iteration: the answer of the token
    generator, the key the store assigns to the inserted row
    ([gen_random_uuid()]), and how the insert call ends when no constraint
    stands in its way. *)
Record Draw : Type := {
  rpc : rpc_reply;
  new_id : string;
  on_insert : outcome
}.

Definition rpc_generate_secure_token (r : rpc_reply) : M (option string) :=
  fun s =>
    match r with
    | RpcData t => (inl (Some t), s)
    | RpcError => (inl None, s)
    | RpcRejects => (inr Thrown, s)
    end.

Definition token_taken (t : string) (rows : list SecureDownloadToken) : bool :=
  existsb (fun r => String.eqb (token r) t) rows.

Definition id_taken (i : string) (rows : list SecureDownloadToken) : bool :=
  existsb (fun r => String.eqb (id r) i) rows.

(** Modelled from the spec: the declaration of the table
    [secure_download_tokens] is not among the sources; the spec gives it a
    synthetic key and a unique index on its token field ("unique across all
    active and inactive records"), so an insert whose token or key is
    already present resolves with an error and stores nothing.
    [.insert(row).select().single()]: [true] when the row was stored. *)
Definition insert_token (o : outcome) (row : SecureDownloadToken) : M bool :=
  fun s =>
    match o with
    | Resolves =>
        if (token_taken (token row) (secure_download_tokens s)
            || id_taken (id row) (secure_download_tokens s))%bool
        then (inl false, s)
        else (inl true,
              {| secure_download_tokens := secure_download_tokens s ++ [row];
                 download_attempts := download_attempts s |})
    | ResolvesWithError => (inl false, s)
    | Rejects => (inr Thrown, s)
    end.

Section Generate.

(** [window.location.origin], [encodeURIComponent] and the time zone belong
    to the browser. *)
Variable baseUrl : string.
Variable encodeURIComponent : string -> string.
Variable zone : Js.TimeZone.

(** [expiresAt.setHours(expiresAt.getHours() + h)]: the hours are added on
    the local wall clock. *)
Definition add_hours (now h : Z) : Z :=
  Js.UTC zone (Js.LocalTime zone now + h * 3600000).

(** The body of the [for] loop: [Some] what it pushes on [secureUrls],
    [None] when it takes a [continue] or lands in its [catch].  When
    [expiresAt] is not a valid date, [expiresAt.toISOString()] throws while
    the row to insert is put together. *)
Definition generate_one (d : Draw) (now : Z) (cfg : SecureDownloadConfig)
    (recipientEmail orderId : string) (document_ : Document)
  : M (option SecureUrl) :=
  let expiresAt_ := add_hours now (expirationHours cfg) in
  try_catch
    (tokenData_ <- rpc_generate_secure_token (rpc d) ;;
     match tokenData_ with
     | None => ret None
     | Some token_ =>
         if Js.valid_date expiresAt_ then
           (stored <- insert_token (on_insert d)
              {| id := new_id d; token := token_;
                 document_id := doc_id document_;
                 recipient_email := Js.toLowerCase recipientEmail;
                 order_id := orderId;
                 expires_at := expiresAt_;
                 max_downloads := maxDownloads cfg;
                 download_count := 0;
                 is_active := true;
                 created_at := now; updated_at := now |} ;;
            if stored then
              ret (Some {| documentId := doc_id document_;
                           documentName := doc_name document_;
                           secureUrl := baseUrl ++ "/secure-download/" ++ token_
                                        ++ "?email=" ++ encodeURIComponent recipientEmail;
                           expiresAt := expiresAt_ |})
            else ret None)
         else throw
     end)
    (ret None).

(** The loop over [documents].  [oracle n] is the environment of the [n]-th
    call of the token generator; the second component of the result counts
    the calls made so far. *)
Fixpoint generate_loop (oracle : nat -> Draw) (n : nat) (now : Z)
    (cfg : SecureDownloadConfig) (recipientEmail orderId : string)
    (documents : list Document) : M (list SecureUrl * nat) :=
  match documents with
  | [] => ret ([], n)
  | document_ :: rest =>
      pushed <- generate_one (oracle n) now cfg recipientEmail orderId document_ ;;
      more <- generate_loop oracle (S n) now cfg recipientEmail orderId rest ;;
      ret (match pushed with
           | Some u => u :: fst more
           | None => fst more
           end, snd more)
  end.

Definition generateSecureDownloadTokens (oracle : nat -> Draw) (now : Z)
    (documents : list Document) (recipientEmail orderId : string)
    (config : PartialConfig) : M (list SecureUrl * nat) :=
  generate_loop oracle 0 now (finalConfig config) recipientEmail orderId documents.

End Generate.

(** *** [cleanupExpiredTokens] *)

(** Modelled from the spec: the stored procedure [cleanup_expired_tokens]
    called by [cleanupExpiredTokens] is not among the sources; the spec's
    [expireStaleGrants] sets [isActive=false] where
    [expiresAt < now AND isActive = true], as [cleanup_expired_sessions]
    does for the session tables. *)
Definition cleanup_expired_tokens (now : Z) (rows : list SecureDownloadToken)
  : list SecureDownloadToken :=
  map (fun r => if (expires_at r <? now) && Bool.eqb (is_active r) true
                then set_inactive now r else r) rows.

End SecureDownloads.

(** ** The multi-factor page *)

(** The handlers are embedded as written.  The row-level policies of the
    migration decide which rows a role can see or update at all; they stand
    between the page and the tables and are not part of the handlers. *)

Module VerifyDownloadPage.

Import Migration.

Abbreviation Session := SecureDownloadSessions.t.
Abbreviation SessionDocument := SessionDocuments.t.

(** The two tables the page talks to. *)
Record Tables : Type := {
  secure_download_sessions : list Session;
  session_documents : list SessionDocument
}.

(** The component's [useState] cells that the handlers read or write. *)
Record Page : Type := {
  step : Z;
  email : string;
  verificationCode : string;
  isVerifying : bool;
  sessionData : option Session;
  documents : list SessionDocument;
  error : option string;
  deviceFingerprint : string
}.

Definition setError (e : option string) (p : Page) : Page :=
  {| step := step p; email := email p; verificationCode := verificationCode p;
     isVerifying := isVerifying p; sessionData := sessionData p;
     documents := documents p; error := e;
     deviceFingerprint := deviceFingerprint p |}.

Definition setSessionData (d : Session) (p : Page) : Page :=
  {| step := step p; email := email p; verificationCode := verificationCode p;
     isVerifying := isVerifying p; sessionData := Some d;
     documents := documents p; error := error p;
     deviceFingerprint := deviceFingerprint p |}.

Definition setDocuments (ds : list SessionDocument) (p : Page) : Page :=
  {| step := step p; email := email p; verificationCode := verificationCode p;
     isVerifying := isVerifying p; sessionData := sessionData p;
     documents := ds; error := error p;
     deviceFingerprint := deviceFingerprint p |}.

Definition setStep (n : Z) (p : Page) : Page :=
  {| step := n; email := email p; verificationCode := verificationCode p;
     isVerifying := isVerifying p; sessionData := sessionData p;
     documents := documents p; error := error p;
     deviceFingerprint := deviceFingerprint p |}.

Definition setEmail (e : string) (p : Page) : Page :=
  {| step := step p; email := e; verificationCode := verificationCode p;
     isVerifying := isVerifying p; sessionData := sessionData p;
     documents := documents p; error := error p;
     deviceFingerprint := deviceFingerprint p |}.

Definition setIsVerifying (b : bool) (p : Page) : Page :=
  {| step := step p; email := email p; verificationCode := verificationCode p;
     isVerifying := b; sessionData := sessionData p;
     documents := documents p; error := error p;
     deviceFingerprint := deviceFingerprint p |}.

(** The state right after mounting. *)
Definition initial (fingerprint : string) : Page :=
  {| step := 1; email := EmptyString; verificationCode := EmptyString; isVerifying := false;
     sessionData := None; documents := []; error := None;
     deviceFingerprint := fingerprint |}.

(** JavaScript turns [null] into [0] in [<], [>], [>=] and [+]. *)
Definition js_num (o : option Z) : Z :=
  match o with Some z => z | None => 0 end.

(** [${x}] for a nullable integer. *)
Definition show_nullable (o : option Z) : string :=
  match o with Some z => Js.show_int z | None => "null" end.

(** [.eq('token', token).eq('is_active', true)] *)
Definition active_session_with_token (t : string) (r : Session) : bool :=
  String.eqb (SecureDownloadSessions.token r) t
  && sql_is (SecureDownloadSessions.is_active r) true.

Definition outside_window (currentHour : Z) (session : Session) : bool :=
  (currentHour <? js_num (SecureDownloadSessions.download_window_start session))
  || (currentHour >? js_num (SecureDownloadSessions.download_window_end session)).

Definition window_message (session : Session) : string :=
  "Downloads are only allowed between "
  ++ show_nullable (SecureDownloadSessions.download_window_start session)
  ++ ":00 and "
  ++ show_nullable (SecureDownloadSessions.download_window_end session)
  ++ ":00".

(** [checkSession]; [o_session] and [o_docs] are the outcomes of its two
    selects, [now] and [currentHour] its two clock readings. *)
Definition checkSession (o_session o_docs : outcome) (now currentHour : Z)
    (token : string) (db : Tables) (p : Page) : Page :=
  match o_session with
  | Rejects => setError (Some "Failed to verify session") p
  | _ =>
      let session_ :=
        match o_session with
        | Resolves =>
            single (filter (active_session_with_token token) (secure_download_sessions db))
        | _ => None
        end in
      match session_ with
      | None => setError (Some "Invalid or expired session token") p
      | Some session =>
          if SecureDownloadSessions.expires_at session <? now then
            setError (Some "This download session has expired") p
          else if outside_window currentHour session then
            setError (Some (window_message session)) p
          else
            let p1 := setSessionData session p in
            match o_docs with
            | Resolves =>
                setDocuments
                  (filter
                     (fun d =>
                        match SessionDocuments.session_id d with
                        | Some i => String.eqb i (SecureDownloadSessions.id session)
                        | None => false
                        end)
                     (session_documents db)) p1
            | ResolvesWithError => p1
            | Rejects => setError (Some "Failed to verify session") p1
            end
      end
  end.

(** [handleEmailVerification] *)
Definition handleEmailVerification (p : Page) : Page :=
  match sessionData p with
  | None => p
  | Some session =>
      if String.eqb (email p) EmptyString then p
      else if negb (String.eqb (Js.toLowerCase (email p))
                      (Js.toLowerCase (SecureDownloadSessions.recipient_email session)))
      then setError (Some "Email address does not match the authorized recipient") p
      else setError None (setStep 2 p)
  end.

(** What the component renders: the "Access Denied" card as soon as [error]
    is set, the card of the current step otherwise. *)
Inductive View : Type :=
| AccessDenied (message : string)
| StepCard (n : Z).

Definition render (p : Page) : View :=
  match error p with
  | Some e => AccessDenied e
  | None => StepCard (step p)
  end.

(** A visit up to the first step: the page mounts and runs [checkSession];
    if the card of step 1 is on screen the visitor types [typed] and presses
    "Verify Email".  The denial the visitor reads, if any, is the [error] of
    the resulting state. *)
Definition visit (o_session o_docs : outcome) (now currentHour : Z)
    (token typed fingerprint : string) (db : Tables) : Page :=
  let mounted :=
    checkSession o_session o_docs now currentHour token db (initial fingerprint) in
  match render mounted with
  | AccessDenied _ => mounted
  | StepCard _ => handleEmailVerification (setEmail typed mounted)
  end.

(** [disabled={sessionData?.download_count >= sessionData?.max_downloads}] *)
Definition download_disabled (p : Page) : bool :=
  match sessionData p with
  | Some session =>
      js_num (SecureDownloadSessions.download_count session)
      >=? js_num (SecureDownloadSessions.max_downloads session)
  | None => false
  end.

Definition set_session_count (n now : Z) (r : Session) : Session :=
  {| SecureDownloadSessions.id := SecureDownloadSessions.id r;
     SecureDownloadSessions.token := SecureDownloadSessions.token r;
     SecureDownloadSessions.recipient_email := SecureDownloadSessions.recipient_email r;
     SecureDownloadSessions.order_id := SecureDownloadSessions.order_id r;
     SecureDownloadSessions.verification_code := SecureDownloadSessions.verification_code r;
     SecureDownloadSessions.expires_at := SecureDownloadSessions.expires_at r;
     SecureDownloadSessions.max_downloads := SecureDownloadSessions.max_downloads r;
     SecureDownloadSessions.download_count := Some n;
     SecureDownloadSessions.is_verified := SecureDownloadSessions.is_verified r;
     SecureDownloadSessions.is_active := SecureDownloadSessions.is_active r;
     SecureDownloadSessions.device_fingerprint := SecureDownloadSessions.device_fingerprint r;
     SecureDownloadSessions.allowed_ip_addresses := SecureDownloadSessions.allowed_ip_addresses r;
     SecureDownloadSessions.download_window_start := SecureDownloadSessions.download_window_start r;
     SecureDownloadSessions.download_window_end := SecureDownloadSessions.download_window_end r;
     SecureDownloadSessions.created_at := SecureDownloadSessions.created_at r;
     SecureDownloadSessions.updated_at := Some now |}.

Definition set_document_count (n : Z) (d : SessionDocument) : SessionDocument :=
  {| SessionDocuments.id := SessionDocuments.id d;
     SessionDocuments.session_id := SessionDocuments.session_id d;
     SessionDocuments.document_id := SessionDocuments.document_id d;
     SessionDocuments.document_name := SessionDocuments.document_name d;
     SessionDocuments.document_url := SessionDocuments.document_url d;
     SessionDocuments.document_category := SessionDocuments.document_category d;
     SessionDocuments.review_stage := SessionDocuments.review_stage d;
     SessionDocuments.download_count := Some n;
     SessionDocuments.created_at := SessionDocuments.created_at d |}.

(** [documents.find(d => d.id === documentId)?.download_count + 1 || 1] *)
Definition next_document_count (docs : list SessionDocument) (documentId : string) : Z :=
  match find (fun d => String.eqb (SessionDocuments.id d) documentId) docs with
  | Some d =>
      let n := js_num (SessionDocuments.download_count d) + 1 in
      if n =? 0 then 1 else n
  | None => 1
  end.

(** The outcomes of the store calls of one [handleDownload]: its two updates
    and the two selects of the [checkSession] it ends with. *)
Record DownloadFaults : Type := {
  on_document_update : outcome;
  on_session_update : outcome;
  on_refresh_session : outcome;
  on_refresh_docs : outcome
}.

(** [handleDownload].  Both counters are computed from the page's own copy of
    the rows and written by key. *)
Definition handleDownload (env : DownloadFaults) (now currentHour : Z)
    (token documentId : string) (db : Tables) (p : Page) : Page * Tables :=
  let failed (db' : Tables) :=
    (setError (Some "Failed to download document") p, db') in
  match on_document_update env with
  | Rejects => failed db
  | o1 =>
      let db1 :=
        match o1 with
        | Resolves =>
            {| secure_download_sessions := secure_download_sessions db;
               session_documents :=
                 update_where
                   (fun d => String.eqb (SessionDocuments.id d) documentId)
                   (set_document_count (next_document_count (documents p) documentId))
                   (session_documents db) |}
        | _ => db
        end in
      match sessionData p with
      | None => failed db1
      | Some session =>
          match on_session_update env with
          | Rejects => failed db1
          | o2 =>
              let db2 :=
                match o2 with
                | Resolves =>
                    {| secure_download_sessions :=
                         update_where
                           (fun r => String.eqb (SecureDownloadSessions.id r)
                                       (SecureDownloadSessions.id session))
                           (set_session_count
                              (js_num (SecureDownloadSessions.download_count session) + 1)
                              now)
                           (secure_download_sessions db1);
                       session_documents := session_documents db1 |}
                | _ => db1
                end in
              (checkSession (on_refresh_session env) (on_refresh_docs env)
                 now currentHour token db2 p, db2)
          end
      end
  end.

End VerifyDownloadPage.

(** ** Verify calls suspended at their [await]s *)

Module Interleaving.

Import SecureDownloads.

(** The two objects [verifyDownloadToken] passes to [update]. *)
Inductive patch : Type :=
| Deactivate (now : Z)
| SetCount (n now : Z).

Definition apply_patch (p : patch) : SecureDownloadToken -> SecureDownloadToken :=
  match p with
  | Deactivate now => set_inactive now
  | SetCount n now => set_download_count n now
  end.

(** The arguments and the clock of one call. *)
Record Call : Type := {
  c_now : Z;
  c_token : string;
  c_email : string;
  c_ip : option string;
  c_ua : option string
}.

(** A call between two store requests.  Each constructor is one [await] of
    [verifyDownloadToken]: the select, the audit insert of the branch taken,
    the update of the branch taken, the audit insert of the [catch] block.
    What the call has read so far lives in the constructor's arguments, as it
    lives in the local [tokenData]. *)
Inductive thread : Type :=
| AtSelect (c : Call)
| AtLog (entry : DownloadAttempt) (next : thread)
| AtUpdate (c : Call) (i : string) (p : patch) (r : VerifyResult)
| AtCatch (c : Call)
| Returned (r : VerifyResult).

(** The code between the select and the next [await]. *)
Definition after_select (c : Call) (tokenData_ : option SecureDownloadToken) : thread :=
  let log := attempt_row (c_now c) in
  match tokenData_ with
  | None =>
      AtLog (log None (c_email c) false (Some "Invalid or expired token")
               (c_ip c) (c_ua c))
            (Returned (deny "Invalid or expired token"))
  | Some td =>
      if c_now c >? expires_at td then
        AtLog (log (Some (id td)) (c_email c) false (Some "Token expired")
                 (c_ip c) (c_ua c))
              (AtUpdate c (id td) (Deactivate (c_now c))
                 (deny "Download link has expired"))
      else if negb (String.eqb (Js.toLowerCase (recipient_email td))
                               (Js.toLowerCase (c_email c))) then
        AtLog (log (Some (id td)) (c_email c) false (Some "Email mismatch")
                 (c_ip c) (c_ua c))
              (Returned
                 (deny "This download link is not authorized for your email address"))
      else if download_count td >=? max_downloads td then
        AtLog (log (Some (id td)) (c_email c) false (Some "Download limit exceeded")
                 (c_ip c) (c_ua c))
              (Returned (deny "Download limit exceeded for this link"))
      else
        AtLog (log (Some (id td)) (c_email c) true None (c_ip c) (c_ua c))
              (AtUpdate c (id td) (SetCount (download_count td + 1) (c_now c))
                 {| valid := true; document := Some (document_id td);
                    reason := None; tokenData := Some td |})
  end.

Definition append_attempt (entry : DownloadAttempt) (s : Store) : Store :=
  {| secure_download_tokens := secure_download_tokens s;
     download_attempts := download_attempts s ++ [entry] |}.

(** One store request of one call, served in full before any other, and
    ending as [o] says.  A rejected select or update sends the call to its
    [catch] block; a failed audit insert is swallowed by
    [logDownloadAttempt]. *)
Definition step (o : outcome) (th : thread) (s : Store) : thread * Store :=
  match th with
  | AtSelect c =>
      match o with
      | Resolves =>
          (after_select c
             (single (filter (active_with_token (c_token c))
                             (secure_download_tokens s))), s)
      | ResolvesWithError => (after_select c None, s)
      | Rejects => (AtCatch c, s)
      end
  | AtLog entry next =>
      match o with
      | Resolves => (next, append_attempt entry s)
      | _ => (next, s)
      end
  | AtUpdate c i p r =>
      match o with
      | Resolves =>
          (Returned r,
           {| secure_download_tokens :=
                update_where_id i (apply_patch p) (secure_download_tokens s);
              download_attempts := download_attempts s |})
      | ResolvesWithError => (Returned r, s)
      | Rejects => (AtCatch c, s)
      end
  | AtCatch c =>
      let r := Returned (deny "System error occurred") in
      match o with
      | Resolves =>
          (r, append_attempt
                (attempt_row (c_now c) None (c_email c) false
                   (Some "System error") (c_ip c) (c_ua c)) s)
      | _ => (r, s)
      end
  | Returned r => (Returned r, s)
  end.

Fixpoint replace_nth {A} (n : nat) (x : A) (l : list A) : list A :=
  match l, n with
  | [], _ => []
  | _ :: t, O => x :: t
  | h :: t, S m => h :: replace_nth m x t
  end.

(** The store serves the next request of call number [i], with outcome
    [o]. *)
Definition step_pool (io : nat * outcome) (pool : list thread) (s : Store)
  : list thread * Store :=
  match nth_error pool (fst io) with
  | Some th =>
      let (th', s') := step (snd io) th s in (replace_nth (fst io) th' pool, s')
  | None => (pool, s)
  end.

(** A schedule names, request after request, the call that is served and how
    the request ends. *)
Fixpoint run_schedule (schedule : list (nat * outcome)) (pool : list thread)
    (s : Store) : list thread * Store :=
  match schedule with
  | [] => (pool, s)
  | io :: rest =>
      let (pool', s') := step_pool io pool s in run_schedule rest pool' s'
  end.

(** A schedule on which the store serves every request. *)
Definition served (order : list nat) : list (nat * outcome) :=
  map (fun i => (i, Resolves)) order.

Definition allowed (th : thread) : bool :=
  match th with
  | Returned r => valid r
  | _ => false
  end.

(** The number of calls that have returned [valid: true]. *)
Definition allow_count (pool : list thread) : nat :=
  List.length (filter allowed pool).

(** The outcome [env] holds for the request a call is suspended at. *)
Definition outcome_for (env : Faults) (th : thread) : outcome :=
  match th with
  | AtSelect _ => on_select env
  | AtLog _ _ => on_log env
  | AtUpdate _ _ _ _ => on_update env
  | AtCatch _ => on_catch_log env
  | Returned _ => Resolves
  end.

Definition step_alone (env : Faults) (ts : thread * Store) : thread * Store :=
  step (outcome_for env (fst ts)) (fst ts) (snd ts).

(** A call run from start to end with no other request in between: at most
    four requests. *)
Definition run_alone (env : Faults) (c : Call) (s : Store) : thread * Store :=
  step_alone env (step_alone env (step_alone env (step_alone env (AtSelect c, s)))).

End Interleaving.

(** ** Histories of operations on [secure_download_tokens] *)

Module Lifecycle.

Import SecureDownloads.

(** The operations of the module that write to the store. *)
Inductive op : Type :=
| Verify (env : Faults) (now : Z) (token_ attemptedEmail : string)
         (ipAddress userAgent : option string)
| Revoke (o : outcome) (now : Z) (tokenId : string)
| Cleanup (o : outcome) (now : Z)
| Generate (oracle : nat -> Draw) (now : Z) (documents : list Document)
           (recipientEmail orderId : string) (config : PartialConfig).

Section Exec.

Variable baseUrl : string.
Variable encodeURIComponent : string -> string.
Variable zone : Js.TimeZone.

Definition exec (o : op) (s : Store) : Store :=
  match o with
  | Verify env now t e ip ua => snd (verifyDownloadToken env now t e ip ua s)
  | Revoke o now i => snd (revokeDownloadToken o now i s)
  | Cleanup o now =>
      match o with
      | Resolves =>
          {| secure_download_tokens :=
               cleanup_expired_tokens now (secure_download_tokens s);
             download_attempts := download_attempts s |}
      | _ => s
      end
  | Generate oracle now docs e ord cfg =>
      snd (generateSecureDownloadTokens baseUrl encodeURIComponent zone
             oracle now docs e ord cfg s)
  end.

Definition exec_all (ops : list op) (s : Store) : Store :=
  fold_left (fun acc o => exec o acc) ops s.

End Exec.

End Lifecycle.


(** ** Download statistics *)

Module Statistics.

Import SecureDownloads.

(** The object [getDownloadStatistics] resolves with. *)
Record DownloadStatistics : Type := {
  totalTokens : nat;
  activeTokens : nat;
  expiredTokens : nat;
  totalAttempts : nat;
  successfulDownloads : nat;
  failedAttempts : nat
}.

(** The object of the [catch] block. *)
Definition no_statistics : DownloadStatistics :=
  {| totalTokens := 0; activeTokens := 0; expiredTokens := 0;
     totalAttempts := 0; successfulDownloads := 0; failedAttempts := 0 |}.

(** The outcomes of the three selects of one call: the keys of the order's
    tokens, the tokens, the attempts. *)
Record StatsFaults : Type := {
  on_order_tokens : outcome;
  on_tokens : outcome;
  on_attempts : outcome
}.

Definition all_served : StatsFaults :=
  {| on_order_tokens := Resolves; on_tokens := Resolves; on_attempts := Resolves |}.

(** [if (orderId)]: an absent or empty [orderId] is no filter. *)
Definition given (orderId : option string) : option string :=
  match orderId with
  | Some o => if String.eqb o EmptyString then None else Some o
  | None => None
  end.

(** [.eq('order_id', orderId)] *)
Definition of_order (o : string) (r : SecureDownloadToken) : bool :=
  String.eqb (order_id r) o.

(** [.in('token_id', tokenIds)]: a null [token_id] is in no list. *)
Definition token_id_in (tokenIds : list string) (a : DownloadAttempt) : bool :=
  match token_id a with
  | Some i => existsb (String.eqb i) tokenIds
  | None => false
  end.

(** The filter [attemptsQuery] ends up with: the keys of the order's tokens
    when the order is given, its select brought data, and the data is not
    empty; no filter otherwise. *)
Definition attempts_filter (orderTokens : option (list SecureDownloadToken))
  : DownloadAttempt -> bool :=
  match orderTokens with
  | Some (t :: ts) => token_id_in (map id (t :: ts))
  | _ => fun _ => true
  end.

(** [tokensResult.data || []] *)
Definition data_or_empty {A} (o : outcome) (rows : list A) : list A :=
  match o with
  | Resolves => rows
  | _ => []
  end.

(** [t.is_active && new Date(t.expires_at) > now]; the stored [expires_at]
    is read as the instant it denotes. *)
Definition counts_as_active (now : Z) (t : SecureDownloadToken) : bool :=
  is_active t && (expires_at t >? now).

(** [!t.is_active || new Date(t.expires_at) <= now] *)
Definition counts_as_expired (now : Z) (t : SecureDownloadToken) : bool :=
  negb (is_active t) || (expires_at t <=? now).

Definition count {A} (f : A -> bool) (l : list A) : nat :=
  List.length (filter f l).

(** What the function computes from the data of its two main selects. *)
Definition summarize (now : Z) (tokens : list SecureDownloadToken)
    (attempts : list DownloadAttempt) : DownloadStatistics :=
  {| totalTokens := List.length tokens;
     activeTokens := count (counts_as_active now) tokens;
     expiredTokens := count (counts_as_expired now) tokens;
     totalAttempts := List.length attempts;
     successfulDownloads := count (fun a => success a) attempts;
     failedAttempts := count (fun a => negb (success a)) attempts |}.

(** [getDownloadStatistics]; it reads the store and writes nothing. *)
Definition getDownloadStatistics (env : StatsFaults) (now : Z)
    (orderId : option string) (s : Store) : DownloadStatistics :=
  let rejected :=
    match given orderId with
    | Some _ =>
        match on_order_tokens env with Rejects => true | _ => false end
    | None => false
    end in
  if rejected then no_statistics
  else
    let tokens_filter : SecureDownloadToken -> bool :=
      match given orderId with
      | Some o => of_order o
      | None => fun _ => true
      end in
    let orderTokens : option (list SecureDownloadToken) :=
      match given orderId with
      | Some o =>
          match on_order_tokens env with
          | Resolves => Some (filter (of_order o) (secure_download_tokens s))
          | _ => None
          end
      | None => None
      end in
    match on_tokens env, on_attempts env with
    | Rejects, _ | _, Rejects => no_statistics
    | ot, oa =>
        summarize now
          (data_or_empty ot (filter tokens_filter (secure_download_tokens s)))
          (data_or_empty oa
             (filter (attempts_filter orderTokens) (download_attempts s)))
    end.

End Statistics.

(** ** The document download utility *)

Module DocumentDownload.

(** [DocumentDownloadOptions.method]; a value outside the four takes the
    [default] of the [switch], which is the case of ['direct']. *)
Inductive Method : Type :=
| direct
| proxy
| signed_url
| base64.

Record DocumentDownloadOptions : Type := {
  method : Method;
  expirationMinutes : option Z
}.

(** The default value of the [options] parameter. *)
Definition default_options : DocumentDownloadOptions :=
  {| method := signed_url; expirationMinutes := Some 60 |}.

(** One element of [documents]. *)
Record Document : Type := {
  id : string;
  name : string;
  url : string;
  size : option Z
}.

(** One element of the returned array. *)
Record DownloadableLink : Type := {
  link_id : string;
  link_name : string;
  downloadUrl : string;
  expiresAt : option Z
}.

(** [s.includes(needle)] *)
Fixpoint includes (needle s : string) : bool :=
  if String.prefix needle s then true
  else match s with
       | EmptyString => false
       | String _ rest => includes needle rest
       end.

(** What is left of [s] after the prefix [p], when [s] starts with [p]. *)
Fixpoint strip_prefix (p s : string) : option string :=
  match p, s with
  | EmptyString, _ => Some s
  | String a p', String b s' =>
      if Ascii.eqb a b then strip_prefix p' s' else None
  | String _ _, EmptyString => None
  end.

(** The characters [.] does not match: line feed, carriage return, and the
    line and paragraph separators (as their three bytes). *)
Fixpoint has_line_terminator (s : string) : bool :=
  match s with
  | EmptyString => false
  | String c rest =>
      let n := nat_of_ascii c in
      if (Nat.eqb n 10 || Nat.eqb n 13)%bool then true
      else if String.prefix (String (ascii_of_nat 226) (String (ascii_of_nat 128)
                               (String (ascii_of_nat 168) EmptyString))) s
      then true
      else if String.prefix (String (ascii_of_nat 226) (String (ascii_of_nat 128)
                               (String (ascii_of_nat 169) EmptyString))) s
      then true
      else has_line_terminator rest
  end.

Definition storage_prefix : string :=
  "/storage/v1/object/public/project-documents/".

(** [url.match(/\/storage\/v1\/object\/public\/project-documents\/(.+)$/)],
    giving [pathMatch[1]]: at the leftmost place where the prefix stands and
    is followed, up to the end of the string, by at least one character and
    no line terminator, what follows the prefix. *)
Fixpoint storage_path (s : string) : option string :=
  let here :=
    match strip_prefix storage_prefix s with
    | Some rest =>
        if (negb (String.eqb rest EmptyString)
            && negb (has_line_terminator rest))%bool
        then Some rest else None
    | None => None
    end in
  match here with
  | Some rest => Some rest
  | None =>
      match s with
      | EmptyString => None
      | String _ s' => storage_path s'
      end
  end.

(** What [createSignedUrl] answers. *)
Inductive sign_reply : Type :=
| Signed (signedUrl : string)
| SignError
| SignRejects.

(** What [fetch], [blob] and [blobToBase64] give together. *)
Inductive fetch_reply : Type :=
| DataUrl (base64 : string)
| FetchRejects.

(** The world of one loop iteration. *)
Record DocumentWorld : Type := {
  sign : sign_reply;
  fetched : fetch_reply
}.

(** [options.expirationMinutes || 60]: absent or [0] is 60. *)
Definition minutes_or_60 (options : DocumentDownloadOptions) : Z :=
  match expirationMinutes options with
  | Some m => if m =? 0 then 60 else m
  | None => 60
  end.

(** The instants a [Date] can hold; [toISOString] throws outside. *)
Definition valid_date (t : Z) : bool :=
  (-8640000000000000 <=? t) && (t <=? 8640000000000000).

(** The link pushed by the [catch] block of the loop. *)
Definition fallback (d : Document) : DownloadableLink :=
  {| link_id := id d; link_name := name d; downloadUrl := url d;
     expiresAt := None |}.

Definition link (d : Document) (u : string) (e : option Z) : DownloadableLink :=
  {| link_id := id d; link_name := name d; downloadUrl := u; expiresAt := e |}.

(** The body of the [for] loop: the link it pushes. *)
Definition link_for (w : DocumentWorld) (now : Z)
    (options : DocumentDownloadOptions) (d : Document) : DownloadableLink :=
  match method options with
  | signed_url =>
      if includes "supabase" (url d) then
        match storage_path (url d) with
        | Some path =>
            match sign w with
            | Signed signedUrl =>
                let t := now + minutes_or_60 options * 60 * 1000 in
                if valid_date t then link d signedUrl (Some t) else fallback d
            | SignError => link d (url d) None
            | SignRejects => fallback d
            end
        | None => link d (url d) None
        end
      else link d (url d) None
  | proxy => link d ("/api/download/" ++ id d) None
  | base64 =>
      if Z.ltb (match size d with Some n => n | None => 0 end) (1024 * 1024) then
        match fetched w with
        | DataUrl b => link d b None
        | FetchRejects => link d (url d) None
        end
      else link d (url d) None
  | direct => link d (url d) None
  end.

(** [generateDownloadableLinks]; [world n] is the world of the [n]-th
    document. *)
Fixpoint links_from (world : nat -> DocumentWorld) (n : nat) (now : Z)
    (options : DocumentDownloadOptions) (documents : list Document)
  : list DownloadableLink :=
  match documents with
  | [] => []
  | d :: rest =>
      link_for (world n) now options d
      :: links_from world (S n) now options rest
  end.

Definition generateDownloadableLinks (world : nat -> DocumentWorld) (now : Z)
    (documents : list Document) (options : DocumentDownloadOptions)
  : list DownloadableLink :=
  links_from world 0 now options documents.

End DocumentDownload.

(** ** The single-factor page *)

Module SecureDownloadPage.

Import SecureDownloads.

(** The component's [useState] cells that the handlers read or write, and
    the two values it gets from the route: [token] and the [email] query
    parameter. *)
Record Page : Type := {
  token : option string;
  emailParam : option string;
  email : string;
  isVerifying : bool;
  isDownloading : bool;
  verificationResult : option VerifyResult;
  clientIP : option string;
  showEmailInput : bool;
  requestingNewLinks : bool
}.

(** [s || ''], [!s]: a string is truthy when present and not empty. *)
Definition truthy (o : option string) : bool :=
  match o with
  | Some s => negb (String.eqb s EmptyString)
  | None => false
  end.

(** The state right after mounting: [useState(emailParam || '')] and
    [useState(!emailParam)]. *)
Definition initial (token_ emailParam_ : option string) : Page :=
  {| token := token_; emailParam := emailParam_;
     email := match emailParam_ with Some e => e | None => EmptyString end;
     isVerifying := false; isDownloading := false;
     verificationResult := None; clientIP := None;
     showEmailInput := negb (truthy emailParam_);
     requestingNewLinks := false |}.

Definition setVerificationResult (r : option VerifyResult) (p : Page) : Page :=
  {| token := token p; emailParam := emailParam p; email := email p;
     isVerifying := isVerifying p; isDownloading := isDownloading p;
     verificationResult := r; clientIP := clientIP p;
     showEmailInput := showEmailInput p;
     requestingNewLinks := requestingNewLinks p |}.

Definition setShowEmailInput (b : bool) (p : Page) : Page :=
  {| token := token p; emailParam := emailParam p; email := email p;
     isVerifying := isVerifying p; isDownloading := isDownloading p;
     verificationResult := verificationResult p; clientIP := clientIP p;
     showEmailInput := b;
     requestingNewLinks := requestingNewLinks p |}.

Definition setEmail (e : string) (p : Page) : Page :=
  {| token := token p; emailParam := emailParam p; email := e;
     isVerifying := isVerifying p; isDownloading := isDownloading p;
     verificationResult := verificationResult p; clientIP := clientIP p;
     showEmailInput := showEmailInput p;
     requestingNewLinks := requestingNewLinks p |}.

(** The result the page's own [catch] block sets. *)
Definition page_error : VerifyResult :=
  {| valid := false; document := None;
     reason := Some "System error occurred. Please try again.";
     tokenData := None |}.

(** [handleVerifyAccess]; [isVerifying] is [false] again when it ends. *)
Definition handleVerifyAccess (env : Faults) (now : Z) (userAgent : string)
    (p : Page) (s : Store) : Page * Store :=
  match token p with
  | None => (p, s)
  | Some t =>
      if (String.eqb t EmptyString || String.eqb (email p) EmptyString)%bool
      then (p, s)
      else
        match verifyDownloadToken env now t (email p) (clientIP p)
                (Some userAgent) s with
        | (inl result, s') =>
            let p1 := setVerificationResult (Some result) p in
            (if valid result then p1 else setShowEmailInput true p1, s')
        | (inr _, s') => (setVerificationResult (Some page_error) p, s')
        end
  end.

(** The mount effect: [if (token && emailParam && !verificationResult)
    handleVerifyAccess()]. *)
Definition on_mount (env : Faults) (now : Z) (userAgent : string)
    (p : Page) (s : Store) : Page * Store :=
  if (truthy (token p) && truthy (emailParam p)
      && match verificationResult p with None => true | Some _ => false end)%bool
  then handleVerifyAccess env now userAgent p s
  else (p, s).

(** [handleDownload]: the document whose download it triggers, if any.  It
    sends nothing to the store. *)
Definition handleDownload (p : Page) : option string :=
  match verificationResult p with
  | Some r => if valid r then document r else None
  | None => None
  end.

(** [handleRequestNewLinks]: the arguments it passes to
    [requestNewDownloadLinks], if it gets that far. *)
Definition handleRequestNewLinks (p : Page) : option (string * string) :=
  match verificationResult p with
  | Some r =>
      match tokenData r with
      | Some td =>
          if String.eqb (order_id td) EmptyString then None
          else Some (order_id td, email p)
      | None => None
      end
  | None => None
  end.

(** [reason?.includes(word)] *)
Definition reason_includes (word : string) (r : VerifyResult) : bool :=
  match reason r with
  | Some why => DocumentDownload.includes word why
  | None => false
  end.

(** The "Request New Links" button is on screen. *)
Definition offers_new_links (p : Page) : bool :=
  match verificationResult p with
  | Some r => negb (valid r) && reason_includes "expired" r
  | None => false
  end.

(** The "Try Different Email" button is on screen. *)
Definition offers_other_email (p : Page) : bool :=
  match verificationResult p with
  | Some r => negb (valid r) && reason_includes "email" r
  | None => false
  end.

(** The "Download Document" button is on screen. *)
Definition offers_download (p : Page) : bool :=
  match verificationResult p with
  | Some r => valid r
  | None => false
  end.

(** The outcome of [formatExpirationTime]: the text it returns. *)
Definition formatExpirationTime (expiresAt now : Z) : string :=
  let diffMs := expiresAt - now in
  if diffMs <=? 0 then "Expired"
  else
    let diffHours := diffMs / (1000 * 60 * 60) in
    let diffMinutes := (diffMs mod (1000 * 60 * 60)) / (1000 * 60) in
    if diffHours >? 0
    then Js.show_int diffHours ++ "h " ++ Js.show_int diffMinutes ++ "m remaining"
    else Js.show_int diffMinutes ++ "m remaining".

End SecureDownloadPage.

(** ** The multi-factor page: the code step and the visitor's events *)

Module VerifyDownloadFlow.

Import Migration VerifyDownloadPage.

Definition setVerificationCode (c : string) (p : Page) : Page :=
  {| step := step p; email := email p; verificationCode := c;
     isVerifying := isVerifying p; sessionData := sessionData p;
     documents := documents p; error := error p;
     deviceFingerprint := deviceFingerprint p |}.

(** [{ is_verified: true, device_fingerprint: ..., updated_at: ... }] *)
Definition set_verified (fingerprint : string) (now : Z) (r : Session) : Session :=
  {| SecureDownloadSessions.id := SecureDownloadSessions.id r;
     SecureDownloadSessions.token := SecureDownloadSessions.token r;
     SecureDownloadSessions.recipient_email := SecureDownloadSessions.recipient_email r;
     SecureDownloadSessions.order_id := SecureDownloadSessions.order_id r;
     SecureDownloadSessions.verification_code := SecureDownloadSessions.verification_code r;
     SecureDownloadSessions.expires_at := SecureDownloadSessions.expires_at r;
     SecureDownloadSessions.max_downloads := SecureDownloadSessions.max_downloads r;
     SecureDownloadSessions.download_count := SecureDownloadSessions.download_count r;
     SecureDownloadSessions.is_verified := Some true;
     SecureDownloadSessions.is_active := SecureDownloadSessions.is_active r;
     SecureDownloadSessions.device_fingerprint := Some fingerprint;
     SecureDownloadSessions.allowed_ip_addresses := SecureDownloadSessions.allowed_ip_addresses r;
     SecureDownloadSessions.download_window_start := SecureDownloadSessions.download_window_start r;
     SecureDownloadSessions.download_window_end := SecureDownloadSessions.download_window_end r;
     SecureDownloadSessions.created_at := SecureDownloadSessions.created_at r;
     SecureDownloadSessions.updated_at := Some now |}.

(** [handleCodeVerification]; [o] is the outcome of its update, whose
    [error] it does check.  [isVerifying] is [false] again when it ends. *)
Definition handleCodeVerification (o : outcome) (now : Z) (db : Tables)
    (p : Page) : Page * Tables :=
  match sessionData p with
  | None => (p, db)
  | Some session =>
      if String.eqb (verificationCode p) EmptyString then (p, db)
      else
        let p0 := setError None p in
        if negb (String.eqb (verificationCode p)
                            (SecureDownloadSessions.verification_code session))
        then (setIsVerifying false (setError (Some "Invalid verification code") p0), db)
        else
          match o with
          | Resolves =>
              (setIsVerifying false (setStep 3 p0),
               {| secure_download_sessions :=
                    update_where
                      (fun r => String.eqb (SecureDownloadSessions.id r)
                                  (SecureDownloadSessions.id session))
                      (set_verified (deviceFingerprint p) now)
                      (secure_download_sessions db);
                  session_documents := session_documents db |})
          | _ =>
              (setIsVerifying false (setError (Some "Failed to verify code") p0), db)
          end
  end.

(** What a visitor can do to the page.  Typing goes to the input of the card
    on screen; a press goes to the button of the card on screen. *)
Inductive event : Type :=
| TypeEmail (text : string)
| PressVerifyEmail
| TypeCode (text : string)
| PressVerifyCode (o : outcome) (now : Z)
| PressDownload (env : DownloadFaults) (now currentHour : Z)
                (documentId documentUrl : string).

(** The element the event needs is on screen and not disabled: nothing but a
    link while [error] is set; the email input and its button
    ([disabled={!email}]) at step 1; the code input and its button
    ([disabled={!verificationCode || isVerifying}]) at step 2; one download
    button per listed document ([disabled] once the page's copy of the
    counter has reached the quota) at step 3. *)
Definition enabled (e : event) (p : Page) : bool :=
  match render p with
  | AccessDenied _ => false
  | StepCard n =>
      match e with
      | TypeEmail _ => n =? 1
      | PressVerifyEmail => (n =? 1) && negb (String.eqb (email p) EmptyString)
      | TypeCode _ => n =? 2
      | PressVerifyCode _ _ =>
          (n =? 2) && negb (String.eqb (verificationCode p) EmptyString)
          && negb (isVerifying p)
      | PressDownload _ _ _ documentId documentUrl =>
          (n =? 3)
          && existsb
               (fun d =>
                  String.eqb (SessionDocuments.id d) documentId
                  && String.eqb (SessionDocuments.document_url d) documentUrl)
               (documents p)
          && negb (download_disabled p)
      end
  end.

(** One event, handled to its end before the next one. *)
Definition handle (token : string) (e : event) (st : Page * Tables)
  : Page * Tables :=
  let (p, db) := st in
  if enabled e p then
    match e with
    | TypeEmail text => (setEmail text p, db)
    | PressVerifyEmail => (handleEmailVerification p, db)
    | TypeCode text => (setVerificationCode text p, db)
    | PressVerifyCode o now => handleCodeVerification o now db p
    | PressDownload env now currentHour documentId _ =>
        handleDownload env now currentHour token documentId db p
    end
  else st.

(** The mount effect: [if (token) { ...; checkSession(); }]. *)
Definition on_mount (o_session o_docs : outcome) (now currentHour : Z)
    (token fingerprint : string) (db : Tables) : Page :=
  if String.eqb token EmptyString then initial EmptyString
  else checkSession o_session o_docs now currentHour token db
         (initial fingerprint).

(** The page mounts, runs [checkSession], and the visitor's events follow. *)
Definition session_of_events (o_session o_docs : outcome) (now currentHour : Z)
    (token fingerprint : string) (events : list event) (db : Tables)
  : Page * Tables :=
  fold_left (fun st e => handle token e st) events
    (on_mount o_session o_docs now currentHour token fingerprint db, db).

End VerifyDownloadFlow.

(** ** Row-level policies of the migration *)

Module Policies.

Import Migration.

(** [USING (is_active = true AND expires_at > now())], the policy of the
    session tables for [SELECT] (and for [UPDATE] where there is one). *)
Definition active_and_unexpired (now : Z) (is_active : option bool)
    (expires_at : Z) : bool :=
  sql_is is_active true && (expires_at >? now).

(** "Public can view active MFA sessions" *)
Definition can_view_mfa_session (now : Z) (r : SecureDownloadSessions.t) : bool :=
  active_and_unexpired now (SecureDownloadSessions.is_active r)
    (SecureDownloadSessions.expires_at r).

(** "Public can view blockchain sessions" *)
Definition can_view_blockchain_session (now : Z)
    (r : BlockchainDownloadSessions.t) : bool :=
  active_and_unexpired now (BlockchainDownloadSessions.is_active r)
    (BlockchainDownloadSessions.expires_at r).

(** "Public can view progressive sessions" *)
Definition can_view_progressive_session (now : Z)
    (r : ProgressiveDownloadSessions.t) : bool :=
  active_and_unexpired now (ProgressiveDownloadSessions.is_active r)
    (ProgressiveDownloadSessions.expires_at r).

(** "Public can view active portals" *)
Definition can_view_portal (now : Z) (r : CustomerPortals.t) : bool :=
  active_and_unexpired now (CustomerPortals.is_active r)
    (CustomerPortals.expires_at r).

(** "Public can view active QR sessions" *)
Definition can_view_qr_session (now : Z) (r : QrDownloadSessions.t) : bool :=
  active_and_unexpired now (QrDownloadSessions.is_active r)
    (QrDownloadSessions.expires_at r).

(** "Public can view unlocked stages":
    [USING (is_unlocked = true OR unlock_time <= now())] *)
Definition can_view_unlock (now : Z) (u : ProgressiveUnlocks.t) : bool :=
  sql_is (ProgressiveUnlocks.is_unlocked u) true
  || (ProgressiveUnlocks.unlock_time u <=? now).

(** The rows of the database a [SELECT] of the public role gets to see at
    instant [now]. *)
Definition public_view (now : Z) (db : Database) : Database :=
  {| secure_download_sessions :=
       filter (can_view_mfa_session now) (secure_download_sessions db);
     blockchain_download_sessions :=
       filter (can_view_blockchain_session now) (blockchain_download_sessions db);
     progressive_download_sessions :=
       filter (can_view_progressive_session now) (progressive_download_sessions db);
     progressive_unlocks :=
       filter (can_view_unlock now) (progressive_unlocks db);
     customer_portals := filter (can_view_portal now) (customer_portals db);
     qr_download_sessions :=
       filter (can_view_qr_session now) (qr_download_sessions db) |}.

(** The keys of the rows of each table, table by table. *)
Definition keys (db : Database) : list (list string) :=
  [ map SecureDownloadSessions.id (secure_download_sessions db);
    map BlockchainDownloadSessions.id (blockchain_download_sessions db);
    map ProgressiveDownloadSessions.id (progressive_download_sessions db);
    map ProgressiveUnlocks.id (progressive_unlocks db);
    map CustomerPortals.id (customer_portals db);
    map QrDownloadSessions.id (qr_download_sessions db) ].

(** The table of sessions the multi-factor page reads through the policy. *)
Definition page_view (now : Z) (db : VerifyDownloadPage.Tables)
  : VerifyDownloadPage.Tables :=
  {| VerifyDownloadPage.secure_download_sessions :=
       filter (can_view_mfa_session now)
              (VerifyDownloadPage.secure_download_sessions db);
     VerifyDownloadPage.session_documents :=
       VerifyDownloadPage.session_documents db |}.

End Policies.

(** ** The single-factor page: the visitor's events *)

Module SecureDownloadFlow.

Import SecureDownloads SecureDownloadPage.

Definition setClientIP (ip : option string) (p : Page) : Page :=
  {| token := token p; emailParam := emailParam p; email := email p;
     isVerifying := isVerifying p; isDownloading := isDownloading p;
     verificationResult := verificationResult p; clientIP := ip;
     showEmailInput := showEmailInput p;
     requestingNewLinks := requestingNewLinks p |}.

(** What can happen to the page after it has mounted: the answer of
    [getClientIP] arrives, or the visitor types or presses a button. *)
Inductive event : Type :=
| ClientIPArrives (ip : option string)
| TypeEmail (text : string)
| PressVerify (env : Faults) (now : Z) (userAgent : string)
| PressTryDifferentEmail
| PressRequestNewLinks
| PressDownload.

(** What leaves the page: a call of [requestNewDownloadLinks], or the
    download of a document. *)
Inductive output : Type :=
| Requested (orderId email_ : string)
| Downloaded (document_ : string).

(** The email card is on screen:
    [showEmailInput && !verificationResult?.valid]. *)
Definition email_card (p : Page) : bool :=
  showEmailInput p && negb (offers_download p).

(** The element the event needs is on screen and not disabled. *)
Definition enabled (e : event) (p : Page) : bool :=
  match e with
  | ClientIPArrives _ => true
  | TypeEmail _ => email_card p
  | PressVerify _ _ _ => email_card p && negb (String.eqb (email p) EmptyString)
  | PressTryDifferentEmail => offers_other_email p
  | PressRequestNewLinks => offers_new_links p
  | PressDownload => offers_download p
  end.

Definition to_list {A} (o : option A) : list A :=
  match o with
  | Some a => [a]
  | None => []
  end.

(** One event, handled to its end before the next one: the new page, the new
    store, and what left the page. *)
Definition handle (e : event) (p : Page) (s : Store)
  : Page * Store * list output :=
  if enabled e p then
    match e with
    | ClientIPArrives ip => (setClientIP ip p, s, [])
    | TypeEmail text => (setEmail text p, s, [])
    | PressVerify env now userAgent =>
        (handleVerifyAccess env now userAgent p s, [])
    | PressTryDifferentEmail =>
        (setEmail EmptyString
           (setVerificationResult None (setShowEmailInput true p)), s, [])
    | PressRequestNewLinks =>
        (p, s, to_list (option_map (fun a => Requested (fst a) (snd a))
                          (handleRequestNewLinks p)))
    | PressDownload =>
        (p, s, to_list (option_map Downloaded (handleDownload p)))
    end
  else (p, s, []).

Fixpoint run (events : list event) (p : Page) (s : Store)
  : Page * Store * list output :=
  match events with
  | [] => (p, s, [])
  | e :: rest =>
      let '(p1, s1, out1) := handle e p s in
      let '(p2, s2, out2) := run rest p1 s1 in
      (p2, s2, (out1 ++ out2)%list)
  end.

(** A visit: the page mounts, its effect verifies on its own when the link
    carries an email, and events follow. *)
Definition visit (token_ emailParam_ : option string) (env : Faults) (now : Z)
    (userAgent : string) (events : list event) (s : Store)
  : Page * Store * list output :=
  let (p0, s0) := on_mount env now userAgent (initial token_ emailParam_) s in
  run events p0 s0.

End SecureDownloadFlow.
(** ** Statements of the specification, in its own words *)

Module Spec.

Import SecureDownloads.

(** *** Identities that differ only in letter case *)






(** *** The first failing check *)

(** A check is a pair of "it fails" and the reason it reports. *)
Definition first_failing (checks : list (bool * string)) : option string :=
  match find (fun c => fst c) checks with
  | Some c => Some (snd c)
  | None => None
  end.

Definition identity_mismatch (recipient presented : string) : bool :=
  negb (String.eqb (Js.toLowerCase recipient) (Js.toLowerCase presented)).

(** The token a call resolves: the row of the select when the select
    resolves with exactly one active row. *)
Definition resolved (env : Faults) (t : string) (s : Store)
  : option SecureDownloadToken :=
  match on_select env with
  | Resolves => single (filter (active_with_token t) (secure_download_tokens s))
  | _ => None
  end.

(** Expiry, then identity, then quota. *)
Definition token_checks (now : Z) (presented : string) (td : SecureDownloadToken)
  : list (bool * string) :=
  [ (now >? expires_at td, "Download link has expired");
    (identity_mismatch (recipient_email td) presented,
     "This download link is not authorized for your email address");
    (download_count td >=? max_downloads td,
     "Download limit exceeded for this link") ].

(** Resolution first; [None] is ALLOW. *)
Definition reason_in_order (found : option SecureDownloadToken) (now : Z)
    (presented : string) : option string :=
  match found with
  | None => Some "Invalid or expired token"
  | Some td => first_failing (token_checks now presented td)
  end.

(** The session the page resolves. *)
Definition resolved_session (o_session : outcome) (t : string)
    (db : VerifyDownloadPage.Tables) : option VerifyDownloadPage.Session :=
  match o_session with
  | Resolves =>
      single
        (filter (VerifyDownloadPage.active_session_with_token t)
                (VerifyDownloadPage.secure_download_sessions db))
  | _ => None
  end.

Definition session_expired (now : Z) (session : VerifyDownloadPage.Session) : bool :=
  Migration.SecureDownloadSessions.expires_at session <? now.

Definition session_identity_mismatch (typed : string)
    (session : VerifyDownloadPage.Session) : bool :=
  identity_mismatch (Migration.SecureDownloadSessions.recipient_email session) typed.

(** The order the page follows: expiry, then the download window, then
    identity. *)
Definition page_checks (now currentHour : Z) (typed : string)
    (session : VerifyDownloadPage.Session) : list (bool * string) :=
  [ (session_expired now session, "This download session has expired");
    (VerifyDownloadPage.outside_window currentHour session,
     VerifyDownloadPage.window_message session);
    (session_identity_mismatch typed session,
     "Email address does not match the authorized recipient") ].

Definition page_reason_in_order (found : option VerifyDownloadPage.Session)
    (now currentHour : Z) (typed : string) : option string :=
  match found with
  | None => Some "Invalid or expired session token"
  | Some session => first_failing (page_checks now currentHour typed session)
  end.

(** "Expiry, then identity match, then variant-specific gates (e.g. the MFA
    download-window ...); the first failing check determines the single
    reported denial reason": on a session that resolves and has not expired,
    a mismatching identity is the first failing check, so it is the reason
    reported, whatever the download window says. *)
Definition identity_reported_before_window : Prop :=
  forall o_docs now currentHour token typed fingerprint db session,
    resolved_session Resolves token db = Some session ->
    session_expired now session = false ->
    typed <> EmptyString ->
    session_identity_mismatch typed session = true ->
    VerifyDownloadPage.error
      (VerifyDownloadPage.visit Resolves o_docs now currentHour token typed
         fingerprint db)
    = Some "Email address does not match the authorized recipient".

(** *** Expiry *)

(** "For every verify call on a resolvable active grant whose expiresAt is
    in the past, the engine flips is_active to false, persists that change,
    and returns DENY with the Expired reason, writing an audit entry for the
    attempt." *)
Definition expired_grant_always_deactivated : Prop :=
  forall env now t e ip ua s td,
    resolved env t s = Some td -> now > expires_at td ->
    let out := verifyDownloadToken env now t e ip ua s in
    fst out = inl (deny "Download link has expired")
    /\ (forall r, In r (secure_download_tokens (snd out)) -> id r = id td ->
                  is_active r = false)
    /\ exists entry,
         download_attempts (snd out) = (download_attempts s ++ [entry])%list.

(** "The first verify call after expiry returns the Expired reason and flips
    is_active to false, and every subsequent verify call on that same token
    returns the InvalidToken reason instead": for calls none of whose store
    requests rejects. *)
Definition expired_then_invalid : Prop :=
  forall env now t e ip ua s td env2 now2 e2 ip2 ua2,
    resolved env t s = Some td -> now > expires_at td ->
    on_update env <> Rejects -> on_select env2 <> Rejects ->
    let first := verifyDownloadToken env now t e ip ua s in
    fst first = inl (deny "Download link has expired")
    /\ (forall r, In r (secure_download_tokens (snd first)) -> token r = t ->
                  is_active r = false)
    /\ fst (verifyDownloadToken env2 now2 t e2 ip2 ua2 (snd first))
       = inl (deny "Invalid or expired token").

(** *** One audit entry per call *)

(** The reason written to the audit log next to each returned reason. *)
Definition audit_reason (returned : string) : string :=
  if String.eqb returned "Download link has expired" then "Token expired"
  else if String.eqb returned
            "This download link is not authorized for your email address"
  then "Email mismatch"
  else if String.eqb returned "Download limit exceeded for this link"
  then "Download limit exceeded"
  else if String.eqb returned "System error occurred" then "System error"
  else returned.

(** "Every verify call appends exactly one audit entry." *)
Definition one_audit_entry_per_call : Prop :=
  forall env now t e ip ua s,
  exists entry,
    download_attempts (snd (verifyDownloadToken env now t e ip ua s))
    = (download_attempts s ++ [entry])%list.

(** *** A token collision on persist *)

(** "If persisting a generated token violates the token uniqueness
    constraint, the generator retries generation exactly once; if the
    collision recurs, the issuance fails with a TokenCollision error reported
    to the caller": issuing one document, with the first generated token on
    file already, the generator is called a second time; the promise rejects
    when the second token is on file too, and resolves with the one link
    when it is free. *)
Definition retry_once_then_TokenCollision : Prop :=
  forall baseUrl enc zone oracle now doc email order config s t0 t1,
    rpc (oracle 0%nat) = RpcData t0 -> on_insert (oracle 0%nat) = Resolves ->
    rpc (oracle 1%nat) = RpcData t1 -> on_insert (oracle 1%nat) = Resolves ->
    id_taken (new_id (oracle 1%nat)) (secure_download_tokens s) = false ->
    token_taken t0 (secure_download_tokens s) = true ->
    let out :=
      generateSecureDownloadTokens baseUrl enc zone oracle now [doc] email order
        config s in
    (token_taken t1 (secure_download_tokens s) = true ->
     fst out = inr Thrown)
    /\ (token_taken t1 (secure_download_tokens s) = false ->
        exists u, fst out = inl ([u], 2%nat)).

(** *** The quota under concurrent calls *)

(** "Concurrent verify calls cannot race past the quota": however the store
    requests of the calls interleave, on a store that serves them all, no
    more calls are allowed than the grant has downloads left. *)
Definition quota_holds_under_races : Prop :=
  forall (td : SecureDownloadToken) (calls : list Interleaving.Call)
         (schedule : list nat),
    0 <= download_count td <= max_downloads td ->
    Z.of_nat
      (Interleaving.allow_count
         (fst (Interleaving.run_schedule (Interleaving.served schedule)
                 (map Interleaving.AtSelect calls)
                 {| secure_download_tokens := [td]; download_attempts := [] |})))
    <= max_downloads td - download_count td.

(** The same environment with other outcomes for the audit inserts. *)
Definition with_logs (env : Faults) (l c : outcome) : Faults :=
  {| on_select := on_select env; on_log := l;
     on_update := on_update env; on_catch_log := c |}.

End Spec.

(** ** Invariants *)

Module Invariants.

Import SecureDownloads.

(** A row update that changes neither key nor token and never activates. *)
Definition keeps (f : SecureDownloadToken -> SecureDownloadToken) : Prop :=
  forall r, id (f r) = id r /\ token (f r) = token r
            /\ (is_active (f r) = true -> is_active r = true).

(** Token [t] is on file and none of its rows is active. *)
Definition dead_token (t : string) (rows : list SecureDownloadToken) : Prop :=
  (exists r, In r rows /\ token r = t)
  /\ forall r, In r rows -> token r = t -> is_active r = false.

(** Key [i] is on file and none of its rows is active. *)
Definition dead_id (i : string) (rows : list SecureDownloadToken) : Prop :=
  (exists r, In r rows /\ id r = i)
  /\ forall r, In r rows -> id r = i -> is_active r = false.

(** Every counter is within its quota. *)
Definition within_quota (rows : list SecureDownloadToken) : Prop :=
  forall r, In r rows -> download_count r <= max_downloads r.

(** The columns no update of the module writes: key and quota. *)
Definition quota_of (rows : list SecureDownloadToken) : list (string * Z) :=
  map (fun r => (id r, max_downloads r)) rows.

(** A counter value a suspended call is about to write fits the quota of
    every row it will be written to. *)
Definition patch_ok (q : list (string * Z)) (i : string)
    (p : Interleaving.patch) : Prop :=
  match p with
  | Interleaving.Deactivate _ => True
  | Interleaving.SetCount n _ => forall j m, In (j, m) q -> j = i -> n <= m
  end.

Fixpoint thread_ok (q : list (string * Z)) (th : Interleaving.thread) : Prop :=
  match th with
  | Interleaving.AtSelect _ => True
  | Interleaving.AtLog _ next => thread_ok q next
  | Interleaving.AtUpdate _ i p _ => patch_ok q i p
  | Interleaving.AtCatch _ => True
  | Interleaving.Returned _ => True
  end.

(** Every session counter is within its quota, as JavaScript reads the two
    columns. *)
Definition sessions_within_quota (rows : list VerifyDownloadPage.Session) : Prop :=
  forall r, In r rows ->
    VerifyDownloadPage.js_num (Migration.SecureDownloadSessions.download_count r)
    <= VerifyDownloadPage.js_num (Migration.SecureDownloadSessions.max_downloads r).

(** The page's copy of the session carries the quota of the stored rows of
    the same key. *)
Definition quota_agrees (session : VerifyDownloadPage.Session)
    (rows : list VerifyDownloadPage.Session) : Prop :=
  forall r, In r rows ->
    Migration.SecureDownloadSessions.id r
    = Migration.SecureDownloadSessions.id session ->
    Migration.SecureDownloadSessions.max_downloads r
    = Migration.SecureDownloadSessions.max_downloads session.

(** The invariant of a pool of suspended calls and the store. *)
Definition settled (pool : list Interleaving.thread) (s : Store) : Prop :=
  NoDup (map id (secure_download_tokens s))
  /\ within_quota (secure_download_tokens s)
  /\ Forall (thread_ok (quota_of (secure_download_tokens s))) pool.

End Invariants.

(** ** Sample data *)

Module Samples.

Import SecureDownloads.

(** A grant with one download left, expiring at instant 1000. *)
Definition sample_token : SecureDownloadToken :=
  {| id := "id-1"; token := "tok-1"; document_id := "doc-1";
     recipient_email := "a@b.com"; order_id := "order-1";
     expires_at := 1000; max_downloads := 3; download_count := 2;
     is_active := true; created_at := 0; updated_at := 0 |}.

Definition sample_store : Store :=
  {| secure_download_tokens := [sample_token]; download_attempts := [] |}.

(** Ten calls presenting the right identity for [sample_token], before its
    expiry. *)
Definition ten_calls : list Interleaving.Call :=
  repeat {| Interleaving.c_now := 500; Interleaving.c_token := "tok-1";
            Interleaving.c_email := "a@b.com";
            Interleaving.c_ip := None; Interleaving.c_ua := None |} 10.

(** All ten selects are served first, then all audit inserts, then all
    updates. *)
Definition selects_first : list nat :=
  (seq 0 10 ++ seq 0 10 ++ seq 0 10)%list.

(** Each call is served from start to end before the next one starts. *)
Definition one_by_one : list nat :=
  flat_map (fun i => [i; i; i]) (seq 0 10).

(** A token generator that answers ["tok-1"], the token of [sample_token],
    to its first call and ["tok-2"] to every later call. *)
Definition colliding_generator (n : nat) : Draw :=
  match n with
  | O => {| rpc := RpcData "tok-1"; new_id := "id-2"; on_insert := Resolves |}
  | _ => {| rpc := RpcData "tok-2"; new_id := "id-3"; on_insert := Resolves |}
  end.







(** The zone of Universal Time. *)
Definition utc : Js.TimeZone :=
  {| Js.LocalTime := fun t => t; Js.UTC := fun t => t |}.

Definition sample_document : Document :=
  {| doc_id := "doc-9"; doc_name := "report.pdf"; doc_url := "https://files/9" |}.

Definition no_options : PartialConfig :=
  {| expirationHours_opt := None; maxDownloads_opt := None;
     requireEmailVerification_opt := None |}.

(** The store answers the audit insert with an error. *)
Definition audit_down : Faults :=
  {| on_select := Resolves; on_log := ResolvesWithError;
     on_update := Resolves; on_catch_log := Resolves |}.

(** The store answers the update of a grant with an error. *)
Definition update_down : Faults :=
  {| on_select := Resolves; on_log := Resolves;
     on_update := ResolvesWithError; on_catch_log := Resolves |}.

(** A session open between 9 and 18 o'clock, with no download made yet. *)
Definition sample_session : VerifyDownloadPage.Session :=
  {| Migration.SecureDownloadSessions.id := "sess-1";
     Migration.SecureDownloadSessions.token := "mfa-1";
     Migration.SecureDownloadSessions.recipient_email := "a@b.com";
     Migration.SecureDownloadSessions.order_id := Some "order-1";
     Migration.SecureDownloadSessions.verification_code := "123456";
     Migration.SecureDownloadSessions.expires_at := 1000;
     Migration.SecureDownloadSessions.max_downloads := Some 3;
     Migration.SecureDownloadSessions.download_count := Some 0;
     Migration.SecureDownloadSessions.is_verified := Some false;
     Migration.SecureDownloadSessions.is_active := Some true;
     Migration.SecureDownloadSessions.device_fingerprint := None;
     Migration.SecureDownloadSessions.allowed_ip_addresses := None;
     Migration.SecureDownloadSessions.download_window_start := Some 9;
     Migration.SecureDownloadSessions.download_window_end := Some 18;
     Migration.SecureDownloadSessions.created_at := Some 0;
     Migration.SecureDownloadSessions.updated_at := Some 0 |}.

Definition sample_tables : VerifyDownloadPage.Tables :=
  {| VerifyDownloadPage.secure_download_sessions := [sample_session];
     VerifyDownloadPage.session_documents := [] |}.

(** A stage due at instant 100, not unlocked yet. *)
Definition sample_unlock : Migration.ProgressiveUnlocks.t :=
  {| Migration.ProgressiveUnlocks.id := "unlock-1";
     Migration.ProgressiveUnlocks.session_id := Some "prog-1";
     Migration.ProgressiveUnlocks.review_stage := "review_2";
     Migration.ProgressiveUnlocks.unlock_time := 100;
     Migration.ProgressiveUnlocks.documents := "[]";
     Migration.ProgressiveUnlocks.is_unlocked := Some false;
     Migration.ProgressiveUnlocks.unlocked_at := None;
     Migration.ProgressiveUnlocks.created_at := Some 0 |}.

Definition sample_database : Migration.Database :=
  {| Migration.secure_download_sessions := [sample_session];
     Migration.blockchain_download_sessions := [];
     Migration.progressive_download_sessions := [];
     Migration.progressive_unlocks := [sample_unlock];
     Migration.customer_portals := [];
     Migration.qr_download_sessions := [] |}.

(** The page at step 3, holding its copy of [sample_session]. *)
Definition sample_page : VerifyDownloadPage.Page :=
  VerifyDownloadPage.setStep 3
    (VerifyDownloadPage.setSessionData sample_session
       (VerifyDownloadPage.initial "fp")).

Definition download_served : VerifyDownloadPage.DownloadFaults :=
  {| VerifyDownloadPage.on_document_update := Resolves;
     VerifyDownloadPage.on_session_update := Resolves;
     VerifyDownloadPage.on_refresh_session := Resolves;
     VerifyDownloadPage.on_refresh_docs := Resolves |}.

End Samples.


(** ** Further definitions used by the statements *)

Module More.

Import SecureDownloads.

(** The columns of a grant that no operation writes after the insert. *)
Definition fixed_columns (r : SecureDownloadToken)
  : string * string * string * string * string * Z * Z * Z :=
  (id r, token r, document_id r, recipient_email r, order_id r,
   expires_at r, max_downloads r, created_at r).

(** Verify calls made one after the other, each served in full by [env]. *)
Fixpoint verify_in_turn (env : Faults) (calls : list Interleaving.Call)
    (s : Store) : list (VerifyResult + exn) * Store :=
  match calls with
  | [] => ([], s)
  | c :: rest =>
      let (r, s1) :=
        verifyDownloadToken env (Interleaving.c_now c) (Interleaving.c_token c)
          (Interleaving.c_email c) (Interleaving.c_ip c) (Interleaving.c_ua c) s in
      let (rs, s2) := verify_in_turn env rest s1 in
      (r :: rs, s2)
  end.

(** What the caller of a verify call learns: [Some None] is ALLOW,
    [Some (Some why)] a denial, [None] a rejected promise. *)
Definition decision (x : VerifyResult + exn) : option (option string) :=
  match x with
  | inl r => Some (reason r)
  | inr _ => None
  end.

(** A call presents token [t], in time, under the identity of grant [td]. *)
Definition presents (t : string) (td : SecureDownloadToken)
    (c : Interleaving.Call) : Prop :=
  Interleaving.c_token c = t
  /\ Interleaving.c_now c <= expires_at td
  /\ Js.toLowerCase (Interleaving.c_email c) = Js.toLowerCase (recipient_email td).

(** The same environment with another outcome for the update. *)
Definition with_update (env : Faults) (u : outcome) : Faults :=
  {| on_select := on_select env; on_log := on_log env;
     on_update := u; on_catch_log := on_catch_log env |}.

(** The schedule on which each of [n] calls is served its first request,
    then each its second, then each its third. *)
Definition in_lockstep (n : nat) : list (nat * outcome) :=
  Interleaving.served (seq 0 n ++ seq 0 n ++ seq 0 n).

(** The result of an allowing call that read [td]. *)
Definition allowing (td : SecureDownloadToken) : VerifyResult :=
  {| valid := true; document := Some (document_id td); reason := None;
     tokenData := Some td |}.

(** The three requests of an allowing call that read [td]. *)
Definition logging (td : SecureDownloadToken) (c : Interleaving.Call) : Interleaving.thread :=
  Interleaving.AtLog (attempt_row (Interleaving.c_now c) (Some (id td)) (Interleaving.c_email c) true None
           (Interleaving.c_ip c) (Interleaving.c_ua c))
        (Interleaving.AtUpdate c (id td) (Interleaving.SetCount (download_count td + 1) (Interleaving.c_now c))
           (allowing td)).

Definition updating (td : SecureDownloadToken) (c : Interleaving.Call) : Interleaving.thread :=
  Interleaving.AtUpdate c (id td) (Interleaving.SetCount (download_count td + 1) (Interleaving.c_now c)) (allowing td).

Definition write_of (th : Interleaving.thread) (s : Store) : Store :=
  match th with
  | Interleaving.AtUpdate _ i p _ =>
      {| secure_download_tokens :=
           update_where_id i (Interleaving.apply_patch p) (secure_download_tokens s);
         download_attempts := download_attempts s |}
  | _ => s
  end.

Definition log_of (th : Interleaving.thread) (s : Store) : Store :=
  match th with
  | Interleaving.AtLog entry _ => Interleaving.append_attempt entry s
  | _ => s
  end.

(** The path found at the head of [s], if there is one. *)
Definition path_here (s : string) : option string :=
  match DocumentDownload.strip_prefix DocumentDownload.storage_prefix s with
  | Some rest =>
      if (negb (String.eqb rest EmptyString)
          && negb (DocumentDownload.has_line_terminator rest))%bool
      then Some rest else None
  | None => None
  end.

(** A denying result on the single-factor page never carries a grant. *)
Definition denials_carry_no_grant (p : SecureDownloadPage.Page) : Prop :=
  forall r, SecureDownloadPage.verificationResult p = Some r ->
            valid r = false -> tokenData r = None.

(** The columns of a session that the multi-factor page never writes. *)
Definition session_columns (r : VerifyDownloadPage.Session)
  : string * string * string * string * option Z * option bool :=
  (Migration.SecureDownloadSessions.id r,
   Migration.SecureDownloadSessions.token r,
   Migration.SecureDownloadSessions.recipient_email r,
   Migration.SecureDownloadSessions.verification_code r,
   Migration.SecureDownloadSessions.max_downloads r,
   Migration.SecureDownloadSessions.is_active r).

(** [active_session_with_token], read off these columns. *)
Definition active_columns (t : string)
    (c : string * string * string * string * option Z * option bool) : bool :=
  let '(_, tok, _, _, _, active) := c in
  (String.eqb tok t && Migration.sql_is active true)%bool.

(** The session on file that a page mounted with [token] resolves. *)
Definition session_on_file (token : string) (db : VerifyDownloadPage.Tables)
  : option VerifyDownloadPage.Session :=
  single (filter (VerifyDownloadPage.active_session_with_token token)
            (VerifyDownloadPage.secure_download_sessions db)).

(** What holds of the page and the tables all along a visit that started on
    the tables [db]: the page is at one of its three steps; nothing has been
    written before step 3; the page's copy of the session is the session on
    file up to the columns the page writes; past step 1 the typed email is
    the recipient's up to case; at step 3 the typed code is the session's. *)
Definition visit_invariant (token : string) (db : VerifyDownloadPage.Tables)
    (st : VerifyDownloadPage.Page * VerifyDownloadPage.Tables) : Prop :=
  let (p, cur) := st in
  map session_columns (VerifyDownloadPage.secure_download_sessions cur)
  = map session_columns (VerifyDownloadPage.secure_download_sessions db)
  /\ (VerifyDownloadPage.step p = 1 \/ VerifyDownloadPage.step p = 2
      \/ VerifyDownloadPage.step p = 3)
  /\ (VerifyDownloadPage.step p <> 3 -> cur = db)
  /\ (forall s, VerifyDownloadPage.sessionData p = Some s ->
        option_map session_columns (session_on_file token db)
        = Some (session_columns s))
  /\ (VerifyDownloadPage.step p <> 1 ->
      exists s, VerifyDownloadPage.sessionData p = Some s
        /\ Js.toLowerCase (VerifyDownloadPage.email p)
           = Js.toLowerCase (Migration.SecureDownloadSessions.recipient_email s))
  /\ (VerifyDownloadPage.step p = 3 ->
      exists s, VerifyDownloadPage.sessionData p = Some s
        /\ VerifyDownloadPage.verificationCode p
           = Migration.SecureDownloadSessions.verification_code s).

(** The [now()] of a scheduler run. *)
Definition run_at (j : Migration.job) : Z :=
  match j with
  | Migration.UnlockStages now => now
  | Migration.CleanupSessions now => now
  end.

(** The page at step 2 of a visit on [Samples.sample_session], with a code
    typed that is not the session's. *)
Definition page_with_wrong_code : VerifyDownloadPage.Page :=
  VerifyDownloadFlow.setVerificationCode "000000"
    (VerifyDownloadPage.setStep 2
       (VerifyDownloadPage.setSessionData Samples.sample_session
          (VerifyDownloadPage.initial "fp"))).

(** Link [u] was pushed for the stored row [row] by an issuance to [e]
    under [cfg]. *)
Definition issued (baseUrl : string) (encodeURIComponent : string -> string)
    (cfg : SecureDownloadConfig) (e : string) (u : SecureUrl)
    (row : SecureDownloadToken) : Prop :=
  secureUrl u
  = baseUrl ++ "/secure-download/" ++ token row ++ "?email="
    ++ encodeURIComponent e
  /\ documentId u = document_id row
  /\ expiresAt u = expires_at row
  /\ recipient_email row = Js.toLowerCase e
  /\ max_downloads row = maxDownloads cfg
  /\ download_count row = 0
  /\ is_active row = true.




(** The [now()] of the first unlocking run of [jobs] that has reached the
    instant [t]. *)
Fixpoint first_run_reaching (t : Z) (jobs : list Migration.job) : option Z :=
  match jobs with
  | [] => None
  | Migration.UnlockStages now :: rest =>
      if t <=? now then Some now else first_run_reaching t rest
  | Migration.CleanupSessions _ :: rest => first_run_reaching t rest
  end.

(** A document kept in the storage bucket, and a world in which signing
    succeeds. *)
Definition storage_document : DocumentDownload.Document :=
  {| DocumentDownload.id := "doc-1"; DocumentDownload.name := "report.pdf";
     DocumentDownload.url :=
       "https://x.supabase.co/storage/v1/object/public/project-documents/a/report.pdf";
     DocumentDownload.size := Some 2048 |}.

Definition signing_world : DocumentDownload.DocumentWorld :=
  {| DocumentDownload.sign := DocumentDownload.Signed "https://signed/a";
     DocumentDownload.fetched := DocumentDownload.FetchRejects |}.

End More.

(** * The lower-case conversion *)

Module JsFacts.

Import Js.



Ltac decide_tests :=
  repeat match goal with
         | |- context [(?a <? ?b)%N] => destruct (N.ltb_spec a b); try lia
         | |- context [(?a <=? ?b)%N] => destruct (N.leb_spec a b); try lia
         end.











(** *** Lower-case forms are in lower case *)












End JsFacts.
(** * Properties of [verifyDownloadToken] *)

Module TokenFacts.

Import SecureDownloads Spec Samples.


Ltac unfold_verify :=
  unfold verifyDownloadToken, logDownloadAttempt, try_catch, bind, ret,
    select_active_token, insert_attempt, update_token.




(** [logDownloadAttempt] never rejects and never touches the token table. *)
Lemma logDownloadAttempt_total o now i e ok why ip ua s :
  exists s', logDownloadAttempt o now i e ok why ip ua s = (inl tt, s')
             /\ secure_download_tokens s' = secure_download_tokens s.
Proof.
  unfold logDownloadAttempt, try_catch, insert_attempt, ret.
  destruct o; simpl; eauto.
Qed.

(** C10.  Whatever happens to the audit inserts of a call (of the branch
    taken, or of the [catch] block), the call returns the same decision and
    leaves the same token table: [logDownloadAttempt] swallows the failure. *)
Theorem audit_failure_never_changes_outcome env l c now t e ip ua s :
  fst (verifyDownloadToken (with_logs env l c) now t e ip ua s)
  = fst (verifyDownloadToken env now t e ip ua s)
  /\ secure_download_tokens
       (snd (verifyDownloadToken (with_logs env l c) now t e ip ua s))
     = secure_download_tokens (snd (verifyDownloadToken env now t e ip ua s)).
Proof.
  unfold_verify. unfold with_logs. simpl.
  destruct (on_select env); simpl.
  - destruct (single _) as [td|]; simpl.
    + destruct (now >? expires_at td); simpl.
      * destruct l, (on_log env), (on_update env), c, (on_catch_log env);
          simpl; auto.
      * destruct (negb _); simpl.
        { destruct l, (on_log env); simpl; auto. }
        destruct (download_count td >=? max_downloads td); simpl.
        { destruct l, (on_log env); simpl; auto. }
        destruct l, (on_log env), (on_update env), c, (on_catch_log env);
          simpl; auto.
    + destruct l, (on_log env); simpl; auto.
  - destruct l, (on_log env); simpl; auto.
  - destruct c, (on_catch_log env); simpl; auto.
Qed.

(** A call that resolves an expired grant, in full: what it returns and
    what it leaves in the store, for every way its requests can end.  The
    result of the update is not read: the call reports the expiry whether or
    not the grant was deactivated, unless the update rejects. *)
Lemma expired_call env now t e ip ua s td :
  on_select env = Resolves ->
  single (filter (active_with_token t) (secure_download_tokens s)) = Some td ->
  now > expires_at td ->
  verifyDownloadToken env now t e ip ua s
  = (inl (deny (match on_update env with
                | Rejects => "System error occurred"
                | _ => "Download link has expired"
                end)),
     {| secure_download_tokens :=
          match on_update env with
          | Resolves =>
              update_where_id (id td) (set_inactive now)
                (secure_download_tokens s)
          | _ => secure_download_tokens s
          end;
        download_attempts :=
          (download_attempts s
           ++ match on_log env with
              | Resolves =>
                  [attempt_row now (Some (id td)) e false
                     (Some "Token expired") ip ua]
              | _ => []
              end
           ++ match on_update env, on_catch_log env with
              | Rejects, Resolves =>
                  [attempt_row now None e false (Some "System error") ip ua]
              | _, _ => []
              end)%list |}).
Proof.
  intros Hsel Hres Hexp.
  assert (Hgt : (now >? expires_at td) = true) by (apply Z.gtb_lt; lia).
  unfold_verify. rewrite Hsel, Hres. simpl. rewrite Hgt. simpl.
  destruct s as [tokens attempts].
  destruct (on_log env), (on_update env), (on_catch_log env); simpl;
    rewrite ?app_nil_r, <- ?app_assoc; reflexivity.
Qed.

Lemma single_filter_in {A} (p : A -> bool) rows x :
  single (filter p rows) = Some x -> In x rows /\ p x = true.
Proof.
  intros H. apply filter_In.
  destruct (filter p rows) as [|y [|z l]]; try discriminate.
  injection H as ->. now left.
Qed.

(** C3 as stated does not hold: when the store answers the update with an
    error, the call on the expired grant returns the Expired denial and the
    grant stays active. *)
Lemma expired_grant_can_stay_active : ~ expired_grant_always_deactivated.
Proof.
  intros H.
  destruct (H update_down 1500 "tok-1" "a@b.com" None None sample_store
              sample_token) as [_ [A _]]; [reflexivity | reflexivity |].
  specialize (A sample_token). vm_compute in A.
  assert (F : true = false) by (apply A; [now left | reflexivity]).
  discriminate F.
Qed.

(** C3, as the code has it.  A call that resolves an active grant whose
    [expires_at] lies before the call's clock asks the store to set
    [is_active = false] on the grant's row and does not read the answer.
    Unless that update rejects, the call returns the Expired denial; the row
    is inactive afterwards exactly when the update was served, and is left
    as it was, active, otherwise.  When the update rejects the call returns
    the system error.  The audit entry of the attempt is appended when its
    insert is served, and the entry of the system error after it when the
    update rejects and that insert is served. *)
Theorem expired_grant_is_deactivated env now t e ip ua s td :
  on_select env = Resolves ->
  single (filter (active_with_token t) (secure_download_tokens s)) = Some td ->
  now > expires_at td ->
  let out := verifyDownloadToken env now t e ip ua s in
  fst out
  = inl (deny (match on_update env with
               | Rejects => "System error occurred"
               | _ => "Download link has expired"
               end))
  /\ (on_update env = Resolves ->
      secure_download_tokens (snd out)
      = update_where_id (id td) (set_inactive now) (secure_download_tokens s)
      /\ (forall r, In r (secure_download_tokens (snd out)) ->
                    id r = id td -> is_active r = false)
      /\ In (set_inactive now td) (secure_download_tokens (snd out)))
  /\ (on_update env <> Resolves ->
      secure_download_tokens (snd out) = secure_download_tokens s
      /\ In td (secure_download_tokens (snd out))
      /\ is_active td = true)
  /\ download_attempts (snd out)
     = (download_attempts s
        ++ match on_log env with
           | Resolves =>
               [attempt_row now (Some (id td)) e false (Some "Token expired")
                  ip ua]
           | _ => []
           end
        ++ match on_update env, on_catch_log env with
           | Rejects, Resolves =>
               [attempt_row now None e false (Some "System error") ip ua]
           | _, _ => []
           end)%list.
Proof.
  intros Hsel Hres Hexp out. subst out.
  rewrite (expired_call env now t e ip ua s td Hsel Hres Hexp). simpl.
  destruct (single_filter_in _ _ _ Hres) as [Hin Hact].
  split; [reflexivity|]. split; [|split; [|reflexivity]].
  - intros U. rewrite U. split; [reflexivity|]. split.
    + intros r Hr Hid. unfold update_where_id in Hr.
      apply in_map_iff in Hr. destruct Hr as [r0 [E _]].
      destruct (String.eqb (id r0) (id td)) eqn:Q.
      * subst r. reflexivity.
      * subst r. apply String.eqb_neq in Q. contradiction.
    + unfold update_where_id. apply in_map_iff. exists td. split; auto.
      now rewrite String.eqb_refl.
  - intros U.
    assert (A : is_active td = true).
    { unfold active_with_token in Hact. apply andb_prop in Hact.
      destruct Hact as [_ A]. now destruct (is_active td). }
    destruct (on_update env); try congruence; auto.
Qed.

Lemma expired_grant_is_deactivated_witness :
  let out := verifyDownloadToken reliable 1500 "tok-1" "a@b.com" None None
               sample_store in
  fst out
  = inl (deny (match on_update reliable with
               | Rejects => "System error occurred"
               | _ => "Download link has expired"
               end))
  /\ (on_update reliable = Resolves ->
      secure_download_tokens (snd out)
      = update_where_id (id sample_token) (set_inactive 1500)
          (secure_download_tokens sample_store)
      /\ (forall r, In r (secure_download_tokens (snd out)) ->
                    id r = id sample_token -> is_active r = false)
      /\ In (set_inactive 1500 sample_token) (secure_download_tokens (snd out)))
  /\ (on_update reliable <> Resolves ->
      secure_download_tokens (snd out) = secure_download_tokens sample_store
      /\ In sample_token (secure_download_tokens (snd out))
      /\ is_active sample_token = true)
  /\ download_attempts (snd out)
     = (download_attempts sample_store
        ++ match on_log reliable with
           | Resolves =>
               [attempt_row 1500 (Some (id sample_token)) "a@b.com" false
                  (Some "Token expired") None None]
           | _ => []
           end
        ++ match on_update reliable, on_catch_log reliable with
           | Rejects, Resolves =>
               [attempt_row 1500 None "a@b.com" false (Some "System error")
                  None None]
           | _, _ => []
           end)%list.
Proof.
  apply (expired_grant_is_deactivated reliable 1500 "tok-1" "a@b.com" None None
           sample_store sample_token); try reflexivity.
Defined.

(** [verifyDownloadToken] never rejects: its [catch] block cannot throw. *)
Lemma verifyDownloadToken_total env now t e ip ua s :
  exists r s', verifyDownloadToken env now t e ip ua s = (inl r, s').
Proof.
  unfold_verify.
  destruct (on_select env); simpl.
  - destruct (single _) as [td|]; simpl.
    + destruct (now >? expires_at td); simpl.
      * destruct (on_log env), (on_update env), (on_catch_log env);
          simpl; eauto.
      * destruct (negb _); simpl.
        { destruct (on_log env); simpl; eauto. }
        destruct (download_count td >=? max_downloads td); simpl.
        { destruct (on_log env); simpl; eauto. }
        destruct (on_log env), (on_update env), (on_catch_log env);
          simpl; eauto.
    + destruct (on_log env); simpl; eauto.
  - destruct (on_log env); simpl; eauto.
  - destruct (on_catch_log env); simpl; eauto.
Qed.

(** C6 as stated does not hold: when the store answers the audit insert
    with an error, the call appends nothing to the audit log. *)
Lemma not_one_audit_entry_per_call : ~ one_audit_entry_per_call.
Proof.
  intros H.
  destruct (H audit_down 500 "tok-1" "a@b.com" None None sample_store)
    as [entry E].
  vm_compute in E. discriminate E.
Qed.

(** C6, as the code has it.  When the audit inserts of a call succeed and no
    update rejects, the call appends exactly one audit entry, on every branch:
    it carries the lower-cased attempted identity, the client hints, the
    success flag of the decision, the audit wording of the returned reason,
    and the key of the resolved grant, null when the token does not resolve
    or the select rejects. *)
Theorem one_audit_entry_when_insert_succeeds env now t e ip ua s :
  on_log env = Resolves -> on_catch_log env = Resolves ->
  on_update env <> Rejects ->
  exists r s',
    verifyDownloadToken env now t e ip ua s = (inl r, s')
    /\ download_attempts s'
       = (download_attempts s
          ++ [ {| token_id := option_map id (resolved env t s);
                  attempted_email := Js.toLowerCase e;
                  ip_address := ip;
                  user_agent := ua;
                  success := valid r;
                  failure_reason := option_map audit_reason (reason r);
                  attempted_at := now |} ])%list.
Proof.
  intros Hlog Hcatch Hupd.
  unfold_verify. unfold resolved, attempt_row. rewrite Hlog, Hcatch.
  destruct (on_select env); simpl.
  - destruct (single _) as [td|]; simpl.
    + destruct (now >? expires_at td); simpl.
      * destruct (on_update env); simpl; try congruence;
          eexists; eexists; split; reflexivity.
      * destruct (negb _); simpl.
        { eexists; eexists; split; reflexivity. }
        destruct (download_count td >=? max_downloads td); simpl.
        { eexists; eexists; split; reflexivity. }
        destruct (on_update env); simpl; try congruence;
          eexists; eexists; split; reflexivity.
    + eexists; eexists; split; reflexivity.
  - eexists; eexists; split; reflexivity.
  - eexists; eexists; split; reflexivity.
Qed.

Lemma one_audit_entry_when_insert_succeeds_witness :
  exists r s',
    verifyDownloadToken reliable 500 "tok-1" "A@B.com" None None sample_store
    = (inl r, s')
    /\ download_attempts s'
       = [ {| token_id := Some "id-1";
              attempted_email := "a@b.com";
              ip_address := None;
              user_agent := None;
              success := valid r;
              failure_reason := option_map audit_reason (reason r);
              attempted_at := 500 |} ].
Proof.
  apply (one_audit_entry_when_insert_succeeds reliable 500 "tok-1" "A@B.com"
           None None sample_store); [reflexivity | reflexivity | discriminate].
Defined.

(** The reason a call returns is the reason of the first failing check, in
    the order resolution, expiry, identity, quota; the call allows exactly
    when no check fails. *)
Lemma verify_reason_in_order env now t e ip ua s :
  on_select env <> Rejects -> on_update env <> Rejects ->
  exists r s',
    verifyDownloadToken env now t e ip ua s = (inl r, s')
    /\ reason r = reason_in_order (resolved env t s) now e
    /\ valid r = match reason r with None => true | Some _ => false end.
Proof.
  intros Hsel Hupd.
  unfold_verify.
  unfold resolved, reason_in_order, first_failing, token_checks,
    identity_mismatch.
  destruct (on_select env); simpl; try congruence.
  - destruct (single _) as [td|]; simpl.
    + destruct (now >? expires_at td); simpl.
      * destruct (on_log env), (on_update env); simpl; try congruence; eauto.
      * destruct (negb _); simpl.
        { destruct (on_log env); simpl; eauto. }
        destruct (download_count td >=? max_downloads td); simpl.
        { destruct (on_log env); simpl; eauto. }
        destruct (on_log env), (on_update env); simpl; try congruence; eauto.
    + destruct (on_log env); simpl; eauto.
  - destruct (on_log env); simpl; eauto.
Qed.

End TokenFacts.

(** * The order of the checks *)

Module PageFacts.

Import VerifyDownloadPage Spec Invariants Samples.

(** Outside the download window the page denies on mount, before any
    identity has been typed. *)
Example visit_outside_window :
  error (visit Resolves Resolves 500 20 "mfa-1" "x@y.com" "fp" sample_tables)
  = Some "Downloads are only allowed between 9:00 and 18:00".
Proof. vm_compute. reflexivity. Qed.

(** C2 as stated does not hold: on a session that resolves and has not
    expired, presented outside its download window with a mismatching
    identity, the page reports the window, not the identity. *)
Lemma window_reported_before_identity : ~ identity_reported_before_window.
Proof.
  intros H.
  specialize (H Resolves 500 20 "mfa-1" "x@y.com" "fp" sample_tables
                sample_session).
  assert (E : error (visit Resolves Resolves 500 20 "mfa-1" "x@y.com" "fp"
                       sample_tables)
              = Some "Email address does not match the authorized recipient").
  { apply H; [reflexivity | reflexivity | discriminate | reflexivity]. }
  rewrite visit_outside_window in E. discriminate E.
Qed.

(** The denial a visitor reads is the reason of the first failing check, in
    the order resolution, expiry, download window, identity. *)
Lemma visit_reason_in_order o_session o_docs now currentHour token typed fp db :
  o_session <> Rejects -> o_docs <> Rejects -> typed <> EmptyString ->
  error (visit o_session o_docs now currentHour token typed fp db)
  = page_reason_in_order (resolved_session o_session token db)
      now currentHour typed.
Proof.
  intros Hs Hd Ht.
  assert (Hne : String.eqb typed EmptyString = false) by (now apply String.eqb_neq).
  unfold visit, checkSession, resolved_session, page_reason_in_order,
    first_failing, page_checks, session_expired, session_identity_mismatch,
    identity_mismatch.
  destruct o_session; try congruence; simpl.
  - destruct (single _) as [session|]; simpl; [|reflexivity].
    destruct (_ <? now); simpl; [reflexivity|].
    destruct (outside_window currentHour session); simpl; [reflexivity|].
    destruct o_docs; try congruence; simpl;
      unfold handleEmailVerification; simpl; rewrite Hne;
      rewrite (String.eqb_sym (Js.toLowerCase typed));
      destruct (String.eqb _ (Js.toLowerCase typed)); reflexivity.
  - reflexivity.
Qed.

(** C2, as the code has it.  A verify call reports the first failing check
    in the order resolution among active records, expiry, identity, quota,
    and nothing else; a visit of the multi-factor page reports the first
    failing check in the order resolution, expiry, download window,
    identity. *)
Theorem checks_run_in_code_order :
  (forall env now t e ip ua s,
      SecureDownloads.on_select env <> Rejects ->
      SecureDownloads.on_update env <> Rejects ->
      exists r s',
        SecureDownloads.verifyDownloadToken env now t e ip ua s = (inl r, s')
        /\ SecureDownloads.reason r = reason_in_order (resolved env t s) now e
        /\ SecureDownloads.valid r
           = match SecureDownloads.reason r with
             | None => true
             | Some _ => false
             end)
  /\ (forall o_session o_docs now currentHour token typed fp db,
         o_session <> Rejects -> o_docs <> Rejects -> typed <> EmptyString ->
         error (visit o_session o_docs now currentHour token typed fp db)
         = page_reason_in_order (resolved_session o_session token db)
             now currentHour typed).
Proof.
  split.
  - intros. now apply TokenFacts.verify_reason_in_order.
  - intros. now apply visit_reason_in_order.
Qed.

Lemma checks_run_in_code_order_witness :
  (exists r s',
      SecureDownloads.verifyDownloadToken SecureDownloads.reliable 1500 "tok-1"
        "x@y.com" None None sample_store = (inl r, s')
      /\ SecureDownloads.reason r = Some "Download link has expired"
      /\ SecureDownloads.valid r
         = match SecureDownloads.reason r with
           | None => true
           | Some _ => false
           end)
  /\ error (visit Resolves Resolves 500 20 "mfa-1" "x@y.com" "fp" sample_tables)
     = Some "Downloads are only allowed between 9:00 and 18:00".
Proof.
  split.
  - apply (proj1 checks_run_in_code_order SecureDownloads.reliable 1500 "tok-1"
             "x@y.com" None None sample_store); discriminate.
  - apply (proj2 checks_run_in_code_order Resolves Resolves 500 20 "mfa-1"
             "x@y.com" "fp" sample_tables); discriminate.
Defined.

(** What [handleDownload] does to the session table: nothing, or the
    write of the page's copy of the counter plus one. *)
Lemma handleDownload_sessions env now currentHour token documentId db p :
  secure_download_sessions
    (snd (handleDownload env now currentHour token documentId db p))
  = secure_download_sessions db
  \/ exists session,
       sessionData p = Some session
       /\ secure_download_sessions
            (snd (handleDownload env now currentHour token documentId db p))
          = Migration.update_where
              (fun r => String.eqb (Migration.SecureDownloadSessions.id r)
                          (Migration.SecureDownloadSessions.id session))
              (set_session_count
                 (js_num (Migration.SecureDownloadSessions.download_count session)
                  + 1) now)
              (secure_download_sessions db).
Proof.
  unfold handleDownload.
  destruct (on_document_update env); simpl; auto;
    destruct (sessionData p) as [session|]; simpl; auto;
    destruct (on_session_update env); simpl; auto;
    right; exists session; auto.
Qed.

(** A download started from the enabled button writes a session counter that
    is within the quota: the button is disabled as soon as the page's copy of
    the counter has reached the quota.  The counter written is that copy plus
    one, whatever the stored row holds by then. *)
Lemma handleDownload_keeps_quota env now currentHour token documentId db p session :
  sessionData p = Some session ->
  download_disabled p = false ->
  quota_agrees session (secure_download_sessions db) ->
  sessions_within_quota (secure_download_sessions db) ->
  sessions_within_quota
    (secure_download_sessions
       (snd (handleDownload env now currentHour token documentId db p))).
Proof.
  intros Hs Hb Hq W.
  destruct (handleDownload_sessions env now currentHour token documentId db p)
    as [->|[session' [Hs' ->]]]; [exact W|].
  rewrite Hs in Hs'. injection Hs' as <-.
  unfold download_disabled in Hb. rewrite Hs in Hb.
  rewrite Z.geb_leb in Hb. apply Z.leb_gt in Hb.
  intros r Hr. unfold Migration.update_where in Hr.
  apply in_map_iff in Hr. destruct Hr as [r0 [<- Hr0]].
  destruct (String.eqb _ _) eqn:E; [|now apply W].
  apply String.eqb_eq in E. simpl. rewrite (Hq r0 Hr0 E). lia.
Qed.


End PageFacts.

(** * Deactivation is final *)

Module HistoryFacts.

Import SecureDownloads Lifecycle Spec Invariants Samples.

Lemma keeps_id : keeps (fun r => r).
Proof. intros r. auto. Qed.

Lemma keeps_set_inactive now : keeps (set_inactive now).
Proof. intros r. simpl. repeat split; auto. discriminate. Qed.

Lemma keeps_set_download_count n now : keeps (set_download_count n now).
Proof. intros r. simpl. auto. Qed.

Lemma keeps_cond (c : SecureDownloadToken -> bool) f :
  keeps f -> keeps (fun r => if c r then f r else r).
Proof. intros K r. destruct (c r); [apply K | apply keeps_id]. Qed.

Lemma not_true_false b : (b = true -> False) -> b = false.
Proof. destruct b; intuition. Qed.

Lemma dead_token_map t f rows :
  keeps f -> dead_token t rows -> dead_token t (map f rows).
Proof.
  intros K [[r [Hin Ht]] Hall]. split.
  - exists (f r). split; [now apply in_map|]. now rewrite (proj1 (proj2 (K r))).
  - intros r' Hr' Ht'. apply in_map_iff in Hr'. destruct Hr' as [r0 [<- Hin0]].
    destruct (K r0) as [_ [Kt Ka]]. rewrite Kt in Ht'.
    apply not_true_false. intros A. apply Ka in A.
    rewrite (Hall r0 Hin0 Ht') in A. discriminate.
Qed.

Lemma dead_id_map i f rows :
  keeps f -> dead_id i rows -> dead_id i (map f rows).
Proof.
  intros K [[r [Hin Hi]] Hall]. split.
  - exists (f r). split; [now apply in_map|]. now rewrite (proj1 (K r)).
  - intros r' Hr' Hi'. apply in_map_iff in Hr'. destruct Hr' as [r0 [<- Hin0]].
    destruct (K r0) as [Ki [_ Ka]]. rewrite Ki in Hi'.
    apply not_true_false. intros A. apply Ka in A.
    rewrite (Hall r0 Hin0 Hi') in A. discriminate.
Qed.

Lemma token_taken_false t rows r :
  token_taken t rows = false -> In r rows -> token r <> t.
Proof.
  unfold token_taken. intros H Hin E.
  assert (existsb (fun r0 => String.eqb (token r0) t) rows = true).
  { apply existsb_exists. exists r. split; auto. now apply String.eqb_eq. }
  congruence.
Qed.

Lemma id_taken_false i rows r :
  id_taken i rows = false -> In r rows -> id r <> i.
Proof.
  unfold id_taken. intros H Hin E.
  assert (existsb (fun r0 => String.eqb (id r0) i) rows = true).
  { apply existsb_exists. exists r. split; auto. now apply String.eqb_eq. }
  congruence.
Qed.

Lemma dead_token_insert t row rows :
  token_taken (token row) rows = false ->
  dead_token t rows -> dead_token t (rows ++ [row]).
Proof.
  intros Hfree [[r [Hin Ht]] Hall]. split.
  - exists r. split; auto. apply in_or_app. now left.
  - intros r' Hr' Ht'. apply in_app_or in Hr'. destruct Hr' as [Hr'|[<-|[]]].
    + now apply Hall.
    + exfalso. apply (token_taken_false _ _ _ Hfree Hin). congruence.
Qed.

Lemma dead_id_insert i row rows :
  id_taken (id row) rows = false ->
  dead_id i rows -> dead_id i (rows ++ [row]).
Proof.
  intros Hfree [[r [Hin Hi]] Hall]. split.
  - exists r. split; auto. apply in_or_app. now left.
  - intros r' Hr' Hi'. apply in_app_or in Hr'. destruct Hr' as [Hr'|[<-|[]]].
    + now apply Hall.
    + exfalso. apply (id_taken_false _ _ _ Hfree Hin). congruence.
Qed.

(** Every operation of the module preserves a property of the token table
    that survives such row updates and such inserts. *)
Section Preservation.

Variable P : list SecureDownloadToken -> Prop.
Hypothesis P_map : forall f rows, keeps f -> P rows -> P (map f rows).
Hypothesis P_insert :
  forall row rows,
    token_taken (token row) rows = false -> id_taken (id row) rows = false ->
    P rows -> P (rows ++ [row]).

Lemma P_update i f rows : keeps f -> P rows -> P (update_where_id i f rows).
Proof.
  intros K. unfold update_where_id.
  apply (P_map (fun r => if String.eqb (id r) i then f r else r)).
  now apply keeps_cond.
Qed.

Lemma logDownloadAttempt_tokens o now i e ok why ip ua s :
  secure_download_tokens (snd (logDownloadAttempt o now i e ok why ip ua s))
  = secure_download_tokens s.
Proof.
  unfold logDownloadAttempt, try_catch, insert_attempt, ret.
  destruct o; reflexivity.
Qed.

Lemma verify_preserves env now t e ip ua s :
  P (secure_download_tokens s) ->
  P (secure_download_tokens (snd (verifyDownloadToken env now t e ip ua s))).
Proof.
  intros HP.
  assert (U1 := P_update).
  unfold verifyDownloadToken, logDownloadAttempt, try_catch, bind, ret,
    select_active_token, insert_attempt, update_token.
  destruct (on_select env); simpl.
  - destruct (single _) as [td|]; simpl.
    + destruct (now >? expires_at td); simpl.
      * destruct (on_log env), (on_update env), (on_catch_log env);
          simpl; auto using keeps_set_inactive.
      * destruct (negb _); simpl.
        { destruct (on_log env); simpl; auto. }
        destruct (download_count td >=? max_downloads td); simpl.
        { destruct (on_log env); simpl; auto. }
        destruct (on_log env), (on_update env), (on_catch_log env);
          simpl; auto using keeps_set_download_count.
    + destruct (on_log env); simpl; auto.
  - destruct (on_log env); simpl; auto.
  - destruct (on_catch_log env); simpl; auto.
Qed.

Lemma revoke_preserves o now i s :
  P (secure_download_tokens s) ->
  P (secure_download_tokens (snd (revokeDownloadToken o now i s))).
Proof.
  intros HP. unfold revokeDownloadToken, try_catch, ret.
  destruct o; simpl; auto using P_update, keeps_set_inactive.
Qed.

Lemma cleanup_preserves now rows :
  P rows -> P (cleanup_expired_tokens now rows).
Proof.
  intros HP. unfold cleanup_expired_tokens.
  apply (P_map (fun r => if (expires_at r <? now) && Bool.eqb (is_active r) true
                         then set_inactive now r else r)); auto.
  apply keeps_cond, keeps_set_inactive.
Qed.

Lemma generate_one_preserves baseUrl enc zone d now cfg e ord doc s :
  P (secure_download_tokens s) ->
  exists pushed s',
    generate_one baseUrl enc zone d now cfg e ord doc s = (inl pushed, s')
    /\ P (secure_download_tokens s').
Proof.
  intros HP.
  unfold generate_one, try_catch, bind, ret, throw,
    rpc_generate_secure_token, insert_token.
  destruct (rpc d); simpl; eauto.
  destruct (Js.valid_date _); simpl; eauto.
  destruct (on_insert d); simpl; eauto.
  destruct (token_taken t (secure_download_tokens s)) eqn:T; simpl; eauto.
  destruct (id_taken (new_id d) (secure_download_tokens s)) eqn:I; simpl; eauto.
Qed.

Lemma generate_loop_preserves baseUrl enc zone oracle now cfg e ord docs :
  forall n s,
    P (secure_download_tokens s) ->
    exists out s',
      generate_loop baseUrl enc zone oracle n now cfg e ord docs s = (inl out, s')
      /\ P (secure_download_tokens s').
Proof.
  induction docs as [|doc rest IH]; intros n s HP; simpl.
  - unfold ret. eauto.
  - unfold bind at 1.
    destruct (generate_one_preserves baseUrl enc zone (oracle n) now cfg e ord doc s HP)
      as [pushed [s1 [E1 P1]]].
    rewrite E1. unfold bind at 1.
    destruct (IH (S n) s1 P1) as [out [s2 [E2 P2]]].
    rewrite E2. unfold ret. eauto.
Qed.

Lemma exec_preserves baseUrl enc zone o s :
  P (secure_download_tokens s) ->
  P (secure_download_tokens (exec baseUrl enc zone o s)).
Proof.
  intros HP. destruct o; simpl.
  - now apply verify_preserves.
  - now apply revoke_preserves.
  - destruct o; simpl; auto. now apply cleanup_preserves.
  - unfold generateSecureDownloadTokens.
    destruct (generate_loop_preserves baseUrl enc zone oracle now (finalConfig config)
                recipientEmail orderId documents 0%nat s HP) as [out [s' [E HP']]].
    now rewrite E.
Qed.

Lemma exec_all_preserves baseUrl enc zone ops :
  forall s,
    P (secure_download_tokens s) ->
    P (secure_download_tokens (exec_all baseUrl enc zone ops s)).
Proof.
  unfold exec_all.
  induction ops as [|o rest IH]; intros s HP; simpl; auto.
  apply IH. now apply exec_preserves.
Qed.

End Preservation.

Lemma filter_none {A} (f : A -> bool) l :
  (forall x, In x l -> f x = false) -> filter f l = [].
Proof.
  induction l as [|a l IH]; intros H; simpl; [reflexivity|].
  rewrite (H a) by (now left). apply IH. intros x Hx. apply H. now right.
Qed.

Lemma dead_token_unresolvable t rows :
  dead_token t rows -> filter (active_with_token t) rows = [].
Proof.
  intros [_ Hall]. apply filter_none. intros r Hr. unfold active_with_token.
  destruct (String.eqb (token r) t) eqn:E; simpl; [|reflexivity].
  apply String.eqb_eq in E. now rewrite (Hall r Hr E).
Qed.

(** A call on a token without an active row is denied, with the InvalidToken
    reason unless the select rejects. *)
Lemma verify_dead_token env now t e ip ua s :
  dead_token t (secure_download_tokens s) ->
  exists out s',
    verifyDownloadToken env now t e ip ua s = (inl out, s')
    /\ valid out = false
    /\ (on_select env <> Rejects -> out = deny "Invalid or expired token").
Proof.
  intros D. apply dead_token_unresolvable in D.
  unfold verifyDownloadToken, logDownloadAttempt, try_catch, bind, ret,
    select_active_token, insert_attempt, update_token.
  rewrite D.
  destruct (on_select env); simpl.
  - destruct (on_log env); simpl; eauto 6.
  - destruct (on_log env); simpl; eauto 6.
  - destruct (on_catch_log env); simpl;
      (eexists; eexists; split; [reflexivity|split; [reflexivity|congruence]]).
Qed.

Lemma NoDup_map_same {A B} (f : A -> B) l a b :
  NoDup (map f l) -> In a l -> In b l -> f a = f b -> a = b.
Proof.
  induction l as [|x l IH]; simpl; intros ND Ha Hb E; [contradiction|].
  inversion ND as [|y m Hnot ND']; subst.
  destruct Ha as [->|Ha], Hb as [->|Hb]; auto.
  - exfalso. apply Hnot. rewrite E. now apply in_map.
  - exfalso. apply Hnot. rewrite <- E. now apply in_map.
Qed.

(** C4.  Once the grant of a token is inactive, however it got there, then
    after any history of verify calls, revocations, expiry sweeps and
    issuances, under any behaviour of the store, a verify call on that token
    returns a denial, and the grant's row is still on file with
    [is_active = false]. *)
Theorem inactive_grant_stays_denied baseUrl enc zone s r ops env now e ip ua :
  NoDup (map token (secure_download_tokens s)) ->
  NoDup (map id (secure_download_tokens s)) ->
  In r (secure_download_tokens s) ->
  is_active r = false ->
  let s' := exec_all baseUrl enc zone ops s in
  (exists out s'',
      verifyDownloadToken env now (token r) e ip ua s' = (inl out, s'')
      /\ valid out = false)
  /\ (exists r', In r' (secure_download_tokens s') /\ id r' = id r)
  /\ (forall r', In r' (secure_download_tokens s') -> id r' = id r ->
                 is_active r' = false).
Proof.
  intros NDt NDi Hin Hoff s'.
  assert (Dt : dead_token (token r) (secure_download_tokens s)).
  { split; [now exists r|]. intros r' Hr' E.
    now rewrite (NoDup_map_same token _ r' r NDt Hr' Hin E). }
  assert (Di : dead_id (id r) (secure_download_tokens s)).
  { split; [now exists r|]. intros r' Hr' E.
    now rewrite (NoDup_map_same id _ r' r NDi Hr' Hin E). }
  assert (Dt' : dead_token (token r) (secure_download_tokens s')).
  { apply (exec_all_preserves (dead_token (token r))); auto.
    - intros f rows. apply dead_token_map.
    - intros row rows Ht _. now apply dead_token_insert. }
  assert (Di' : dead_id (id r) (secure_download_tokens s')).
  { apply (exec_all_preserves (dead_id (id r))); auto.
    - intros f rows. apply dead_id_map.
    - intros row rows _ Hi. now apply dead_id_insert. }
  split; [|exact Di'].
  destruct (verify_dead_token env now (token r) e ip ua s' Dt')
    as [out [s'' [E [V _]]]].
  eauto.
Qed.

Lemma inactive_grant_stays_denied_witness :
  let r := set_inactive 7 sample_token in
  let s := {| secure_download_tokens := [r]; download_attempts := [] |} in
  let s' := exec_all "https://shop.example" (fun e => e) utc
              [Verify reliable 10 "tok-1" "a@b.com" None None;
               Cleanup Resolves 2000;
               Revoke Resolves 2001 "id-1"] s in
  (exists out s'',
      verifyDownloadToken reliable 20 "tok-1" "a@b.com" None None s'
      = (inl out, s'')
      /\ valid out = false)
  /\ (exists r', In r' (secure_download_tokens s') /\ id r' = "id-1")
  /\ (forall r', In r' (secure_download_tokens s') -> id r' = "id-1" ->
                 is_active r' = false).
Proof.
  apply (inactive_grant_stays_denied "https://shop.example" (fun e => e) utc
           {| secure_download_tokens := [set_inactive 7 sample_token];
              download_attempts := [] |}
           (set_inactive 7 sample_token)
           [Verify reliable 10 "tok-1" "a@b.com" None None;
            Cleanup Resolves 2000;
            Revoke Resolves 2001 "id-1"]
           reliable 20 "a@b.com" None None).
  - simpl. constructor; [intros []|constructor].
  - simpl. constructor; [intros []|constructor].
  - simpl. left. reflexivity.
  - reflexivity.
Defined.

(** C9 as stated does not hold: when the store answers the update of the
    first call with an error, the grant stays active and the next call
    returns the Expired reason again. *)
Lemma expired_reason_can_repeat : ~ expired_then_invalid.
Proof.
  intros H.
  destruct (H update_down 1500 "tok-1" "a@b.com" None None sample_store
              sample_token reliable 1600 "a@b.com" None None)
    as [_ [_ E]];
    [reflexivity | reflexivity | discriminate | discriminate | ].
  vm_compute in E. discriminate E.
Qed.

(** C9, as the code has it.  A call that resolves an expired grant returns
    the Expired reason unless its update rejects.  When that update is served
    the grant is inactive from then on, and after any further history every
    call on the token whose select does not reject returns the InvalidToken
    reason.  When the update is not served the grant is left as it was: it
    still resolves, and a call that follows returns the Expired reason
    again. *)
Theorem expired_once_then_invalid
    baseUrl enc zone env now t e ip ua s td ops env2 now2 e2 ip2 ua2 :
  on_select env = Resolves ->
  single (filter (active_with_token t) (secure_download_tokens s)) = Some td ->
  now > expires_at td ->
  on_select env2 <> Rejects ->
  let first := verifyDownloadToken env now t e ip ua s in
  (on_update env <> Rejects ->
   fst first = inl (deny "Download link has expired"))
  /\ (on_update env = Resolves ->
      (forall r, In r (secure_download_tokens (snd first)) -> token r = t ->
                 is_active r = false)
      /\ fst (verifyDownloadToken env2 now2 t e2 ip2 ua2
                (exec_all baseUrl enc zone ops (snd first)))
         = inl (deny "Invalid or expired token"))
  /\ (on_update env <> Resolves ->
      single (filter (active_with_token t)
                (secure_download_tokens (snd first))) = Some td
      /\ (on_select env2 = Resolves -> on_update env2 <> Rejects ->
          now2 > expires_at td ->
          fst (verifyDownloadToken env2 now2 t e2 ip2 ua2 (snd first))
          = inl (deny "Download link has expired"))).
Proof.
  intros Hsel Hres Hexp Hsel2 first. subst first.
  rewrite (TokenFacts.expired_call env now t e ip ua s td Hsel Hres Hexp).
  simpl.
  assert (F : filter (active_with_token t) (secure_download_tokens s) = [td]).
  { destruct (filter _ _) as [|x [|y l]]; try discriminate.
    now injection Hres as ->. }
  destruct (TokenFacts.single_filter_in _ _ _ Hres) as [Hin Hact].
  assert (Htok : token td = t).
  { unfold active_with_token in Hact. apply andb_prop in Hact.
    now apply String.eqb_eq. }
  split; [|split].
  - intros U. destruct (on_update env); try congruence; reflexivity.
  - intros U. rewrite U.
    set (s1 := {| secure_download_tokens :=
                    update_where_id (id td) (set_inactive now)
                      (secure_download_tokens s);
                  download_attempts := _ |}).
    assert (D : dead_token t (secure_download_tokens s1)).
    { simpl. split.
      - exists (set_inactive now td). split; [|exact Htok].
        unfold update_where_id. apply in_map_iff. exists td.
        now rewrite String.eqb_refl.
      - intros r Hr Ht. unfold update_where_id in Hr.
        apply in_map_iff in Hr. destruct Hr as [r0 [Er Hr0]].
        destruct (String.eqb (id r0) (id td)) eqn:Q; subst r; [reflexivity|].
        apply not_true_false. intros A.
        assert (In r0 (filter (active_with_token t) (secure_download_tokens s))).
        { apply filter_In. split; auto. unfold active_with_token.
          rewrite A. simpl in Ht. rewrite Ht, String.eqb_refl. reflexivity. }
        rewrite F in H. destruct H as [<-|[]].
        rewrite String.eqb_refl in Q. discriminate. }
    split; [exact (proj2 D)|].
    assert (D' : dead_token t
                   (secure_download_tokens (exec_all baseUrl enc zone ops s1))).
    { apply (exec_all_preserves (dead_token t)); auto.
      - intros f rows. apply dead_token_map.
      - intros row rows Ht _. now apply dead_token_insert. }
    destruct (verify_dead_token env2 now2 t e2 ip2 ua2 _ D')
      as [out [s'' [E [_ R]]]].
    rewrite E. simpl. now rewrite (R Hsel2).
  - intros U.
    set (s1 := {| secure_download_tokens := _; download_attempts := _ |}).
    assert (T : secure_download_tokens s1 = secure_download_tokens s).
    { simpl. destruct (on_update env); try congruence; reflexivity. }
    assert (Hres1 : single (filter (active_with_token t)
                              (secure_download_tokens s1)) = Some td)
      by (now rewrite T).
    split; [exact Hres1|].
    intros S2 U2 Hexp2.
    rewrite (TokenFacts.expired_call env2 now2 t e2 ip2 ua2 s1 td S2 Hres1
               Hexp2).
    simpl. destruct (on_update env2); try congruence; reflexivity.
Qed.

Lemma expired_once_then_invalid_witness :
  let first := verifyDownloadToken update_down 1500 "tok-1" "a@b.com" None None
                 sample_store in
  (on_update update_down <> Rejects ->
   fst first = inl (deny "Download link has expired"))
  /\ (on_update update_down = Resolves ->
      (forall r, In r (secure_download_tokens (snd first)) ->
                 token r = "tok-1" -> is_active r = false)
      /\ fst (verifyDownloadToken reliable 1600 "tok-1" "a@b.com" None None
                (exec_all "https://shop.example" (fun e => e) utc
                   [Cleanup Resolves 1550] (snd first)))
         = inl (deny "Invalid or expired token"))
  /\ (on_update update_down <> Resolves ->
      single (filter (active_with_token "tok-1")
                (secure_download_tokens (snd first))) = Some sample_token
      /\ (on_select reliable = Resolves -> on_update reliable <> Rejects ->
          1600 > expires_at sample_token ->
          fst (verifyDownloadToken reliable 1600 "tok-1" "a@b.com" None None
                 (snd first))
          = inl (deny "Download link has expired"))).
Proof.
  apply (expired_once_then_invalid "https://shop.example" (fun e => e) utc
           update_down 1500 "tok-1" "a@b.com" None None sample_store
           sample_token [Cleanup Resolves 1550] reliable 1600 "a@b.com" None
           None);
    try reflexivity.
  discriminate.
Defined.

End HistoryFacts.

(** * The download counter and the quota *)

Module RaceFacts.

Import SecureDownloads Interleaving Spec Invariants Samples.

(** A call served without interruption is [verifyDownloadToken]. *)
Lemma run_alone_is_verify env c s :
  exists r s',
    run_alone env c s = (Returned r, s')
    /\ verifyDownloadToken env (c_now c) (c_token c) (c_email c)
         (c_ip c) (c_ua c) s = (inl r, s').
Proof.
  destruct env as [os ol ou oc].
  unfold run_alone, step_alone.
  unfold verifyDownloadToken, logDownloadAttempt, try_catch, bind, ret,
    select_active_token, insert_attempt, update_token. simpl.
  destruct os; simpl.
  - unfold after_select.
    destruct (single _) as [td|]; simpl.
    + destruct (c_now c >? expires_at td); simpl.
      * destruct ol, ou, oc; simpl; eauto.
      * destruct (negb _); simpl.
        { destruct ol; simpl; eauto. }
        destruct (download_count td >=? max_downloads td); simpl.
        { destruct ol; simpl; eauto. }
        destruct ol, ou, oc; simpl; eauto.
    + destruct ol; simpl; eauto.
  - destruct ol; simpl; eauto.
  - destruct oc; simpl; eauto.
Qed.

(** Ten calls racing for the last download of [sample_token]: when the
    selects are served first, all ten are allowed, and the counter ends at
    3. *)
Example ten_racing_calls :
  let out := run_schedule (served selects_first) (map AtSelect ten_calls) sample_store in
  allow_count (fst out) = 10%nat
  /\ map download_count (secure_download_tokens (snd out)) = [3].
Proof. vm_compute. split; reflexivity. Qed.

(** Served one by one, exactly one of the ten is allowed. *)
Example ten_calls_in_turn :
  let out := run_schedule (served one_by_one) (map AtSelect ten_calls) sample_store in
  allow_count (fst out) = 1%nat
  /\ map download_count (secure_download_tokens (snd out)) = [3].
Proof. vm_compute. split; reflexivity. Qed.

(** C1 as stated does not hold: the increment is a write of "the count read
    earlier, plus one", so calls that read before any of them writes are all
    allowed. *)
Lemma calls_race_past_quota : ~ quota_holds_under_races.
Proof.
  intros H.
  specialize (H sample_token ten_calls selects_first).
  assert (Q : 0 <= download_count sample_token <= max_downloads sample_token)
    by (simpl; lia).
  specialize (H Q).
  change {| secure_download_tokens := [sample_token]; download_attempts := [] |}
    with sample_store in H.
  destruct ten_racing_calls as [A _]. rewrite A in H. simpl in H. lia.
Qed.

Lemma quota_of_update i p rows :
  quota_of (update_where_id i (apply_patch p) rows) = quota_of rows.
Proof.
  unfold quota_of, update_where_id. rewrite map_map. apply map_ext.
  intros r. destruct (String.eqb (id r) i); [|reflexivity].
  destruct p; reflexivity.
Qed.

Lemma quota_of_ids rows : map fst (quota_of rows) = map id rows.
Proof. unfold quota_of. rewrite map_map. reflexivity. Qed.

Lemma in_quota_of j m rows :
  In (j, m) (quota_of rows) ->
  exists r, In r rows /\ id r = j /\ max_downloads r = m.
Proof.
  unfold quota_of. intros H. apply in_map_iff in H.
  destruct H as [r [E Hr]]. injection E as <- <-. eauto.
Qed.

Lemma NoDup_ids_same rows a b :
  NoDup (map id rows) -> In a rows -> In b rows -> id a = id b -> a = b.
Proof.
  induction rows as [|x l IH]; simpl; intros ND Ha Hb E; [contradiction|].
  inversion ND as [|y m Hnot ND']; subst.
  destruct Ha as [->|Ha], Hb as [->|Hb]; auto.
  - exfalso. apply Hnot. rewrite E. now apply in_map.
  - exfalso. apply Hnot. rewrite <- E. now apply in_map.
Qed.

Lemma single_in {A} (l : list A) x : single l = Some x -> In x l.
Proof.
  destruct l as [|a [|b l]]; simpl; try discriminate.
  intros [= ->]. now left.
Qed.

(** What a call plans after its select fits the quota it has read. *)
Lemma after_select_ok c rows :
  NoDup (map id rows) ->
  thread_ok (quota_of rows)
    (after_select c (single (filter (active_with_token (c_token c)) rows))).
Proof.
  intros ND. unfold after_select.
  destruct (single _) as [td|] eqn:S; simpl; [|exact I].
  apply single_in in S. apply filter_In in S. destruct S as [Hin _].
  destruct (c_now c >? expires_at td); simpl; [exact I|].
  destruct (negb _); simpl; [exact I|].
  destruct (download_count td >=? max_downloads td) eqn:Q; simpl; [exact I|].
  intros j m Hjm ->. apply in_quota_of in Hjm.
  destruct Hjm as [r [Hr [Hid <-]]].
  rewrite (NoDup_ids_same rows r td ND Hr Hin Hid).
  rewrite Z.geb_leb in Q. apply Z.leb_gt in Q. lia.
Qed.

(** One store request, however it ends, keeps keys and quotas, keeps the
    counters within their quotas, and leaves the call with a plan that
    fits. *)
Lemma step_keeps_quota o th s :
  NoDup (map id (secure_download_tokens s)) ->
  within_quota (secure_download_tokens s) ->
  thread_ok (quota_of (secure_download_tokens s)) th ->
  quota_of (secure_download_tokens (snd (step o th s)))
  = quota_of (secure_download_tokens s)
  /\ within_quota (secure_download_tokens (snd (step o th s)))
  /\ thread_ok (quota_of (secure_download_tokens s)) (fst (step o th s)).
Proof.
  intros ND W OK. destruct th as [c|entry next|c i p r|c|r]; simpl.
  - destruct o; simpl; repeat split; auto using after_select_ok.
  - destruct o; simpl; repeat split; auto.
  - destruct o; simpl; repeat split; auto using quota_of_update.
    intros r' Hr'. unfold update_where_id in Hr'.
    apply in_map_iff in Hr'. destruct Hr' as [r0 [<- Hr0]].
    destruct (String.eqb (id r0) i) eqn:E; [|now apply W].
    apply String.eqb_eq in E.
    destruct p as [now|n now]; simpl; [now apply W|].
    simpl in OK. apply (OK (id r0) (max_downloads r0)); auto.
    unfold quota_of. apply in_map_iff. now exists r0.
  - destruct o; simpl; repeat split; auto.
  - repeat split; auto.
Qed.

Lemma Forall_replace_nth {A} (P : A -> Prop) i x l :
  P x -> Forall P l -> Forall P (replace_nth i x l).
Proof.
  intros Px H. revert i. induction H as [|a l Pa Hl IH]; intros i.
  - destruct i; simpl; constructor.
  - destruct i; simpl; constructor; auto.
Qed.

Lemma Forall_nth_error {A} (P : A -> Prop) l i x :
  Forall P l -> nth_error l i = Some x -> P x.
Proof.
  intros H E. apply nth_error_In in E.
  rewrite Forall_forall in H. now apply H.
Qed.

Lemma step_pool_settled io pool s :
  settled pool s ->
  settled (fst (step_pool io pool s)) (snd (step_pool io pool s)).
Proof.
  intros [ND [W OK]]. unfold step_pool.
  destruct (nth_error pool (fst io)) as [th|] eqn:E; simpl; [|now repeat split].
  assert (T := Forall_nth_error _ _ _ _ OK E).
  destruct (step_keeps_quota (snd io) th s ND W T) as [Q [W' T']].
  destruct (step (snd io) th s) as [th' s'] eqn:S. simpl in *.
  repeat split; auto.
  - rewrite <- quota_of_ids, Q, quota_of_ids. exact ND.
  - rewrite Q. now apply Forall_replace_nth.
Qed.

Lemma run_schedule_settled schedule :
  forall pool s,
    settled pool s ->
    settled (fst (run_schedule schedule pool s))
            (snd (run_schedule schedule pool s)).
Proof.
  induction schedule as [|io rest IH]; intros pool s H; simpl; auto.
  assert (H' := step_pool_settled io pool s H).
  destruct (step_pool io pool s) as [pool' s']. simpl in H'.
  now apply IH.
Qed.

(** One call, whatever the store does to its requests, keeps the counters
    within their quotas. *)
Lemma verify_keeps_quota env now t e ip ua s :
  NoDup (map id (secure_download_tokens s)) ->
  within_quota (secure_download_tokens s) ->
  NoDup (map id (secure_download_tokens
                   (snd (verifyDownloadToken env now t e ip ua s))))
  /\ within_quota (secure_download_tokens
                     (snd (verifyDownloadToken env now t e ip ua s))).
Proof.
  intros ND W.
  assert (U : forall i p,
             patch_ok (quota_of (secure_download_tokens s)) i p ->
             NoDup (map id (update_where_id i (apply_patch p)
                              (secure_download_tokens s)))
             /\ within_quota (update_where_id i (apply_patch p)
                                (secure_download_tokens s))).
  { intros i p OK.
    destruct (step_keeps_quota Resolves
                (AtUpdate {| c_now := now; c_token := t; c_email := e;
                             c_ip := ip; c_ua := ua |} i p (deny "x"))
                s ND W OK) as [Q [W' _]].
    simpl in Q, W'. split; auto.
    rewrite <- quota_of_ids, Q, quota_of_ids. exact ND. }
  unfold verifyDownloadToken, logDownloadAttempt, try_catch, bind, ret,
    select_active_token, insert_attempt, update_token.
  destruct (on_select env); simpl.
  - destruct (single _) as [td|] eqn:S; simpl.
    + apply single_in in S. apply filter_In in S. destruct S as [Hin _].
      destruct (now >? expires_at td); simpl.
      * destruct (on_log env), (on_update env), (on_catch_log env);
          simpl; auto; apply (U (id td) (Deactivate now)); exact I.
      * destruct (negb _); simpl.
        { destruct (on_log env); simpl; auto. }
        destruct (download_count td >=? max_downloads td) eqn:Q; simpl.
        { destruct (on_log env); simpl; auto. }
        assert (OK : patch_ok (quota_of (secure_download_tokens s)) (id td)
                       (SetCount (download_count td + 1) now)).
        { simpl. intros j m Hjm ->. apply in_quota_of in Hjm.
          destruct Hjm as [r [Hr [Hid <-]]].
          rewrite (NoDup_ids_same _ r td ND Hr Hin Hid).
          rewrite Z.geb_leb in Q. apply Z.leb_gt in Q. lia. }
        destruct (on_log env), (on_update env), (on_catch_log env);
          simpl; auto; apply (U _ _ OK).
    + destruct (on_log env); simpl; auto.
  - destruct (on_log env); simpl; auto.
  - destruct (on_catch_log env); simpl; auto.
Qed.

(** C1, as the code has it.  On a table whose keys are unique and whose
    counters are within their quotas, the counters stay within their quotas
    after a verify call, whatever the store does to its requests, and after
    any number of verify calls whose store requests interleave in any order
    and end in any way; on the multi-factor page, a download started from the enabled
    button keeps the session counters within their quotas.  Every one of
    these increments writes a count read earlier plus one. *)
Theorem download_count_within_quota :
  (forall env now t e ip ua s,
      NoDup (map id (secure_download_tokens s)) ->
      within_quota (secure_download_tokens s) ->
      NoDup (map id (secure_download_tokens
                       (snd (verifyDownloadToken env now t e ip ua s))))
      /\ within_quota (secure_download_tokens
                         (snd (verifyDownloadToken env now t e ip ua s))))
  /\ (forall calls schedule s,
         NoDup (map id (secure_download_tokens s)) ->
         within_quota (secure_download_tokens s) ->
         within_quota
           (secure_download_tokens
              (snd (run_schedule schedule (map AtSelect calls) s))))
  /\ (forall env now currentHour token documentId db p session,
         VerifyDownloadPage.sessionData p = Some session ->
         VerifyDownloadPage.download_disabled p = false ->
         quota_agrees session (VerifyDownloadPage.secure_download_sessions db) ->
         sessions_within_quota (VerifyDownloadPage.secure_download_sessions db) ->
         sessions_within_quota
           (VerifyDownloadPage.secure_download_sessions
              (snd (VerifyDownloadPage.handleDownload env now currentHour token
                      documentId db p)))).
Proof.
  split; [|split].
  - intros. now apply verify_keeps_quota.
  - intros calls schedule s ND W.
    apply (run_schedule_settled schedule (map AtSelect calls) s).
    repeat split; auto.
    apply Forall_forall. intros th Hth. apply in_map_iff in Hth.
    destruct Hth as [c [<- _]]. exact I.
  - intros. eapply PageFacts.handleDownload_keeps_quota; eauto.
Qed.

Lemma download_count_within_quota_witness :
  within_quota
    (secure_download_tokens
       (snd (verifyDownloadToken reliable 500 "tok-1" "a@b.com" None None
               sample_store)))
  /\ within_quota
       (secure_download_tokens
          (snd (run_schedule (served selects_first) (map AtSelect ten_calls)
                  sample_store)))
  /\ sessions_within_quota
       (VerifyDownloadPage.secure_download_sessions
          (snd (VerifyDownloadPage.handleDownload download_served 500 10
                  "mfa-1" "doc-row-1" sample_tables sample_page))).
Proof.
  split; [|split].
  - apply (proj1 download_count_within_quota reliable 500 "tok-1" "a@b.com"
             None None sample_store);
      [ simpl; constructor; [intros []|constructor]
      | intros r [<-|[]]; simpl; lia ].
  - apply (proj1 (proj2 download_count_within_quota) ten_calls
             (served selects_first) sample_store);
      [ simpl; constructor; [intros []|constructor]
      | intros r [<-|[]]; simpl; lia ].
  - apply (proj2 (proj2 download_count_within_quota) download_served 500 10
             "mfa-1" "doc-row-1" sample_tables sample_page sample_session).
    + reflexivity.
    + reflexivity.
    + intros r [<-|[]] _. reflexivity.
    + intros r [<-|[]]. simpl. lia.
Defined.

End RaceFacts.

(** * Issuance and token collisions *)

Module IssueFacts.

Import SecureDownloads Spec Samples.

(** With the first generated token on file already, issuing one document
    calls the generator once, stores nothing, and resolves with an empty
    list. *)
Example issue_with_collision :
  generateSecureDownloadTokens "https://shop.example" (fun e => e) utc
    colliding_generator 0 [sample_document] "A@B.com" "order-1" no_options
    sample_store
  = (inl ([], 1%nat), sample_store).
Proof. vm_compute. reflexivity. Qed.

(** C8 as stated does not hold: the generator is not called a second time,
    although its next token is free, and the promise does not reject. *)
Lemma no_retry_no_TokenCollision : ~ retry_once_then_TokenCollision.
Proof.
  intros H.
  specialize (H "https://shop.example" (fun e => e) utc colliding_generator 0
                sample_document "A@B.com" "order-1" no_options sample_store
                "tok-1" "tok-2").
  destruct H as [_ H]; try reflexivity.
  destruct H as [u E]; [reflexivity|].
  rewrite issue_with_collision in E. discriminate E.
Qed.

(** One loop iteration never rejects, leaves the audit log alone, and either
    leaves the token table as it is and pushes nothing, or appends one row
    whose token and key were free and pushes one link. *)
Lemma generate_one_cases baseUrl enc zone d now cfg e ord doc s :
  (generate_one baseUrl enc zone d now cfg e ord doc s = (inl None, s))
  \/ (exists u row,
         generate_one baseUrl enc zone d now cfg e ord doc s
         = (inl (Some u),
            {| secure_download_tokens := secure_download_tokens s ++ [row];
               download_attempts := download_attempts s |})
         /\ token_taken (token row) (secure_download_tokens s) = false
         /\ id_taken (id row) (secure_download_tokens s) = false).
Proof.
  unfold generate_one, try_catch, bind, ret, throw,
    rpc_generate_secure_token, insert_token.
  destruct (rpc d); simpl; auto.
  destruct (Js.valid_date _); simpl; auto.
  destruct (on_insert d); simpl; auto.
  destruct (token_taken t (secure_download_tokens s)) eqn:T; simpl; auto.
  destruct (id_taken (new_id d) (secure_download_tokens s)) eqn:I; simpl; auto.
  right. eexists. eexists. split; [reflexivity|]. simpl. auto.
Qed.

(** An iteration whose generated token is on file pushes nothing and stores
    nothing, however the insert call ends. *)
Lemma generate_one_collision baseUrl enc zone d now cfg e ord doc s t0 :
  rpc d = RpcData t0 ->
  token_taken t0 (secure_download_tokens s) = true ->
  generate_one baseUrl enc zone d now cfg e ord doc s = (inl None, s).
Proof.
  intros R T.
  unfold generate_one, try_catch, bind, ret, throw,
    rpc_generate_secure_token, insert_token.
  rewrite R. simpl. destruct (Js.valid_date _); simpl; auto.
  destruct (on_insert d); simpl; auto.
  rewrite T. reflexivity.
Qed.

(** The loop never rejects, calls the generator once per document, only
    appends to the token table, and leaves the audit log alone. *)
Lemma generate_loop_appends baseUrl enc zone oracle now cfg e ord docs :
  forall n s,
  exists urls added,
    generate_loop baseUrl enc zone oracle n now cfg e ord docs s
    = (inl (urls, (n + List.length docs)%nat),
       {| secure_download_tokens := secure_download_tokens s ++ added;
          download_attempts := download_attempts s |})
    /\ List.length urls = List.length added
    /\ (List.length urls <= List.length docs)%nat.
Proof.
  induction docs as [|doc rest IH]; intros n s; simpl.
  - exists [], []. unfold ret. rewrite app_nil_r, Nat.add_0_r.
    destruct s; simpl. repeat split; auto.
  - unfold bind at 1.
    destruct (generate_one_cases baseUrl enc zone (oracle n) now cfg e ord doc s)
      as [E|[u [row [E _]]]]; rewrite E.
    + unfold bind at 1. destruct (IH (S n) s) as [urls [added [E2 [L1 L2]]]].
      rewrite E2. unfold ret. simpl. exists urls, added.
      rewrite Nat.add_succ_r. repeat split; auto.
    + unfold bind at 1.
      destruct (IH (S n) {| secure_download_tokens :=
                              secure_download_tokens s ++ [row];
                            download_attempts := download_attempts s |})
        as [urls [added [E2 [L1 L2]]]].
      rewrite E2. unfold ret. simpl. exists (u :: urls), (row :: added).
      rewrite Nat.add_succ_r, <- app_assoc. simpl.
      repeat split; auto. lia.
Qed.

(** C8, as the code has it.  Issuance never rejects, calls the token
    generator exactly once per document, only appends rows to the token
    table, so that no record on file is overwritten, and returns one link per
    row stored; a document whose generated token is already on file is
    passed over: no second token is generated for it, nothing is stored for
    it, no link and no error is returned for it, and the loop goes on with
    the next document. *)
Theorem collision_skips_the_document :
  (forall baseUrl enc zone oracle now docs e ord config s,
      exists urls added,
        generateSecureDownloadTokens baseUrl enc zone oracle now docs e ord config s
        = (inl (urls, List.length docs),
           {| secure_download_tokens := secure_download_tokens s ++ added;
              download_attempts := download_attempts s |})
        /\ List.length urls = List.length added)
  /\ (forall baseUrl enc zone oracle n now cfg e ord doc rest s t0,
         rpc (oracle n) = RpcData t0 ->
         token_taken t0 (secure_download_tokens s) = true ->
         generate_loop baseUrl enc zone oracle n now cfg e ord (doc :: rest) s
         = generate_loop baseUrl enc zone oracle (S n) now cfg e ord rest s).
Proof.
  split.
  - intros. unfold generateSecureDownloadTokens.
    destruct (generate_loop_appends baseUrl enc zone oracle now (finalConfig config)
                e ord docs 0%nat s) as [urls [added [E [L _]]]].
    exists urls, added. simpl in E. auto.
  - intros baseUrl enc zone oracle n now cfg e ord doc rest s t0 R T. simpl.
    unfold bind at 1.
    rewrite (generate_one_collision baseUrl enc zone (oracle n) now cfg e ord doc s
               t0 R T).
    unfold bind.
    destruct (generate_loop baseUrl enc zone oracle (S n) now cfg e ord rest s)
      as [[[urls calls]|x] s']; reflexivity.
Qed.

Lemma collision_skips_the_document_witness :
  generate_loop "https://shop.example" (fun e => e) utc colliding_generator 0 500
    DEFAULT_CONFIG "A@B.com" "order-1" [sample_document; sample_document]
    sample_store
  = generate_loop "https://shop.example" (fun e => e) utc colliding_generator 1 500
      DEFAULT_CONFIG "A@B.com" "order-1" [sample_document] sample_store.
Proof.
  apply (proj2 collision_skips_the_document "https://shop.example" (fun e => e) utc
           colliding_generator 0%nat 500 DEFAULT_CONFIG "A@B.com" "order-1"
           sample_document [sample_document] sample_store "tok-1");
    reflexivity.
Defined.

End IssueFacts.

(** * The maintenance functions *)

Module SweepFacts.

Import Migration Samples.

(** An [UPDATE ... WHERE cond] whose [SET] falsifies [cond] changes nothing
    when run again. *)
Lemma update_where_twice {A} (cond : A -> bool) (set : A -> A) rows :
  (forall r, cond r = true -> cond (set r) = false) ->
  update_where cond set (update_where cond set rows)
  = update_where cond set rows.
Proof.
  intros H. unfold update_where. rewrite map_map. apply map_ext.
  intros r. destruct (cond r) eqn:C.
  - now rewrite (H r C).
  - now rewrite C.
Qed.

Lemma due_unlock now u : due now (ProgressiveUnlocks.unlock now u) = false.
Proof. unfold due. simpl. apply andb_false_r. Qed.

Lemma stale_expired now expires : stale now expires (Some false) = false.
Proof. unfold stale. simpl. apply andb_false_r. Qed.

Lemma unlock_progressive_stages_twice now db :
  unlock_progressive_stages now (unlock_progressive_stages now db)
  = unlock_progressive_stages now db.
Proof.
  unfold unlock_progressive_stages. simpl. f_equal.
  apply update_where_twice. intros r _. apply due_unlock.
Qed.

Lemma cleanup_expired_sessions_twice now db :
  cleanup_expired_sessions now (cleanup_expired_sessions now db)
  = cleanup_expired_sessions now db.
Proof.
  unfold cleanup_expired_sessions. simpl.
  f_equal; apply update_where_twice; intros r _; apply stale_expired.
Qed.

(** The row at one position of [progressive_unlocks] after one job. *)
Lemma unlock_row_after_job j db i u :
  nth_error (progressive_unlocks db) i = Some u ->
  nth_error (progressive_unlocks (run_job j db)) i
  = Some (match j with
          | UnlockStages now =>
              if due now u then ProgressiveUnlocks.unlock now u else u
          | CleanupSessions _ => u
          end).
Proof.
  intros H. destruct j as [now|now]; simpl; [|exact H].
  unfold update_where. rewrite nth_error_map, H. reflexivity.
Qed.

(** Over any history of maintenance runs, a stage either stays as it was, or
    it was locked, one run found its unlock time passed, and the stage is
    what that single run made of it. *)
Lemma unlock_row_history jobs :
  forall db i u,
    nth_error (progressive_unlocks db) i = Some u ->
    exists u',
      nth_error (progressive_unlocks (run_jobs jobs db)) i = Some u'
      /\ (u' = u
          \/ (ProgressiveUnlocks.is_unlocked u = Some false
              /\ exists now,
                   In (UnlockStages now) jobs
                   /\ ProgressiveUnlocks.unlock_time u <= now
                   /\ u' = ProgressiveUnlocks.unlock now u)).
Proof.
  unfold run_jobs.
  induction jobs as [|j rest IH]; intros db i u H; simpl.
  - exists u. auto.
  - assert (H1 := unlock_row_after_job j db i u H).
    destruct (IH (run_job j db) i _ H1) as [u' [E D]].
    exists u'. split; [exact E|].
    destruct j as [now|now].
    + destruct (due now u) eqn:Due.
      * unfold due in Due. apply andb_prop in Due. destruct Due as [T L].
        apply Z.leb_le in T.
        assert (L' : ProgressiveUnlocks.is_unlocked u = Some false).
        { destruct (ProgressiveUnlocks.is_unlocked u) as [[|]|];
            simpl in L; try discriminate; reflexivity. }
        right. split; [exact L'|]. exists now.
        destruct D as [->|[Q _]]; [|simpl in Q; discriminate].
        repeat split; auto.
      * destruct D as [->|[L [now' [I [T ->]]]]]; [now left|].
        right. split; [exact L|]. exists now'. repeat split; auto.
    + destruct D as [->|[L [now' [I [T ->]]]]]; [now left|].
      right. split; [exact L|]. exists now'. repeat split; auto.
Qed.

(** What one unlocking run does to an entry: an entry whose unlock time has
    passed and whose flag is [false] is unlocked and stamped, every other
    entry is left as it is. *)
Lemma unlock_row_after_run now db i u :
  nth_error (progressive_unlocks db) i = Some u ->
  exists u',
    nth_error (progressive_unlocks (unlock_progressive_stages now db)) i
    = Some u'
    /\ (ProgressiveUnlocks.unlock_time u <= now ->
        ProgressiveUnlocks.is_unlocked u = Some false ->
        ProgressiveUnlocks.is_unlocked u' = Some true
        /\ ProgressiveUnlocks.unlocked_at u' = Some now
        /\ u' = ProgressiveUnlocks.unlock now u)
    /\ (now < ProgressiveUnlocks.unlock_time u
        \/ ProgressiveUnlocks.is_unlocked u <> Some false ->
        u' = u).
Proof.
  intros H.
  assert (R := unlock_row_after_job (UnlockStages now) db i u H).
  change (run_job (UnlockStages now) db)
    with (unlock_progressive_stages now db) in R.
  eexists. split; [exact R|]. unfold due. split.
  - intros T L. rewrite L. simpl.
    assert (E : (ProgressiveUnlocks.unlock_time u <=? now) = true)
      by (apply Z.leb_le; lia).
    rewrite E. simpl. auto.
  - intros [T|L].
    + assert (E : (ProgressiveUnlocks.unlock_time u <=? now) = false)
        by (apply Z.leb_gt; lia).
      rewrite E. reflexivity.
    + destruct (ProgressiveUnlocks.is_unlocked u) as [[|]|]; simpl;
        rewrite ?andb_false_r; try reflexivity.
      contradiction L. reflexivity.
Qed.

(** Over any history of runs an entry ends as the first unlocking run that
    had reached its unlock time made it, when its flag was [false] and there
    was such a run, and as it was otherwise. *)
Lemma unlock_row_in_the_end jobs :
  forall db i u,
    nth_error (progressive_unlocks db) i = Some u ->
    nth_error (progressive_unlocks (run_jobs jobs db)) i
    = Some (match ProgressiveUnlocks.is_unlocked u,
                  More.first_run_reaching (ProgressiveUnlocks.unlock_time u) jobs
            with
            | Some false, Some now => ProgressiveUnlocks.unlock now u
            | _, _ => u
            end).
Proof.
  unfold run_jobs.
  induction jobs as [|j rest IH]; intros db i u H; cbn [fold_left].
  - simpl. rewrite H. now destruct (ProgressiveUnlocks.is_unlocked u) as [[|]|].
  - assert (H1 := unlock_row_after_job j db i u H).
    rewrite (IH (run_job j db) i _ H1).
    destruct j as [now|now]; cbn [More.first_run_reaching]; [|reflexivity].
    unfold due.
    destruct (ProgressiveUnlocks.unlock_time u <=? now) eqn:T;
      destruct (ProgressiveUnlocks.is_unlocked u) as [[|]|] eqn:L;
      simpl; rewrite ?L; try reflexivity.
Qed.

(** C7.  Each maintenance function, run twice with the same [now()], leaves
    the database as one run does.  One unlocking run unlocks, and stamps with
    its [now()], every entry whose unlock time has passed and whose flag is
    [false], and leaves every other entry as it is.  Over any history of
    runs, an unlock entry that is unlocked stays exactly as it is; an entry
    that changes was locked, changed in a single run whose [now()] had
    reached its [unlock_time], and carries that run's [now()] as
    [unlocked_at]; and an entry ends as the first unlocking run that had
    reached its unlock time made it, when its flag was [false] and there was
    such a run, and as it was otherwise. *)
Theorem sweeps_idempotent_and_monotone :
  (forall now db,
      unlock_progressive_stages now (unlock_progressive_stages now db)
      = unlock_progressive_stages now db)
  /\ (forall now db,
         cleanup_expired_sessions now (cleanup_expired_sessions now db)
         = cleanup_expired_sessions now db)
  /\ (forall jobs db i u,
         nth_error (progressive_unlocks db) i = Some u ->
         exists u',
           nth_error (progressive_unlocks (run_jobs jobs db)) i = Some u'
           /\ (ProgressiveUnlocks.is_unlocked u = Some true -> u' = u)
           /\ (u' <> u ->
               ProgressiveUnlocks.is_unlocked u = Some false
               /\ ProgressiveUnlocks.is_unlocked u' = Some true
               /\ exists now,
                    In (UnlockStages now) jobs
                    /\ ProgressiveUnlocks.unlock_time u <= now
                    /\ ProgressiveUnlocks.unlocked_at u' = Some now
                    /\ u' = ProgressiveUnlocks.unlock now u))
  /\ (forall now db i u,
         nth_error (progressive_unlocks db) i = Some u ->
         exists u',
           nth_error (progressive_unlocks (unlock_progressive_stages now db)) i
           = Some u'
           /\ (ProgressiveUnlocks.unlock_time u <= now ->
               ProgressiveUnlocks.is_unlocked u = Some false ->
               ProgressiveUnlocks.is_unlocked u' = Some true
               /\ ProgressiveUnlocks.unlocked_at u' = Some now
               /\ u' = ProgressiveUnlocks.unlock now u)
           /\ (now < ProgressiveUnlocks.unlock_time u
               \/ ProgressiveUnlocks.is_unlocked u <> Some false ->
               u' = u))
  /\ (forall jobs db i u,
         nth_error (progressive_unlocks db) i = Some u ->
         nth_error (progressive_unlocks (run_jobs jobs db)) i
         = Some (match ProgressiveUnlocks.is_unlocked u,
                       More.first_run_reaching
                         (ProgressiveUnlocks.unlock_time u) jobs
                 with
                 | Some false, Some now => ProgressiveUnlocks.unlock now u
                 | _, _ => u
                 end))
  /\ (forall jobs db,
         List.length (progressive_unlocks (run_jobs jobs db))
         = List.length (progressive_unlocks db)).
Proof.
  split; [exact unlock_progressive_stages_twice|].
  split; [exact cleanup_expired_sessions_twice|].
  split; [|split; [|split]].
  - intros jobs db i u H.
    destruct (unlock_row_history jobs db i u H) as [u' [E D]].
    exists u'. split; [exact E|]. split.
    + intros T. destruct D as [->|[L _]]; [reflexivity|congruence].
    + intros N. destruct D as [->|[L [now [I [T ->]]]]]; [congruence|].
      split; [exact L|]. split; [reflexivity|].
      exists now. repeat split; auto.
  - intros now db i u H. now apply unlock_row_after_run.
  - intros jobs db i u H. now apply unlock_row_in_the_end.
  - intros jobs. unfold run_jobs.
    induction jobs as [|j rest IH]; intros db; cbn [fold_left]; [reflexivity|].
    rewrite IH. destruct j; simpl; [|reflexivity].
    unfold update_where. apply length_map.
Qed.

Lemma sweeps_idempotent_and_monotone_witness :
  (exists u',
      nth_error
        (progressive_unlocks
           (run_jobs [UnlockStages 50; CleanupSessions 120; UnlockStages 150;
                      UnlockStages 200] sample_database)) 0 = Some u'
      /\ (ProgressiveUnlocks.is_unlocked sample_unlock = Some true ->
          u' = sample_unlock)
      /\ (u' <> sample_unlock ->
          ProgressiveUnlocks.is_unlocked sample_unlock = Some false
          /\ ProgressiveUnlocks.is_unlocked u' = Some true
          /\ exists now,
               In (UnlockStages now)
                  [UnlockStages 50; CleanupSessions 120; UnlockStages 150;
                   UnlockStages 200]
               /\ ProgressiveUnlocks.unlock_time sample_unlock <= now
               /\ ProgressiveUnlocks.unlocked_at u' = Some now
               /\ u' = ProgressiveUnlocks.unlock now sample_unlock))
  /\ (exists u',
        nth_error
          (progressive_unlocks (unlock_progressive_stages 150 sample_database))
          0 = Some u'
        /\ (ProgressiveUnlocks.unlock_time sample_unlock <= 150 ->
            ProgressiveUnlocks.is_unlocked sample_unlock = Some false ->
            ProgressiveUnlocks.is_unlocked u' = Some true
            /\ ProgressiveUnlocks.unlocked_at u' = Some 150
            /\ u' = ProgressiveUnlocks.unlock 150 sample_unlock)
        /\ (150 < ProgressiveUnlocks.unlock_time sample_unlock
            \/ ProgressiveUnlocks.is_unlocked sample_unlock <> Some false ->
            u' = sample_unlock))
  /\ nth_error
       (progressive_unlocks
          (run_jobs [UnlockStages 50; CleanupSessions 120; UnlockStages 150;
                     UnlockStages 200] sample_database)) 0
     = Some (ProgressiveUnlocks.unlock 150 sample_unlock).
Proof.
  split; [|split].
  - apply (proj1 (proj2 (proj2 sweeps_idempotent_and_monotone))
             [UnlockStages 50; CleanupSessions 120; UnlockStages 150;
              UnlockStages 200] sample_database 0%nat sample_unlock).
    reflexivity.
  - apply (proj1 (proj2 (proj2 (proj2 sweeps_idempotent_and_monotone)))
             150 sample_database 0%nat sample_unlock).
    reflexivity.
  - apply (proj1 (proj2 (proj2 (proj2 (proj2 sweeps_idempotent_and_monotone))))
             [UnlockStages 50; CleanupSessions 120; UnlockStages 150;
              UnlockStages 200] sample_database 0%nat sample_unlock).
    reflexivity.
Defined.

(** The stage of the sample is unlocked by the run at 150, and the run at 200
    leaves it alone. *)
Example sample_unlocked_once :
  map ProgressiveUnlocks.unlocked_at
    (progressive_unlocks
       (run_jobs [UnlockStages 50; CleanupSessions 120; UnlockStages 150;
                  UnlockStages 200] sample_database))
  = [Some 150].
Proof. vm_compute. reflexivity. Qed.

End SweepFacts.

(** * Identity comparison *)

Module IdentityFacts.

Import SecureDownloads Spec Samples TokenFacts.







(** A grant issued to ["A@B.com"] is stored under ["a@b.com"] and opens for
    either spelling. *)
Example issued_in_capitals_verified_in_small :
  let issued :=
    snd (generateSecureDownloadTokens "https://shop.example" (fun e => e) utc
           (fun _ => {| rpc := RpcData "tok-7"; new_id := "id-7";
                        on_insert := Resolves |})
           500 [sample_document] "A@B.com" "order-1" no_options sample_store) in
  fst (verifyDownloadToken reliable 600 "tok-7" "a@b.com" None None issued)
  = fst (verifyDownloadToken reliable 600 "tok-7" "A@B.com" None None issued)
  /\ option_map valid
       (match fst (verifyDownloadToken reliable 600 "tok-7" "a@b.com" None None
                     issued) with
        | inl r => Some r
        | inr _ => None
        end) = Some true.
Proof. vm_compute. split; reflexivity. Qed.

End IdentityFacts.

(** * Further properties of the token module *)

Module MoreTokenFacts.

Import SecureDownloads Spec Invariants Samples More.

Ltac run_verify :=
  unfold verifyDownloadToken, logDownloadAttempt, try_catch, bind, ret,
    select_active_token, insert_attempt, update_token.

(** X1.  [verifyDownloadToken] never rejects, whatever the store does to its
    requests, and its result is well formed: an allowing result carries no
    reason and carries the grant it read, which is on file, with that grant's
    document; a denying result carries a reason and neither grant nor
    document. *)
Theorem verify_result_well_formed env now t e ip ua s :
  exists r s',
    verifyDownloadToken env now t e ip ua s = (inl r, s')
    /\ (valid r = true ->
        reason r = None
        /\ exists td, tokenData r = Some td
                      /\ document r = Some (document_id td)
                      /\ In td (secure_download_tokens s)
                      /\ token td = t /\ is_active td = true)
    /\ (valid r = false ->
        (exists why, reason r = Some why)
        /\ tokenData r = None /\ document r = None).
Proof.
  destruct env as [os ol ou oc]. run_verify. simpl.
  assert (G : forall why (s0 : Store), exists r s',
               (@inl VerifyResult exn (deny why), s0) = (inl r, s')
               /\ (valid r = true -> reason r = None
                   /\ exists td, tokenData r = Some td
                        /\ document r = Some (document_id td)
                        /\ In td (secure_download_tokens s)
                        /\ token td = t /\ is_active td = true)
               /\ (valid r = false ->
                   (exists w, reason r = Some w)
                   /\ tokenData r = None /\ document r = None)).
  { intros why s0. exists (deny why), s0. split; [reflexivity|].
    split; [discriminate|]. intros _. simpl. eauto. }
  destruct os; simpl.
  - destruct (single _) as [td|] eqn:S; simpl.
    + assert (Hin : In td (secure_download_tokens s)
                    /\ token td = t /\ is_active td = true).
      { destruct (filter _ _) as [|x [|y l]] eqn:F; simpl in S; try discriminate.
        injection S as ->.
        assert (H : In td (filter (active_with_token t) (secure_download_tokens s)))
          by (rewrite F; now left).
        apply filter_In in H. destruct H as [H1 H2].
        unfold active_with_token in H2. apply andb_prop in H2.
        destruct H2 as [H2 H3]. apply String.eqb_eq in H2.
        destruct (is_active td); simpl in H3; try discriminate. auto. }
      destruct (now >? expires_at td); simpl.
      * destruct ol, ou, oc; simpl; apply G.
      * destruct (negb _); simpl.
        { destruct ol; simpl; apply G. }
        destruct (download_count td >=? max_downloads td); simpl.
        { destruct ol; simpl; apply G. }
        destruct ol, ou, oc; simpl; try apply G;
          (eexists; eexists; split; [reflexivity|]; simpl; split;
           [intros _; split; [reflexivity|]; exists td; tauto | discriminate]).
    + destruct ol; simpl; apply G.
  - destruct ol; simpl; apply G.
  - destruct oc; simpl; apply G.
Qed.

(** X2.  A denial never changes a download counter, and a denial for any
    reason but expiry leaves the whole token table as it was, whatever the
    store does to the requests of the call. *)
Theorem denial_leaves_grants_alone env now t e ip ua s r s' :
  verifyDownloadToken env now t e ip ua s = (inl r, s') ->
  valid r = false ->
  map download_count (secure_download_tokens s')
  = map download_count (secure_download_tokens s)
  /\ (reason r <> Some "Download link has expired" ->
      secure_download_tokens s' = secure_download_tokens s).
Proof.
  destruct env as [os ol ou oc]. run_verify. simpl.
  assert (U : forall i, map download_count
                (update_where_id i (set_inactive now) (secure_download_tokens s))
              = map download_count (secure_download_tokens s)).
  { intros i. unfold update_where_id. rewrite map_map. apply map_ext.
    intros x. destruct (String.eqb (id x) i); reflexivity. }
  destruct os; simpl.
  - destruct (single _) as [td|]; simpl.
    + destruct (now >? expires_at td); simpl.
      * destruct ol, ou, oc; simpl; intros [= <- <-] _; simpl;
          (split; [auto|]; intros N; try reflexivity; now contradiction N).
      * destruct (negb _); simpl.
        { destruct ol; simpl; intros [= <- <-] _; auto. }
        destruct (download_count td >=? max_downloads td); simpl.
        { destruct ol; simpl; intros [= <- <-] _; auto. }
        destruct ol, ou, oc; simpl; intros [= <- <-] V;
          try discriminate V; auto.
    + destruct ol; simpl; intros [= <- <-] _; auto.
  - destruct ol; simpl; intros [= <- <-] _; auto.
  - destruct oc; simpl; intros [= <- <-] _; auto.
Qed.

Lemma denial_leaves_grants_alone_witness :
  map download_count
    (secure_download_tokens
       (snd (verifyDownloadToken reliable 500 "tok-1" "x@y.com" None None
               sample_store)))
  = [2]
  /\ (Some "This download link is not authorized for your email address"
      <> Some "Download link has expired" ->
      secure_download_tokens
        (snd (verifyDownloadToken reliable 500 "tok-1" "x@y.com" None None
                sample_store))
      = [sample_token]).
Proof.
  apply (denial_leaves_grants_alone reliable 500 "tok-1" "x@y.com" None None
           sample_store
           (deny "This download link is not authorized for your email address")
           (snd (verifyDownloadToken reliable 500 "tok-1" "x@y.com" None None
                   sample_store)));
    reflexivity.
Defined.

Lemma single_some {A} (l : list A) x : single l = Some x -> l = [x].
Proof.
  destruct l as [|a [|b l]]; simpl; try discriminate. now intros [= ->].
Qed.

(** A filter that a row update does not look at commutes with it. *)
Lemma filter_update_where_id (p : SecureDownloadToken -> bool) i f rows :
  (forall r, p (f r) = p r) ->
  filter p (update_where_id i f rows)
  = update_where_id i f (filter p rows).
Proof.
  intros H. unfold update_where_id.
  induction rows as [|r rows IH]; simpl; [reflexivity|].
  assert (E : p (if String.eqb (id r) i then f r else r) = p r)
    by (destruct (String.eqb (id r) i); auto).
  rewrite E. destruct (p r); simpl; now rewrite IH.
Qed.

(** X3.  An allowing call whose update is served adds exactly one to the
    counter of the grant it resolved and stamps it; with unique keys every
    other grant is left as it was, and the table keeps its length. *)
Theorem allow_increments_one_counter env now t e ip ua s r s' :
  verifyDownloadToken env now t e ip ua s = (inl r, s') ->
  valid r = true ->
  on_update env = Resolves ->
  NoDup (map id (secure_download_tokens s)) ->
  exists td,
    tokenData r = Some td
    /\ In td (secure_download_tokens s)
    /\ In (set_download_count (download_count td + 1) now td)
          (secure_download_tokens s')
    /\ (forall r0, In r0 (secure_download_tokens s) -> r0 <> td ->
                   In r0 (secure_download_tokens s'))
    /\ List.length (secure_download_tokens s')
       = List.length (secure_download_tokens s).
Proof.
  destruct env as [os ol ou oc]. simpl. intros E V -> ND. revert E.
  run_verify. simpl.
  destruct os; simpl.
  - destruct (single _) as [td|] eqn:S; simpl.
    + apply single_some in S.
      assert (Hin : In td (secure_download_tokens s)).
      { assert (H : In td (filter (active_with_token t) (secure_download_tokens s)))
          by (rewrite S; now left).
        apply filter_In in H. tauto. }
      destruct (now >? expires_at td); simpl.
      * destruct ol, oc; simpl; intros [= <- <-]; discriminate V.
      * destruct (negb _); simpl.
        { destruct ol; simpl; intros [= <- <-]; discriminate V. }
        destruct (download_count td >=? max_downloads td); simpl.
        { destruct ol; simpl; intros [= <- <-]; discriminate V. }
        assert (K : forall rows',
                   rows' = update_where_id (id td)
                             (set_download_count (download_count td + 1) now)
                             (secure_download_tokens s) ->
                   In (set_download_count (download_count td + 1) now td) rows'
                   /\ (forall r0, In r0 (secure_download_tokens s) -> r0 <> td ->
                                  In r0 rows')
                   /\ List.length rows' = List.length (secure_download_tokens s)).
        { intros rows' ->. unfold update_where_id. repeat split.
          - apply in_map_iff. exists td. now rewrite String.eqb_refl.
          - intros r0 Hr0 Hne. apply in_map_iff. exists r0. split; auto.
            destruct (String.eqb (id r0) (id td)) eqn:Q; auto.
            apply String.eqb_eq in Q. exfalso. apply Hne.
            now apply (RaceFacts.NoDup_ids_same _ r0 td ND).
          - apply length_map. }
        destruct ol; simpl; intros [= <- <-]; simpl;
          exists td; (split; [reflexivity|]); (split; [exact Hin|]);
          now apply K.
    + destruct ol; simpl; intros [= <- <-]; discriminate V.
  - destruct ol; simpl; intros [= <- <-]; discriminate V.
  - destruct oc; simpl; intros [= <- <-]; discriminate V.
Qed.

Lemma allow_increments_one_counter_witness :
  exists td,
    tokenData
      {| valid := true; document := Some "doc-1"; reason := None;
         tokenData := Some sample_token |} = Some td
    /\ In td (secure_download_tokens sample_store)
    /\ In (set_download_count (download_count td + 1) 500 td)
          (secure_download_tokens
             (snd (verifyDownloadToken reliable 500 "tok-1" "a@b.com" None None
                     sample_store)))
    /\ (forall r0, In r0 (secure_download_tokens sample_store) -> r0 <> td ->
                   In r0 (secure_download_tokens
                            (snd (verifyDownloadToken reliable 500 "tok-1"
                                    "a@b.com" None None sample_store))))
    /\ List.length
         (secure_download_tokens
            (snd (verifyDownloadToken reliable 500 "tok-1" "a@b.com" None None
                    sample_store)))
       = List.length (secure_download_tokens sample_store).
Proof.
  apply (allow_increments_one_counter reliable 500 "tok-1" "a@b.com" None None
           sample_store _ _ eq_refl); try reflexivity.
  simpl. constructor; [intros []|constructor].
Defined.

(** X4.  The error of the counter update is never read: when the update
    resolves with an error, the call returns what it returns when the update
    is served, and the token table stays as it was, so an allowed download is
    not counted. *)
Theorem failed_update_goes_unnoticed env now t e ip ua s :
  fst (verifyDownloadToken (with_update env ResolvesWithError) now t e ip ua s)
  = fst (verifyDownloadToken (with_update env Resolves) now t e ip ua s)
  /\ secure_download_tokens
       (snd (verifyDownloadToken (with_update env ResolvesWithError)
               now t e ip ua s))
     = secure_download_tokens s.
Proof.
  destruct env as [os ol ou oc]. unfold with_update. run_verify. simpl.
  destruct os; simpl.
  - destruct (single _) as [td|]; simpl.
    + destruct (now >? expires_at td); simpl.
      * destruct ol; simpl; auto.
      * destruct (negb _); simpl.
        { destruct ol; simpl; auto. }
        destruct (download_count td >=? max_downloads td); simpl.
        { destruct ol; simpl; auto. }
        destruct ol; simpl; auto.
    + destruct ol; simpl; auto.
  - destruct ol; simpl; auto.
  - destruct oc; simpl; auto.
Qed.

Lemma presents_after_count t td c n now :
  presents t td c -> presents t (set_download_count n now td) c.
Proof. intros H. exact H. Qed.

(** A call under the right identity, in time, on a grant with a download
    left is allowed and leaves the grant resolvable with one more on its
    counter. *)
Lemma verify_allows_one t td c s :
  single (filter (active_with_token t) (secure_download_tokens s)) = Some td ->
  presents t td c ->
  download_count td < max_downloads td ->
  exists r s',
    verifyDownloadToken reliable (Interleaving.c_now c) (Interleaving.c_token c)
      (Interleaving.c_email c) (Interleaving.c_ip c) (Interleaving.c_ua c) s
    = (inl r, s')
    /\ reason r = None
    /\ single (filter (active_with_token t) (secure_download_tokens s'))
       = Some (set_download_count (download_count td + 1)
                 (Interleaving.c_now c) td).
Proof.
  intros S [Ht [Hn He]] Hq. run_verify. simpl. rewrite Ht, S. simpl.
  assert (E1 : (Interleaving.c_now c >? expires_at td) = false).
  { rewrite Z.gtb_ltb. apply Z.ltb_ge. lia. }
  rewrite E1. simpl. rewrite He, String.eqb_refl. simpl.
  assert (E2 : (download_count td >=? max_downloads td) = false).
  { rewrite Z.geb_leb. apply Z.leb_gt. lia. }
  rewrite E2. simpl. eexists. eexists. split; [reflexivity|]. simpl.
  split; [reflexivity|].
  rewrite filter_update_where_id by (intros x; reflexivity).
  apply single_some in S. rewrite S. simpl.
  now rewrite String.eqb_refl.
Qed.

(** The same call on a grant whose counter has reached the quota is denied
    for the quota and changes no grant. *)
Lemma verify_denies_quota t td c s :
  single (filter (active_with_token t) (secure_download_tokens s)) = Some td ->
  presents t td c ->
  max_downloads td <= download_count td ->
  exists s',
    verifyDownloadToken reliable (Interleaving.c_now c) (Interleaving.c_token c)
      (Interleaving.c_email c) (Interleaving.c_ip c) (Interleaving.c_ua c) s
    = (inl (deny "Download limit exceeded for this link"), s')
    /\ secure_download_tokens s' = secure_download_tokens s.
Proof.
  intros S [Ht [Hn He]] Hq. run_verify. simpl. rewrite Ht, S. simpl.
  assert (E1 : (Interleaving.c_now c >? expires_at td) = false).
  { rewrite Z.gtb_ltb. apply Z.ltb_ge. lia. }
  rewrite E1. simpl. rewrite He, String.eqb_refl. simpl.
  assert (E2 : (download_count td >=? max_downloads td) = true).
  { rewrite Z.geb_leb. apply Z.leb_le. lia. }
  rewrite E2. simpl. eauto.
Qed.

(** X5.  Calls made one after the other on a reliable store, under the right
    identity and in time, are allowed as long as the grant has downloads
    left, and denied for the quota from then on: of [n] calls, the first
    [max_downloads - download_count] are allowed, each adding one to the
    counter, and all later ones are denied. *)
Theorem quota_is_used_up_in_turn calls :
  forall s td t,
    single (filter (active_with_token t) (secure_download_tokens s)) = Some td ->
    Forall (presents t td) calls ->
    let k := Nat.min (List.length calls)
               (Z.to_nat (max_downloads td - download_count td)) in
    let out := verify_in_turn reliable calls s in
    map decision (fst out)
    = (repeat (Some None) k
       ++ repeat (Some (Some "Download limit exceeded for this link"))
            (List.length calls - k))%list
    /\ exists td',
         single (filter (active_with_token t) (secure_download_tokens (snd out)))
         = Some td'
         /\ download_count td' = download_count td + Z.of_nat k
         /\ max_downloads td' = max_downloads td.
Proof.
  induction calls as [|c rest IH]; intros s td t Hs F; simpl.
  - split; [reflexivity|]. exists td. repeat split; auto. lia.
  - inversion F as [|c0 l Hc Hrest]; subst.
    destruct (Z_lt_le_dec (download_count td) (max_downloads td)) as [Hq|Hq].
    + destruct (verify_allows_one t td c s Hs Hc Hq) as [r [s1 [E [R S1]]]].
      rewrite E.
      assert (F1 : Forall (presents t (set_download_count (download_count td + 1)
                                         (Interleaving.c_now c) td)) rest).
      { eapply Forall_impl; [|exact Hrest]. intros a Ha. exact Ha. }
      destruct (IH s1 _ t S1 F1) as [D [td' [S' [C' M']]]].
      destruct (verify_in_turn reliable rest s1) as [rs s2]. simpl in *.
      assert (K : Z.to_nat (max_downloads td - download_count td)
                  = Datatypes.S (Z.to_nat (max_downloads td - (download_count td + 1))))
        by lia.
      rewrite K. simpl. rewrite R, D. split; [reflexivity|].
      exists td'. repeat split; auto. lia.
    + destruct (verify_denies_quota t td c s Hs Hc Hq) as [s1 [E T1]].
      rewrite E.
      assert (S1 : single (filter (active_with_token t)
                             (secure_download_tokens s1)) = Some td)
        by (now rewrite T1).
      destruct (IH s1 td t S1 Hrest) as [D [td' [S' [C' M']]]].
      destruct (verify_in_turn reliable rest s1) as [rs s2]. simpl in *.
      assert (K : Z.to_nat (max_downloads td - download_count td) = 0%nat)
        by lia.
      rewrite K in *. rewrite Nat.min_0_r in *. simpl in *.
      rewrite D, Nat.sub_0_r. split; [reflexivity|].
      exists td'. repeat split; auto.
Qed.

Lemma quota_is_used_up_in_turn_witness :
  let out := verify_in_turn reliable ten_calls sample_store in
  map decision (fst out)
  = (repeat (Some None) 1
     ++ repeat (Some (Some "Download limit exceeded for this link")) 9)%list
  /\ exists td',
       single (filter (active_with_token "tok-1")
                 (secure_download_tokens (snd out))) = Some td'
       /\ download_count td' = 3
       /\ max_downloads td' = 3.
Proof.
  apply (quota_is_used_up_in_turn ten_calls sample_store sample_token "tok-1").
  - reflexivity.
  - unfold ten_calls. simpl.
    repeat (constructor; [repeat split; simpl; lia|]). constructor.
Defined.

End MoreTokenFacts.

(** * Further properties of histories and of revocation *)

Module MoreHistoryFacts.

Import SecureDownloads Lifecycle Spec Invariants Samples More.

(** The goal is an instance of the shape in which the rows are kept. *)
Ltac rows_kept :=
  exists (fun r : SecureDownloadToken => r), (@nil SecureDownloadToken);
  eexists; rewrite map_id, app_nil_r;
  split; [intros r; split; [reflexivity|auto]|];
  split; [reflexivity|];
  first [ reflexivity
        | symmetry; apply app_nil_r
        | rewrite <- app_assoc; reflexivity ].

(** The goal is an instance of the shape in which the rows of key [i] are
    rewritten by [p]. *)
Ltac rows_updated i p :=
  exists (fun r : SecureDownloadToken => if String.eqb (id r) i then p r else r),
         (@nil SecureDownloadToken);
  eexists; rewrite app_nil_r;
  split; [intros r; destruct (String.eqb (id r) i); simpl;
          (split; [reflexivity|first [discriminate|auto]])|];
  split; [reflexivity|];
  first [ reflexivity
        | symmetry; apply app_nil_r
        | rewrite <- app_assoc; reflexivity ].

(** What one operation does to the two tables: it rewrites the rows on file
    without touching their fixed columns, may append rows, and may append
    audit entries. *)
Lemma exec_shape baseUrl enc zone o s :
  exists f new added,
    (forall r, fixed_columns (f r) = fixed_columns r
               /\ (is_active (f r) = true -> is_active r = true))
    /\ secure_download_tokens (exec baseUrl enc zone o s)
       = (map f (secure_download_tokens s) ++ new)%list
    /\ download_attempts (exec baseUrl enc zone o s)
       = (download_attempts s ++ added)%list.
Proof.
  destruct o as [env now t e ip ua|o now i|o now|oracle now docs e ord cfg];
    simpl.
  - destruct env as [os ol ou oc].
    unfold verifyDownloadToken, logDownloadAttempt, try_catch, bind, ret,
      select_active_token, insert_attempt, update_token. simpl.
    destruct os; simpl.
    + destruct (single _) as [td|]; simpl.
      * destruct (now >? expires_at td); simpl.
        { destruct ol, ou, oc; simpl;
            first [ rows_kept | rows_updated (id td) (set_inactive now) ]. }
        destruct (negb _); simpl.
        { destruct ol; simpl; rows_kept. }
        destruct (download_count td >=? max_downloads td); simpl.
        { destruct ol; simpl; rows_kept. }
        destruct ol, ou, oc; simpl;
          first [ rows_kept
                | rows_updated (id td)
                    (set_download_count (download_count td + 1) now) ].
      * destruct ol; simpl; rows_kept.
    + destruct ol; simpl; rows_kept.
    + destruct oc; simpl; rows_kept.
  - unfold revokeDownloadToken, try_catch, ret. destruct o; simpl;
      first [ rows_kept | rows_updated i (set_inactive now) ].
  - destruct o; simpl; try rows_kept.
    exists (fun r => if (expires_at r <? now) && Bool.eqb (is_active r) true
                     then set_inactive now r else r), [], [].
    simpl. rewrite !app_nil_r. repeat split; auto;
      destruct (_ && _); simpl; first [reflexivity|discriminate|auto].
  - unfold generateSecureDownloadTokens.
    destruct (IssueFacts.generate_loop_appends baseUrl enc zone oracle now
                (finalConfig cfg) e ord docs 0%nat s)
      as [urls [added [E _]]].
    rewrite E. simpl. exists (fun r => r), added, [].
    rewrite map_id, app_nil_r. auto.
Qed.

Lemma exec_all_shape baseUrl enc zone ops :
  forall s,
  exists f new added,
    (forall r, fixed_columns (f r) = fixed_columns r
               /\ (is_active (f r) = true -> is_active r = true))
    /\ secure_download_tokens (exec_all baseUrl enc zone ops s)
       = (map f (secure_download_tokens s) ++ new)%list
    /\ download_attempts (exec_all baseUrl enc zone ops s)
       = (download_attempts s ++ added)%list.
Proof.
  unfold exec_all.
  induction ops as [|o rest IH]; intros s; simpl.
  - exists (fun r => r), [], []. rewrite map_id, !app_nil_r. auto.
  - destruct (exec_shape baseUrl enc zone o s) as [f1 [n1 [a1 [F1 [T1 A1]]]]].
    destruct (IH (exec baseUrl enc zone o s)) as [f2 [n2 [a2 [F2 [T2 A2]]]]].
    exists (fun r => f2 (f1 r)), (map f2 n1 ++ n2)%list, (a1 ++ a2)%list.
    split; [|split].
    + intros r. destruct (F1 r) as [X1 Y1]. destruct (F2 (f1 r)) as [X2 Y2].
      split; [now rewrite X2, X1 | auto].
    + rewrite T2, T1, map_app, map_map, app_assoc. reflexivity.
    + rewrite A2, A1, app_assoc. reflexivity.
Qed.

(** X6.  The audit log is append-only: over any history of verify calls,
    revocations, sweeps and issuances, and whatever the store does to their
    requests, the entries on file stay where they are, unchanged, and new
    ones come after them. *)
Theorem audit_log_is_append_only baseUrl enc zone ops s :
  exists added,
    download_attempts (exec_all baseUrl enc zone ops s)
    = (download_attempts s ++ added)%list.
Proof.
  destruct (exec_all_shape baseUrl enc zone ops s) as [f [new [added [_ [_ A]]]]].
  now exists added.
Qed.

(** X7.  No operation deletes a grant, reorders grants, or rewrites a
    grant's key, token, document, recipient, order, expiry, quota or creation
    time: over any history these columns of the rows on file stay as they
    are, in place, and new rows come after them. *)
Theorem grants_are_never_deleted_or_rekeyed baseUrl enc zone ops s :
  exists new,
    map fixed_columns (secure_download_tokens (exec_all baseUrl enc zone ops s))
    = (map fixed_columns (secure_download_tokens s) ++ new)%list.
Proof.
  destruct (exec_all_shape baseUrl enc zone ops s) as [f [new [added [F [T _]]]]].
  exists (map fixed_columns new).
  rewrite T, map_app, map_map. f_equal. apply map_ext. intros r. apply F.
Qed.

(** X8.  [revokeDownloadToken] answers [true] exactly when the store
    resolves its update without an error, whether or not a grant has the
    key: on a key that is not on file it answers [true] and changes nothing;
    when the update fails or rejects it answers [false] and changes
    nothing. *)
Theorem revoke_reports_the_store_not_the_grant o now i s :
  fst (revokeDownloadToken o now i s)
  = inl (match o with Resolves => true | _ => false end)
  /\ ((forall r, In r (secure_download_tokens s) -> id r <> i) ->
      snd (revokeDownloadToken o now i s) = s)
  /\ (o <> Resolves -> snd (revokeDownloadToken o now i s) = s).
Proof.
  unfold revokeDownloadToken, try_catch, ret. destruct o; simpl.
  - split; [reflexivity|]. split; [|congruence].
    intros H. destruct s as [rows log]. simpl in *. f_equal.
    unfold update_where_id. rewrite <- (map_id rows) at 2.
    apply map_ext_in. intros r Hr.
    destruct (String.eqb (id r) i) eqn:E; [|reflexivity].
    apply String.eqb_eq in E. now apply H in Hr.
  - auto.
  - auto.
Qed.

Lemma revoke_reports_the_store_not_the_grant_witness :
  fst (revokeDownloadToken Resolves 600 "no-such-id" sample_store) = inl true
  /\ snd (revokeDownloadToken Resolves 600 "no-such-id" sample_store)
     = sample_store.
Proof.
  destruct (revoke_reports_the_store_not_the_grant Resolves 600 "no-such-id"
              sample_store) as [A [B _]].
  split; [exact A|]. apply B.
  intros r [<-|[]]. simpl. discriminate.
Defined.

(** X9.  A revocation that the store serves is final for the token: if the
    rows of the token all carry the revoked key, then after the revocation
    and after any later history every verify call on the token is denied,
    with the InvalidToken reason unless its select rejects. *)
Theorem revoked_token_is_invalid
    baseUrl enc zone now r s ops env now2 e ip ua :
  In r (secure_download_tokens s) ->
  (forall r', In r' (secure_download_tokens s) -> token r' = token r ->
              id r' = id r) ->
  let revoked := snd (revokeDownloadToken Resolves now (id r) s) in
  exists out s',
    verifyDownloadToken env now2 (token r) e ip ua
      (exec_all baseUrl enc zone ops revoked) = (inl out, s')
    /\ valid out = false
    /\ (on_select env <> Rejects -> out = deny "Invalid or expired token").
Proof.
  intros Hin Hkey revoked.
  assert (D : dead_token (token r) (secure_download_tokens revoked)).
  { subst revoked. unfold revokeDownloadToken, try_catch, ret. simpl.
    unfold update_where_id. split.
    - exists (set_inactive now r). split; [|reflexivity].
      apply in_map_iff. exists r. now rewrite String.eqb_refl.
    - intros r' Hr' Ht. apply in_map_iff in Hr'. destruct Hr' as [r0 [<- Hr0]].
      destruct (String.eqb (id r0) (id r)) eqn:E; [reflexivity|].
      apply String.eqb_neq in E. exfalso. apply E. now apply Hkey. }
  apply HistoryFacts.verify_dead_token.
  apply (HistoryFacts.exec_all_preserves (dead_token (token r))); auto.
  - intros f rows. apply HistoryFacts.dead_token_map.
  - intros row rows Ht _. now apply HistoryFacts.dead_token_insert.
Qed.

Lemma revoked_token_is_invalid_witness :
  exists out s',
    verifyDownloadToken reliable 700 "tok-1" "a@b.com" None None
      (exec_all "https://shop.example" (fun e => e) utc
         [Verify reliable 650 "tok-1" "a@b.com" None None]
         (snd (revokeDownloadToken Resolves 600 "id-1" sample_store)))
    = (inl out, s')
    /\ valid out = false
    /\ (Resolves <> Rejects -> out = deny "Invalid or expired token").
Proof.
  apply (revoked_token_is_invalid "https://shop.example" (fun e => e) utc 600
           sample_token sample_store
           [Verify reliable 650 "tok-1" "a@b.com" None None]
           reliable 700 "a@b.com" None None).
  - left. reflexivity.
  - intros r' [<-|[]] _. reflexivity.
Defined.

End MoreHistoryFacts.

(** * Properties of the download statistics *)

Module StatisticsFacts.

Import SecureDownloads Statistics Samples.

(** X11.  Asked for an order that has no token on file, the function, with
    its selects served, reports no tokens but the attempts of the whole
    audit log: the filter on attempts is only put in place when the order has
    at least one token. *)
Theorem statistics_of_an_order_without_tokens now o s :
  o <> EmptyString ->
  (forall r, In r (secure_download_tokens s) -> order_id r <> o) ->
  getDownloadStatistics all_served now (Some o) s
  = summarize now [] (download_attempts s).
Proof.
  intros Ho Hnone. unfold getDownloadStatistics, given. simpl.
  apply String.eqb_neq in Ho. rewrite Ho. simpl.
  assert (E : filter (of_order o) (secure_download_tokens s) = []).
  { apply HistoryFacts.filter_none. intros r Hr. unfold of_order.
    apply String.eqb_neq. now apply Hnone. }
  rewrite E. simpl.
  f_equal; unfold count; f_equal;
    (induction (download_attempts s) as [|a l IH]; simpl; [reflexivity|];
     now rewrite IH).
Qed.

Lemma statistics_of_an_order_without_tokens_witness :
  getDownloadStatistics all_served 500 (Some "order-9")
    (snd (verifyDownloadToken reliable 500 "tok-1" "a@b.com" None None
            sample_store))
  = summarize 500 []
      (download_attempts
         (snd (verifyDownloadToken reliable 500 "tok-1" "a@b.com" None None
                 sample_store))).
Proof.
  apply (statistics_of_an_order_without_tokens 500 "order-9").
  - discriminate.
  - intros r [<-|[]]. simpl. discriminate.
Defined.

Ltac one_entry :=
  eexists; eexists; eexists;
  split; [reflexivity|];
  split; [reflexivity|];
  split; [reflexivity|];
  simpl; unfold update_where_id; rewrite ?length_map; reflexivity.

(** A verify call whose audit inserts are served and whose update does not
    reject appends one entry, flagged as the decision is, and keeps the
    number of grants. *)
Lemma verify_appends_one_entry env now t e ip ua s :
  on_log env = Resolves -> on_catch_log env = Resolves ->
  on_update env <> Rejects ->
  exists r s' entry,
    verifyDownloadToken env now t e ip ua s = (inl r, s')
    /\ download_attempts s' = (download_attempts s ++ [entry])%list
    /\ success entry = valid r
    /\ List.length (secure_download_tokens s')
       = List.length (secure_download_tokens s).
Proof.
  destruct env as [os ol ou oc]. simpl. intros -> -> Hu.
  unfold verifyDownloadToken, logDownloadAttempt, try_catch, bind, ret,
    select_active_token, insert_attempt, update_token. simpl.
  destruct os; simpl.
  - destruct (single _) as [td|]; simpl.
    + destruct (now >? expires_at td); simpl.
      * destruct ou; simpl; try congruence;
          (one_entry).
      * destruct (negb _); simpl.
        { one_entry. }
        destruct (download_count td >=? max_downloads td); simpl.
        { one_entry. }
        destruct ou; simpl; try congruence;
          (one_entry).
    + one_entry.
  - one_entry.
  - one_entry.
Qed.

Lemma count_app {A} (f : A -> bool) l1 l2 :
  count f (l1 ++ l2) = (count f l1 + count f l2)%nat.
Proof. unfold count. now rewrite filter_app, length_app. Qed.

Lemma count_map_le {A} (p : A -> bool) (f : A -> A) l :
  (forall a, p (f a) = true -> p a = true) ->
  (count p (map f l) <= count p l)%nat.
Proof.
  intros H. unfold count. induction l as [|a l IH]; simpl; [lia|].
  destruct (p (f a)) eqn:E.
  - rewrite (H a E). simpl. lia.
  - destruct (p a); simpl; lia.
Qed.

Lemma filter_true {A} (l : list A) : filter (fun _ => true) l = l.
Proof. induction l as [|a l IH]; simpl; [reflexivity|now rewrite IH]. Qed.

(** X12.  The statistics follow the verify calls: after a call whose audit
    inserts are served and whose update does not reject, the overall
    statistics count one attempt more, as a successful download when the
    call allowed and as a failed attempt when it denied; they count as many
    tokens as before, and no more active ones. *)
Theorem statistics_follow_verification env now t e ip ua s at_ :
  on_log env = Resolves -> on_catch_log env = Resolves ->
  on_update env <> Rejects ->
  exists r s',
    verifyDownloadToken env now t e ip ua s = (inl r, s')
    /\ let before := getDownloadStatistics all_served at_ None s in
       let after := getDownloadStatistics all_served at_ None s' in
       totalAttempts after = S (totalAttempts before)
       /\ successfulDownloads after
          = (successfulDownloads before + if valid r then 1 else 0)%nat
       /\ failedAttempts after
          = (failedAttempts before + if valid r then 0 else 1)%nat
       /\ totalTokens after = totalTokens before
       /\ (activeTokens after <= activeTokens before)%nat.
Proof.
  intros Hl Hc Hu.
  destruct (verify_appends_one_entry env now t e ip ua s Hl Hc Hu)
    as [r [s' [entry [E [A [V L]]]]]].
  exists r, s'. split; [exact E|].
  destruct (MoreHistoryFacts.exec_shape EmptyString (fun x => x) Samples.utc
              (Lifecycle.Verify env now t e ip ua) s)
    as [f [new [added [F [T A']]]]].
  simpl in T, A'. rewrite E in T, A'. simpl in T, A'.
  assert (Hnew : new = []).
  { rewrite T, length_app, length_map in L.
    destruct new; [reflexivity|simpl in L; lia]. }
  subst new. rewrite app_nil_r in T.
  unfold getDownloadStatistics. simpl.
  rewrite !filter_true, A, T.
  repeat split.
  - rewrite length_app. simpl. lia.
  - rewrite count_app. f_equal. unfold count. simpl. rewrite V.
    destruct (valid r); reflexivity.
  - rewrite count_app. f_equal. unfold count. simpl. rewrite V.
    destruct (valid r); reflexivity.
  - apply length_map.
  - apply count_map_le. intros a. unfold counts_as_active.
    destruct (F a) as [Fx Fa]. intros H. apply andb_prop in H.
    destruct H as [H1 H2]. rewrite (Fa H1). simpl.
    assert (X : expires_at (f a) = expires_at a).
    { unfold More.fixed_columns in Fx. congruence. }
    now rewrite <- X.
Qed.

Lemma statistics_follow_verification_witness :
  exists r s',
    verifyDownloadToken reliable 500 "tok-1" "a@b.com" None None sample_store
    = (inl r, s')
    /\ let before := getDownloadStatistics all_served 800 None sample_store in
       let after := getDownloadStatistics all_served 800 None s' in
       totalAttempts after = S (totalAttempts before)
       /\ successfulDownloads after
          = (successfulDownloads before + if valid r then 1 else 0)%nat
       /\ failedAttempts after
          = (failedAttempts before + if valid r then 0 else 1)%nat
       /\ totalTokens after = totalTokens before
       /\ (activeTokens after <= activeTokens before)%nat.
Proof.
  apply (statistics_follow_verification reliable 500 "tok-1" "a@b.com" None None
           sample_store 800); [reflexivity | reflexivity | discriminate].
Defined.

End StatisticsFacts.

(** * Calls that read before any of them writes *)

Module LockstepFacts.

Import SecureDownloads Interleaving Spec Invariants Samples More.

Lemma run_schedule_app a b :
  forall pool s,
    run_schedule (a ++ b) pool s
    = run_schedule b (fst (run_schedule a pool s)) (snd (run_schedule a pool s)).
Proof.
  induction a as [|io a IH]; intros pool s; simpl; [reflexivity|].
  destruct (step_pool io pool s) as [pool' s']. apply IH.
Qed.

Lemma served_app a b : served (a ++ b) = (served a ++ served b)%list.
Proof. unfold served. apply map_app. Qed.

Lemma nth_error_middle {A} (pre : list A) x post :
  nth_error (pre ++ x :: post) (List.length pre) = Some x.
Proof. induction pre as [|a pre IH]; simpl; auto. Qed.

Lemma replace_nth_middle {A} (pre : list A) x y post :
  replace_nth (List.length pre) y (pre ++ x :: post) = (pre ++ y :: post)%list.
Proof. induction pre as [|a pre IH]; simpl; [reflexivity|now rewrite IH]. Qed.

(** Serving, in order, one request of each call of a block of the pool, when
    each of these requests turns its call into [F] of it and the store into
    [G] of it. *)
Lemma run_block (F : thread -> thread) (G : thread -> Store -> Store)
    (Q : thread -> Prop) (J : Store -> Prop) :
  (forall th s, Q th -> J s ->
                step Resolves th s = (F th, G th s) /\ J (G th s)) ->
  forall post pre s,
    Forall Q post -> J s ->
    run_schedule (served (seq (List.length pre) (List.length post)))
      (pre ++ post) s
    = ((pre ++ map F post)%list, fold_left (fun acc th => G th acc) post s)
    /\ J (fold_left (fun acc th => G th acc) post s).
Proof.
  intros H. induction post as [|th post IH]; intros pre s HQ HJ; simpl.
  - now rewrite !app_nil_r.
  - inversion HQ as [|x l Hth Hpost]; subst.
    destruct (H th s Hth HJ) as [E J'].
    unfold step_pool. simpl. rewrite nth_error_middle, E, replace_nth_middle.
    specialize (IH (pre ++ [F th])%list (G th s) Hpost J').
    rewrite length_app in IH. simpl in IH. rewrite Nat.add_1_r in IH.
    rewrite <- !app_assoc in IH. simpl in IH. exact IH.
Qed.

Lemma after_select_allows t td c :
  presents t td c -> download_count td < max_downloads td ->
  after_select c (Some td)
  = AtLog (attempt_row (c_now c) (Some (id td)) (c_email c) true None
             (c_ip c) (c_ua c))
          (AtUpdate c (id td) (SetCount (download_count td + 1) (c_now c))
             (allowing td)).
Proof.
  intros [Ht [Hn He]] Hq. unfold after_select.
  assert (E1 : (c_now c >? expires_at td) = false).
  { rewrite Z.gtb_ltb. apply Z.ltb_ge. lia. }
  rewrite E1, He, String.eqb_refl. simpl.
  assert (E2 : (download_count td >=? max_downloads td) = false).
  { rewrite Z.geb_leb. apply Z.leb_gt. lia. }
  now rewrite E2.
Qed.

(** A later write of the counter to the rows of a key replaces an earlier
    one. *)
Lemma later_write_wins i n k1 k2 rows :
  update_where_id i (set_download_count n k2)
    (update_where_id i (set_download_count n k1) rows)
  = update_where_id i (set_download_count n k2) rows.
Proof.
  unfold update_where_id. rewrite map_map. apply map_ext. intros r.
  destruct (String.eqb (id r) i) eqn:E; simpl; rewrite E; reflexivity.
Qed.

Lemma fold_logs_keep_tokens ths :
  forall s,
    secure_download_tokens (fold_left (fun acc th => log_of th acc) ths s)
    = secure_download_tokens s.
Proof.
  induction ths as [|th ths IH]; intros s; simpl; [reflexivity|].
  rewrite IH. destruct th; reflexivity.
Qed.

Lemma fold_writes td cs :
  cs <> [] ->
  forall s,
  exists k,
    secure_download_tokens
      (fold_left (fun acc th => write_of th acc) (map (updating td) cs) s)
    = update_where_id (id td)
        (set_download_count (download_count td + 1) k)
        (secure_download_tokens s).
Proof.
  induction cs as [|c cs IH]; intros Hne s; [congruence|].
  assert (E0 : fold_left (fun acc th => write_of th acc)
                 (map (updating td) (c :: cs)) s
               = fold_left (fun acc th => write_of th acc)
                   (map (updating td) cs) (write_of (updating td c) s))
    by reflexivity.
  rewrite E0. clear E0.
  destruct cs as [|c' cs'].
  - simpl. now exists (c_now c).
  - destruct (IH ltac:(discriminate)
                (write_of (updating td c) s)) as [k E].
    exists k. rewrite E. simpl. apply later_write_wins.
Qed.

Lemma allow_count_repeat r n :
  valid r = true -> allow_count (repeat (Returned r) n) = n.
Proof.
  intros V. unfold allow_count. induction n as [|n IH]; simpl; [reflexivity|].
  rewrite V. simpl. now rewrite IH.
Qed.

Lemma map_const_repeat {A B} (b : B) (l : list A) :
  map (fun _ => b) l = repeat b (List.length l).
Proof. induction l as [|a l IH]; simpl; [reflexivity|now rewrite IH]. Qed.

(** X13.  Calls that all read before any of them writes are all allowed:
    when [n] calls under the right identity, in time, reach a grant with a
    download left, and the store serves the select of each, then the audit
    insert of each, then the update of each, every call returns ALLOW,
    whatever [n] is, and the grant ends with one more on its counter, not
    [n] more. *)
Theorem calls_in_lockstep_are_all_allowed t td cs s :
  cs <> [] ->
  single (filter (active_with_token t) (secure_download_tokens s)) = Some td ->
  Forall (presents t td) cs ->
  download_count td < max_downloads td ->
  let out := run_schedule (in_lockstep (List.length cs)) (map AtSelect cs) s in
  fst out = repeat (Returned (allowing td)) (List.length cs)
  /\ allow_count (fst out) = List.length cs
  /\ exists td',
       single (filter (active_with_token t) (secure_download_tokens (snd out)))
       = Some td'
       /\ download_count td' = download_count td + 1.
Proof.
  intros Hne S HP Hq out. subst out.
  pose (F1 := fun th => match th with
                        | AtSelect c => after_select c (Some td)
                        | _ => th
                        end).
  pose (F2 := fun th => match th with AtLog _ next => next | _ => th end).
  pose (F3 := fun th => match th with
                        | AtUpdate _ _ _ r => Returned r
                        | _ => th
                        end).
  assert (E1 : run_schedule (served (seq 0 (List.length cs)))
                 (map AtSelect cs) s
               = (map (logging td) cs, s)).
  { destruct (run_block F1 (fun _ acc => acc)
                (fun th => exists c, th = AtSelect c /\ c_token c = t)
                (fun s0 => secure_download_tokens s0 = secure_download_tokens s))
      with (post := map AtSelect cs) (pre := @nil thread) (s := s)
      as [E _].
    - intros th s0 [c [-> Ht]] J. cbn [step F1]. rewrite Ht, J, S. auto.
    - apply Forall_forall. intros th Hth. apply in_map_iff in Hth.
      destruct Hth as [c [<- Hc]]. exists c. split; auto.
      rewrite Forall_forall in HP. now destruct (HP c Hc).
    - reflexivity.
    - cbn [List.length app] in E. rewrite length_map in E. rewrite E. f_equal.
      + rewrite map_map. apply map_ext_in. intros c Hc. unfold F1.
        rewrite Forall_forall in HP.
        now apply after_select_allows with (t := t); [apply HP|].
      + clear. induction (map AtSelect cs) as [|x l IH]; auto. }
  assert (E2 : forall s1,
             run_schedule (served (seq 0 (List.length cs)))
               (map (logging td) cs) s1
             = (map (updating td) cs,
                fold_left (fun acc th => log_of th acc) (map (logging td) cs) s1)).
  { intros s1.
    destruct (run_block F2 log_of
                (fun th => exists c, th = logging td c) (fun _ => True))
      with (post := map (logging td) cs) (pre := @nil thread) (s := s1)
      as [E _].
    - intros th s0 [c ->] _. split; [reflexivity|exact I].
    - apply Forall_forall. intros th Hth. apply in_map_iff in Hth.
      destruct Hth as [c [<- _]]. now exists c.
    - exact I.
    - cbn [List.length app] in E. rewrite length_map in E. rewrite E. f_equal.
      rewrite map_map. apply map_ext. intros c. reflexivity. }
  assert (E3 : forall s2,
             run_schedule (served (seq 0 (List.length cs)))
               (map (updating td) cs) s2
             = (repeat (Returned (allowing td)) (List.length cs),
                fold_left (fun acc th => write_of th acc)
                  (map (updating td) cs) s2)).
  { intros s2.
    destruct (run_block F3 write_of
                (fun th => exists c, th = updating td c) (fun _ => True))
      with (post := map (updating td) cs) (pre := @nil thread) (s := s2)
      as [E _].
    - intros th s0 [c ->] _. split; [reflexivity|exact I].
    - apply Forall_forall. intros th Hth. apply in_map_iff in Hth.
      destruct Hth as [c [<- _]]. now exists c.
    - exact I.
    - cbn [List.length app] in E. rewrite length_map in E. rewrite E. f_equal.
      rewrite map_map. rewrite <- map_const_repeat. apply map_ext.
      intros c. reflexivity. }
  unfold in_lockstep. rewrite !served_app.
  rewrite run_schedule_app, E1. cbn [fst snd].
  rewrite run_schedule_app, E2. cbn [fst snd].
  rewrite E3. cbn [fst snd].
  split; [reflexivity|]. split; [now apply allow_count_repeat|].
  destruct (fold_writes td cs Hne
              (fold_left (fun acc th => log_of th acc) (map (logging td) cs) s))
    as [k K].
  rewrite K, fold_logs_keep_tokens.
  exists (set_download_count (download_count td + 1) k td). split; [|reflexivity].
  rewrite MoreTokenFacts.filter_update_where_id by (intros x; reflexivity).
  apply MoreTokenFacts.single_some in S. rewrite S.
  unfold update_where_id. cbn [map]. rewrite String.eqb_refl. reflexivity.
Qed.

Lemma calls_in_lockstep_are_all_allowed_witness :
  let out := run_schedule (in_lockstep (List.length ten_calls))
               (map AtSelect ten_calls) sample_store in
  fst out = repeat (Returned (allowing sample_token)) (List.length ten_calls)
  /\ allow_count (fst out) = List.length ten_calls
  /\ exists td',
       single (filter (active_with_token "tok-1")
                 (secure_download_tokens (snd out))) = Some td'
       /\ download_count td' = download_count sample_token + 1.
Proof.
  apply (calls_in_lockstep_are_all_allowed "tok-1" sample_token ten_calls
           sample_store).
  - discriminate.
  - reflexivity.
  - unfold ten_calls. simpl.
    repeat (constructor; [repeat split; simpl; lia|]). constructor.
  - simpl. lia.
Defined.

End LockstepFacts.

(** * Properties of the document download utility *)

Module DocumentFacts.

Import DocumentDownload More.

Lemma link_for_keeps_identity w now options d :
  link_id (link_for w now options d) = id d
  /\ link_name (link_for w now options d) = name d.
Proof.
  unfold link_for.
  destruct (method options); simpl; auto.
  - destruct (includes "supabase" (url d)); simpl; auto.
    destruct (storage_path (url d)); simpl; auto.
    destruct (sign w); simpl; auto.
    destruct (valid_date _); simpl; auto.
  - destruct (Z.ltb _ _); simpl; auto.
    destruct (fetched w); simpl; auto.
Qed.

(** X14.  [generateDownloadableLinks] gives exactly one link per document,
    in the order of the documents, each under the key and the name of its
    document, for every method and whatever signing and fetching do: a
    document is never dropped and never duplicated. *)
Theorem one_link_per_document world now documents options :
  map link_id (generateDownloadableLinks world now documents options)
  = map id documents
  /\ map link_name (generateDownloadableLinks world now documents options)
     = map name documents.
Proof.
  unfold generateDownloadableLinks. generalize 0%nat.
  induction documents as [|d rest IH]; intros n; simpl; [auto|].
  destruct (link_for_keeps_identity (world n) now options d) as [A B].
  destruct (IH (S n)) as [C D]. now rewrite A, B, C, D.
Qed.

(** X15.  A link carries an expiry only together with a signed URL: if the
    link of a document has [expiresAt], then the method is signed-url, the
    document's URL mentions supabase and holds a storage path, signing
    succeeded, the link's URL is the signed one, and the expiry lies
    [expirationMinutes] minutes after the call, 60 minutes when the option is
    absent or 0.  Every other link is unsigned and has no expiry. *)
Theorem expiry_comes_with_a_signed_url w now options d t :
  expiresAt (link_for w now options d) = Some t ->
  method options = signed_url
  /\ includes "supabase" (url d) = true
  /\ (exists path, storage_path (url d) = Some path)
  /\ sign w = Signed (downloadUrl (link_for w now options d))
  /\ t = now + minutes_or_60 options * 60 * 1000
  /\ (expirationMinutes options = None \/ expirationMinutes options = Some 0 ->
      t = now + 3600000).
Proof.
  unfold link_for.
  destruct (method options); simpl; try discriminate.
  - destruct (includes "supabase" (url d)); simpl; try discriminate.
    destruct (storage_path (url d)) as [path|]; simpl; try discriminate.
    destruct (sign w) as [signedUrl| |]; simpl; try discriminate.
    destruct (valid_date _); simpl; try discriminate.
    intros [= <-]. repeat split; eauto.
    unfold minutes_or_60. intros [->| ->]; simpl; lia.
  - destruct (Z.ltb _ _); simpl; try discriminate.
    destruct (fetched w); simpl; discriminate.
Qed.

Lemma expiry_comes_with_a_signed_url_witness :
  method default_options = signed_url
  /\ includes "supabase" (url storage_document) = true
  /\ (exists path, storage_path (url storage_document) = Some path)
  /\ sign signing_world
     = Signed (downloadUrl (link_for signing_world 1000 default_options
                              storage_document))
  /\ 3601000 = 1000 + minutes_or_60 default_options * 60 * 1000
  /\ (expirationMinutes default_options = None
      \/ expirationMinutes default_options = Some 0 ->
      3601000 = 1000 + 3600000).
Proof.
  apply (expiry_comes_with_a_signed_url signing_world 1000 default_options
           storage_document 3601000).
  vm_compute. reflexivity.
Defined.

Lemma strip_prefix_append p r : strip_prefix p (p ++ r) = Some r.
Proof.
  induction p as [|a p IH]; simpl; [now destruct r|].
  now rewrite Ascii.eqb_refl.
Qed.

Lemma strip_prefix_sound p :
  forall s r, strip_prefix p s = Some r -> s = p ++ r.
Proof.
  induction p as [|a p IH]; intros s r H.
  - destruct s; simpl in H; injection H as <-; reflexivity.
  - destruct s as [|b s]; simpl in H; [discriminate|].
    destruct (Ascii.eqb a b) eqn:E; [|discriminate].
    apply Ascii.eqb_eq in E. subst b. simpl. f_equal. now apply IH.
Qed.

Lemma storage_path_unfold s :
  storage_path s
  = match path_here s with
    | Some rest => Some rest
    | None =>
        match s with
        | EmptyString => None
        | String _ s' => storage_path s'
        end
    end.
Proof. destruct s; reflexivity. Qed.

Lemma path_here_sound s p :
  path_here s = Some p ->
  s = storage_prefix ++ p /\ p <> EmptyString /\ has_line_terminator p = false.
Proof.
  unfold path_here.
  destruct (strip_prefix storage_prefix s) as [rest|] eqn:E; [|discriminate].
  destruct (String.eqb rest EmptyString) eqn:N; simpl; [discriminate|].
  destruct (has_line_terminator rest) eqn:L; simpl; [discriminate|].
  intros [= <-]. apply strip_prefix_sound in E. apply String.eqb_neq in N. auto.
Qed.

Lemma path_here_complete p :
  p <> EmptyString -> has_line_terminator p = false ->
  path_here (storage_prefix ++ p) = Some p.
Proof.
  intros N L. unfold path_here. rewrite strip_prefix_append.
  apply String.eqb_neq in N. now rewrite N, L.
Qed.

(** X16.  The storage path is read off a URL soundly and whenever there is
    one: a path found is what follows the storage prefix up to the end of the
    URL, is not empty and holds no line terminator; and a URL that ends in
    the prefix followed by such a path always yields a path. *)
Theorem storage_path_is_found :
  (forall s p,
      storage_path s = Some p ->
      exists before,
        s = before ++ storage_prefix ++ p
        /\ p <> EmptyString /\ has_line_terminator p = false)
  /\ (forall before p,
         p <> EmptyString -> has_line_terminator p = false ->
         exists p', storage_path (before ++ storage_prefix ++ p) = Some p').
Proof.
  split.
  - induction s as [|c s IH]; intros p H; rewrite storage_path_unfold in H.
    + destruct (path_here EmptyString) as [rest|] eqn:E; [|discriminate].
      injection H as ->. exists EmptyString. now apply path_here_sound.
    + destruct (path_here (String c s)) as [rest|] eqn:E.
      * injection H as ->. exists EmptyString. now apply path_here_sound.
      * destruct (IH p H) as [before [E1 [N L]]].
        exists (String c before). split; [rewrite E1; reflexivity|auto].
  - induction before as [|c before IH]; intros p N L;
      rewrite storage_path_unfold.
    + change (EmptyString ++ storage_prefix ++ p) with (storage_prefix ++ p).
      rewrite (path_here_complete p N L). eauto.
    + destruct (path_here (String c before ++ storage_prefix ++ p));
        [eauto|]. cbn [append]. now apply IH.
Qed.

Lemma storage_path_is_found_witness :
  (exists before,
      url storage_document = before ++ storage_prefix ++ "a/report.pdf"
      /\ "a/report.pdf" <> EmptyString
      /\ has_line_terminator "a/report.pdf" = false)
  /\ exists p',
       storage_path ("https://x.supabase.co" ++ storage_prefix ++ "a/report.pdf")
       = Some p'.
Proof.
  split.
  - apply (proj1 storage_path_is_found (url storage_document) "a/report.pdf").
    vm_compute. reflexivity.
  - apply (proj2 storage_path_is_found "https://x.supabase.co" "a/report.pdf").
    + discriminate.
    + vm_compute. reflexivity.
Defined.

End DocumentFacts.

(** * Properties of the single-factor page *)

Module SecurePageFacts.

Import SecureDownloads SecureDownloadPage SecureDownloadFlow Samples More.

(** The results [verifyDownloadToken] can return: ALLOW with the grant, or a
    denial with one of five reasons and no grant. *)
Lemma verify_results env now t e ip ua s :
  exists r s',
    verifyDownloadToken env now t e ip ua s = (inl r, s')
    /\ ((valid r = true /\ reason r = None)
        \/ (valid r = false /\ tokenData r = None
            /\ In (reason r)
                 [Some "Invalid or expired token";
                  Some "Download link has expired";
                  Some "This download link is not authorized for your email address";
                  Some "Download limit exceeded for this link";
                  Some "System error occurred"])).
Proof.
  destruct env as [os ol ou oc].
  unfold verifyDownloadToken, logDownloadAttempt, try_catch, bind, ret,
    select_active_token, insert_attempt, update_token. simpl.
  destruct os; simpl.
  - destruct (single _) as [td|]; simpl.
    + destruct (now >? expires_at td); simpl.
      * destruct ol, ou, oc; simpl; eexists; eexists;
          (split; [reflexivity|]); right; simpl; tauto.
      * destruct (negb _); simpl.
        { destruct ol; simpl; eexists; eexists;
            (split; [reflexivity|]); right; simpl; tauto. }
        destruct (download_count td >=? max_downloads td); simpl.
        { destruct ol; simpl; eexists; eexists;
            (split; [reflexivity|]); right; simpl; tauto. }
        destruct ol, ou, oc; simpl; eexists; eexists;
          (split; [reflexivity|]);
          first [ left; simpl; tauto | right; simpl; tauto ].
    + destruct ol; simpl; eexists; eexists;
        (split; [reflexivity|]); right; simpl; tauto.
  - destruct ol; simpl; eexists; eexists;
      (split; [reflexivity|]); right; simpl; tauto.
  - destruct oc; simpl; eexists; eexists;
      (split; [reflexivity|]); right; simpl; tauto.
Qed.

Lemma handleVerifyAccess_keeps env now ua p s :
  denials_carry_no_grant p ->
  denials_carry_no_grant (fst (handleVerifyAccess env now ua p s)).
Proof.
  intros H. unfold handleVerifyAccess.
  destruct (token p) as [t|]; [|exact H].
  destruct (_ || _)%bool; [exact H|].
  destruct (verify_results env now t (email p) (clientIP p) (Some ua) s)
    as [r [s' [E C]]].
  rewrite E. simpl.
  assert (K : valid r = false -> tokenData r = None) by (destruct C; intuition congruence).
  destruct (valid r) eqn:V; simpl; intros r0 [= <-] V0; auto; congruence.
Qed.

Lemma secure_handle_keeps e p s :
  denials_carry_no_grant p ->
  denials_carry_no_grant (fst (fst (handle e p s)))
  /\ forall o, In o (snd (handle e p s)) -> exists d, o = Downloaded d.
Proof.
  intros H. unfold handle.
  destruct (enabled e p) eqn:En; [|split; [exact H|intros o []]].
  destruct e as [ip|text|env now ua| | |]; simpl.
  - split; [exact H|intros o []].
  - split; [exact H|intros o []].
  - split; [|intros o []].
    destruct (handleVerifyAccess env now ua p s) as [p' s'] eqn:E.
    change p' with (fst (p', s')). rewrite <- E.
    now apply handleVerifyAccess_keeps.
  - split; [|intros o []]. intros r E. discriminate E.
  - split; [exact H|].
    simpl in En. unfold offers_new_links in En.
    unfold handleRequestNewLinks.
    destruct (verificationResult p) as [r|] eqn:R; [|intros o []].
    apply andb_prop in En. destruct En as [V _].
    apply negb_true_iff in V. rewrite (H r R V). intros o [].
  - split; [exact H|].
    destruct (handleDownload p) as [d|]; simpl; [|intros o []].
    intros o [<-|[]]. eauto.
Qed.

Lemma run_keeps events :
  forall p s,
    denials_carry_no_grant p ->
    forall o, In o (snd (run events p s)) -> exists d, o = Downloaded d.
Proof.
  induction events as [|e rest IH]; intros p s H o Ho; simpl in Ho.
  - destruct Ho.
  - destruct (secure_handle_keeps e p s H) as [H1 O1].
    destruct (handle e p s) as [[p1 s1] out1]. simpl in H1, O1.
    specialize (IH p1 s1 H1).
    destruct (run rest p1 s1) as [[p2 s2] out2]. simpl in *.
    apply in_app_or in Ho. destruct Ho as [Ho|Ho]; auto.
Qed.

(** X17.  The "Request New Links" button never requests anything: over
    every visit of the page, whatever the visitor types and presses and
    whatever the store answers, [requestNewDownloadLinks] is never called.
    The button is shown for a denial only, the handler asks for the order of
    the grant in the result, and a denial carries no grant. *)
Theorem new_links_are_never_requested
    token_ emailParam_ env now userAgent events s :
  forall o,
    In o (snd (visit token_ emailParam_ env now userAgent events s)) ->
    exists d, o = Downloaded d.
Proof.
  unfold visit.
  destruct (on_mount env now userAgent (initial token_ emailParam_) s)
    as [p0 s0] eqn:E.
  apply run_keeps.
  assert (I0 : denials_carry_no_grant (initial token_ emailParam_))
    by (intros r H; discriminate H).
  unfold on_mount in E.
  destruct (_ && _)%bool.
  - change p0 with (fst (p0, s0)). rewrite <- E.
    now apply handleVerifyAccess_keeps.
  - now injection E as <- <-.
Qed.

Lemma new_links_are_never_requested_witness :
  In (Downloaded "doc-1")
     (snd (visit (Some "tok-1") (Some "a@b.com") reliable 500 "agent"
             [PressDownload] sample_store))
  /\ exists d, Downloaded "doc-1" = Downloaded d.
Proof.
  assert (H : In (Downloaded "doc-1")
                 (snd (visit (Some "tok-1") (Some "a@b.com") reliable 500
                         "agent" [PressDownload] sample_store)))
    by (vm_compute; left; reflexivity).
  split; [exact H|].
  exact (new_links_are_never_requested (Some "tok-1") (Some "a@b.com")
           reliable 500 "agent" [PressDownload] sample_store
           (Downloaded "doc-1") H).
Defined.

(** X18.  What the page offers after a verification follows the reason
    returned: "Request New Links" exactly for the InvalidToken and Expired
    denials, "Try Different Email" exactly for the IdentityMismatch denial,
    the download exactly for ALLOW; a quota denial and a system error offer
    none of the three. *)
Theorem offers_follow_the_reason env now userAgent p s t :
  token p = Some t -> t <> EmptyString -> email p <> EmptyString ->
  let p' := fst (handleVerifyAccess env now userAgent p s) in
  exists r,
    verificationResult p' = Some r
    /\ (offers_new_links p' = true <->
        reason r = Some "Invalid or expired token"
        \/ reason r = Some "Download link has expired")
    /\ (offers_other_email p' = true <->
        reason r
        = Some "This download link is not authorized for your email address")
    /\ (offers_download p' = true <-> reason r = None).
Proof.
  intros Ht Hne He p'. subst p'. unfold handleVerifyAccess. rewrite Ht.
  apply String.eqb_neq in Hne. apply String.eqb_neq in He.
  rewrite Hne, He. simpl.
  destruct (verify_results env now t (email p) (clientIP p) (Some userAgent) s)
    as [r [s' [E C]]].
  rewrite E. exists r.
  destruct C as [[V R]|[V [_ C]]].
  - rewrite V. simpl.
    unfold offers_new_links, offers_other_email, offers_download. simpl.
    rewrite V, R. simpl.
    repeat split; intros; try discriminate; auto;
      repeat match goal with H : _ \/ _ |- _ => destruct H end;
      try discriminate.
  - rewrite V. simpl.
    unfold offers_new_links, offers_other_email, offers_download,
      reason_includes. simpl. rewrite V.
    simpl in C.
    destruct C as [C|[C|[C|[C|[C|[]]]]]]; rewrite <- C;
      (split; [reflexivity|]); vm_compute;
      repeat split; intros; try discriminate; auto;
      repeat match goal with H : _ \/ _ |- _ => destruct H end;
      try discriminate.
Qed.

Lemma offers_follow_the_reason_witness :
  let p := initial (Some "tok-1") (Some "x@y.com") in
  let p' := fst (handleVerifyAccess reliable 500 "agent" p sample_store) in
  exists r,
    verificationResult p' = Some r
    /\ (offers_new_links p' = true <->
        reason r = Some "Invalid or expired token"
        \/ reason r = Some "Download link has expired")
    /\ (offers_other_email p' = true <->
        reason r
        = Some "This download link is not authorized for your email address")
    /\ (offers_download p' = true <-> reason r = None).
Proof.
  apply (offers_follow_the_reason reliable 500 "agent"
           (initial (Some "tok-1") (Some "x@y.com")) sample_store "tok-1");
    [reflexivity | discriminate | discriminate].
Defined.

(** X19.  The time left that the page shows is the time to the expiry
    rounded down to whole minutes, as hours and minutes under 60, the hours
    left out when there are none; "Expired" is shown from the instant of
    expiry on. *)
Theorem time_left_is_rounded_down_to_minutes expiresAt now :
  (expiresAt <= now -> formatExpirationTime expiresAt now = "Expired")
  /\ (now < expiresAt ->
      exists h m,
        0 <= h /\ 0 <= m < 60
        /\ (h * 60 + m) * 60000 <= expiresAt - now < (h * 60 + m + 1) * 60000
        /\ formatExpirationTime expiresAt now
           = if 0 <? h
             then Js.show_int h ++ "h " ++ Js.show_int m ++ "m remaining"
             else Js.show_int m ++ "m remaining").
Proof.
  unfold formatExpirationTime. split; intros H.
  - destruct (expiresAt - now <=? 0) eqn:E; [reflexivity|].
    apply Z.leb_gt in E. lia.
  - destruct (expiresAt - now <=? 0) eqn:E; [apply Z.leb_le in E; lia|].
    clear E. set (d := expiresAt - now). assert (Hd : 0 < d) by (unfold d; lia).
    change (1000 * 60 * 60) with 3600000. change (1000 * 60) with 60000.
    exists (d / 3600000), ((d mod 3600000) / 60000).
    assert (M := Z.mod_pos_bound d 3600000 ltac:(lia)).
    assert (D := Z.div_mod d 3600000 ltac:(lia)).
    assert (M2 := Z.mod_pos_bound (d mod 3600000) 60000 ltac:(lia)).
    assert (D2 := Z.div_mod (d mod 3600000) 60000 ltac:(lia)).
    assert (0 <= d / 3600000) by (apply Z.div_pos; lia).
    assert (0 <= d mod 3600000 / 60000) by (apply Z.div_pos; lia).
    repeat split; try lia.
    rewrite Z.gtb_ltb. reflexivity.
Qed.

Lemma time_left_is_rounded_down_to_minutes_witness :
  formatExpirationTime 1000 1000 = "Expired"
  /\ exists h m,
       0 <= h /\ 0 <= m < 60
       /\ (h * 60 + m) * 60000 <= 7259999 - 0 < (h * 60 + m + 1) * 60000
       /\ formatExpirationTime 7259999 0
          = if 0 <? h
            then Js.show_int h ++ "h " ++ Js.show_int m ++ "m remaining"
            else Js.show_int m ++ "m remaining".
Proof.
  split.
  - apply (proj1 (time_left_is_rounded_down_to_minutes 1000 1000)). lia.
  - apply (proj2 (time_left_is_rounded_down_to_minutes 7259999 0)). lia.
Defined.

End SecurePageFacts.

(** * A visit of the multi-factor page *)

Module FlowFacts.

Import Migration VerifyDownloadPage VerifyDownloadFlow Invariants Samples More.

Lemma map_filter_through {A B} (g : A -> B) (f : A -> bool) (f' : B -> bool) l :
  (forall a, f a = f' (g a)) -> map g (filter f l) = filter f' (map g l).
Proof.
  intros H. induction l as [|a l IH]; simpl; [reflexivity|].
  rewrite <- H. destruct (f a); simpl; now rewrite IH.
Qed.

Lemma single_map {A B} (g : A -> B) l :
  option_map g (single l) = single (map g l).
Proof. destruct l as [|a [|b l]]; reflexivity. Qed.

Lemma on_file_through t db cur :
  map session_columns (secure_download_sessions cur)
  = map session_columns (secure_download_sessions db) ->
  option_map session_columns (session_on_file t cur)
  = option_map session_columns (session_on_file t db).
Proof.
  intros H. unfold session_on_file. rewrite !single_map.
  rewrite !(map_filter_through session_columns _ (active_columns t))
    by reflexivity.
  now rewrite H.
Qed.

Lemma update_where_columns c set (rows : list Session) :
  (forall r, session_columns (set r) = session_columns r) ->
  map session_columns (update_where c set rows) = map session_columns rows.
Proof.
  intros H. unfold update_where. rewrite map_map. apply map_ext.
  intros r. destruct (c r); auto.
Qed.

Lemma columns_agree s s' :
  session_columns s = session_columns s' ->
  SecureDownloadSessions.id s = SecureDownloadSessions.id s'
  /\ SecureDownloadSessions.recipient_email s
     = SecureDownloadSessions.recipient_email s'
  /\ SecureDownloadSessions.verification_code s
     = SecureDownloadSessions.verification_code s'
  /\ SecureDownloadSessions.max_downloads s
     = SecureDownloadSessions.max_downloads s'.
Proof. unfold session_columns. intros H. injection H. auto. Qed.

(** [checkSession] leaves the step and what was typed alone, and the copy
    of the session it may set is the one it finds on file. *)
Lemma checkSession_shape os od now hr t cur p :
  let p' := checkSession os od now hr t cur p in
  step p' = step p /\ email p' = email p
  /\ verificationCode p' = verificationCode p
  /\ (sessionData p' = sessionData p
      \/ exists s, session_on_file t cur = Some s /\ sessionData p' = Some s).
Proof.
  unfold checkSession, session_on_file.
  destruct os; simpl; auto 6.
  destruct (single _) as [session|]; simpl; auto 6.
  destruct (_ <? now); simpl; auto 6.
  destruct (outside_window hr session); simpl; auto 6.
  destruct od; simpl; repeat split; right; exists session; auto.
Qed.

Lemma checkSession_keeps token db os od now hr cur cur0 p :
  visit_invariant token db (p, cur0) ->
  map session_columns (secure_download_sessions cur)
  = map session_columns (secure_download_sessions db) ->
  (step p <> 3 -> cur = db) ->
  visit_invariant token db (checkSession os od now hr token cur p, cur).
Proof.
  intros [_ [B [_ [D [E F]]]]] A C.
  destruct (checkSession_shape os od now hr token cur p) as [S1 [S2 [S3 S4]]].
  unfold visit_invariant. rewrite S1, S2, S3.
  assert (D' : forall s, sessionData (checkSession os od now hr token cur p)
                         = Some s ->
                         option_map session_columns (session_on_file token db)
                         = Some (session_columns s)).
  { intros s Hs. destruct S4 as [S4|[s' [O S4]]].
    - apply D. congruence.
    - rewrite <- (on_file_through token db cur A), O. simpl. congruence. }
  assert (K : forall s, sessionData p = Some s ->
                        exists s', sessionData (checkSession os od now hr token cur p)
                                   = Some s'
                                   /\ session_columns s' = session_columns s).
  { intros s Hs. destruct S4 as [S4|[s' [O S4]]].
    - exists s. split; congruence.
    - exists s'. split; [exact S4|].
      specialize (D s Hs). specialize (D' s' S4). congruence. }
  repeat split; auto.
  - intros H. destruct (E H) as [s [Hs L]].
    destruct (K s Hs) as [s' [Hs' Q]]. exists s'. split; [exact Hs'|].
    destruct (columns_agree _ _ Q) as [_ [-> _]]. exact L.
  - intros H. destruct (F H) as [s [Hs L]].
    destruct (K s Hs) as [s' [Hs' Q]]. exists s'. split; [exact Hs'|].
    destruct (columns_agree _ _ Q) as [_ [_ [-> _]]]. exact L.
Qed.

(** No event is enabled while [error] is set. *)
Lemma enabled_needs_no_error e p : enabled e p = true -> error p = None.
Proof.
  unfold enabled, render. destruct (error p); [discriminate|reflexivity].
Qed.

Lemma handle_keeps token db e st :
  visit_invariant token db st -> visit_invariant token db (handle token e st).
Proof.
  destruct st as [p cur]. intros I. unfold handle.
  destruct (enabled e p) eqn:En; [|exact I].
  assert (Er := enabled_needs_no_error e p En).
  unfold enabled, render in En. rewrite Er in En.
  destruct I as [A [B [C [D [E F]]]]].
  destruct e as [text| |text|o now|env now hr documentId documentUrl].
  - apply Z.eqb_eq in En. unfold visit_invariant. simpl.
    repeat split; auto; intros H; congruence.
  - apply andb_prop in En. destruct En as [En Ne]. apply Z.eqb_eq in En.
    unfold handleEmailVerification.
    destruct (sessionData p) as [session|] eqn:Hs;
      [|unfold visit_invariant; rewrite Hs; repeat split; auto].
    destruct (String.eqb (email p) EmptyString);
      [unfold visit_invariant; rewrite Hs; repeat split; auto|].
    destruct (String.eqb _ _) eqn:Q; simpl.
    + apply String.eqb_eq in Q. unfold visit_invariant. simpl.
      rewrite Hs. repeat split; auto.
      * intros _. apply C. lia.
      * intros _. exists session. auto.
      * intros H. discriminate H.
    + unfold visit_invariant. simpl. rewrite Hs. repeat split; auto.
  - apply Z.eqb_eq in En. unfold visit_invariant. simpl.
    repeat split; auto. intros H. congruence.
  - apply andb_prop in En. destruct En as [En _].
    apply andb_prop in En. destruct En as [En _]. apply Z.eqb_eq in En.
    unfold handleCodeVerification.
    destruct (sessionData p) as [session|] eqn:Hs;
      [|unfold visit_invariant; rewrite Hs; repeat split; auto].
    destruct (String.eqb (verificationCode p) EmptyString);
      [unfold visit_invariant; rewrite Hs; repeat split; auto|].
    destruct (String.eqb _ _) eqn:Q; simpl.
    + apply String.eqb_eq in Q.
      destruct o; unfold visit_invariant; simpl; rewrite Hs;
        repeat split; auto.
      * rewrite <- A. now apply update_where_columns.
      * intros H. contradiction H. reflexivity.
      * intros _. apply E. lia.
      * intros _. exists session. auto.
    + unfold visit_invariant. simpl. rewrite Hs. repeat split; auto.
  - apply andb_prop in En. destruct En as [En _].
    apply andb_prop in En. destruct En as [En _]. apply Z.eqb_eq in En.
    assert (I : visit_invariant token db (p, cur))
      by (unfold visit_invariant; auto 7).
    assert (Fail : forall m cur',
               secure_download_sessions cur' = secure_download_sessions cur ->
               visit_invariant token db (setError m p, cur')).
    { intros m cur' Q. unfold visit_invariant. simpl. rewrite Q.
      repeat split; auto. intros H. congruence. }
    unfold handleDownload.
    destruct (on_document_update env); cbv beta iota zeta;
      try (now apply Fail).
    all: destruct (sessionData p) as [session|] eqn:Hs.
    all: try (now apply Fail).
    all: destruct (on_session_update env); cbv beta iota zeta;
      try (now apply Fail).
    all: match goal with
         | |- visit_invariant _ _ (checkSession _ _ _ _ _ ?c _, _) =>
             apply (checkSession_keeps token db (on_refresh_session env)
                      (on_refresh_docs env) now hr c cur p I)
         end; simpl.
    all: try (intros H; congruence); try exact A.
    all: rewrite <- A; now apply update_where_columns.
Qed.

Lemma on_mount_keeps os od now hr token fp db :
  visit_invariant token db (on_mount os od now hr token fp db, db).
Proof.
  assert (I : forall f, visit_invariant token db (initial f, db)).
  { intros f. unfold visit_invariant. simpl.
    repeat split; auto; intros; congruence. }
  unfold on_mount. destruct (String.eqb token EmptyString); [apply I|].
  apply (checkSession_keeps token db os od now hr db db _ (I fp)); auto.
Qed.



Lemma NoDup_keys_same (rows : list Session) a b :
  NoDup (map SecureDownloadSessions.id rows) -> In a rows -> In b rows ->
  SecureDownloadSessions.id a = SecureDownloadSessions.id b -> a = b.
Proof.
  induction rows as [|x l IH]; simpl; intros ND Ha Hb E; [contradiction|].
  inversion ND as [|y m Hnot ND']; subst.
  destruct Ha as [->|Ha], Hb as [->|Hb]; auto.
  - exfalso. apply Hnot. rewrite E. now apply in_map.
  - exfalso. apply Hnot. rewrite <- E. now apply in_map.
Qed.

(** Along a visit the page's copy of the session carries the quota of the
    stored rows of its key. *)
Lemma visit_quota_agrees token db p cur session :
  NoDup (map SecureDownloadSessions.id (secure_download_sessions db)) ->
  visit_invariant token db (p, cur) ->
  sessionData p = Some session ->
  quota_agrees session (secure_download_sessions cur).
Proof.
  intros ND [A [_ [_ [D _]]]] Hs r Hr Hid.
  specialize (D session Hs).
  unfold session_on_file in D.
  destruct (single _) as [s0|] eqn:O; [|discriminate D].
  simpl in D. assert (D0 : session_columns s0 = session_columns session)
    by congruence.
  apply RaceFacts.single_in in O. apply filter_In in O. destruct O as [O _].
  assert (In (session_columns r) (map session_columns (secure_download_sessions db))).
  { rewrite <- A. now apply in_map. }
  apply in_map_iff in H. destruct H as [r0 [Q Hr0]].
  destruct (columns_agree _ _ Q) as [I0 [_ [_ M0]]].
  destruct (columns_agree _ _ D0) as [I1 [_ [_ M1]]].
  assert (r0 = s0) by (apply (NoDup_keys_same _ _ _ ND Hr0 O); congruence).
  subst r0. congruence.
Qed.

Lemma update_where_counts c set (rows : list Session) :
  (forall r, SecureDownloadSessions.download_count (set r)
             = SecureDownloadSessions.download_count r
             /\ SecureDownloadSessions.max_downloads (set r)
                = SecureDownloadSessions.max_downloads r) ->
  sessions_within_quota rows ->
  sessions_within_quota (update_where c set rows).
Proof.
  intros H W r Hr. unfold update_where in Hr. apply in_map_iff in Hr.
  destruct Hr as [r0 [<- Hr0]]. specialize (W r0 Hr0).
  destruct (c r0); [|exact W]. destruct (H r0) as [-> ->]. exact W.
Qed.

Lemma handle_keeps_quota token db e p cur :
  NoDup (map SecureDownloadSessions.id (secure_download_sessions db)) ->
  visit_invariant token db (p, cur) ->
  sessions_within_quota (secure_download_sessions cur) ->
  sessions_within_quota (secure_download_sessions (snd (handle token e (p, cur)))).
Proof.
  intros ND I W. unfold handle.
  destruct (enabled e p) eqn:En; [|exact W].
  assert (Er := enabled_needs_no_error e p En).
  unfold enabled, render in En. rewrite Er in En.
  destruct e as [text| |text|o now|env now hr documentId documentUrl];
    try exact W.
  - unfold handleCodeVerification.
    destruct (sessionData p) as [session|]; [|exact W].
    destruct (String.eqb (verificationCode p) EmptyString); [exact W|].
    destruct (String.eqb (verificationCode p)
                (SecureDownloadSessions.verification_code session));
      [|exact W].
    destruct o; try exact W. simpl.
    apply update_where_counts; [|exact W]. intros r. split; reflexivity.
  - apply andb_prop in En. destruct En as [_ En]. apply negb_true_iff in En.
    destruct (PageFacts.handleDownload_sessions env now hr token documentId cur p)
      as [->|[session [Hs _]]]; [exact W|].
    apply (PageFacts.handleDownload_keeps_quota env now hr token documentId
             cur p session Hs En); [|exact W].
    now apply (visit_quota_agrees token db p cur session).
Qed.

Lemma fold_keeps_quota token db events :
  NoDup (map SecureDownloadSessions.id (secure_download_sessions db)) ->
  forall p cur,
    visit_invariant token db (p, cur) ->
    sessions_within_quota (secure_download_sessions cur) ->
    sessions_within_quota
      (secure_download_sessions
         (snd (fold_left (fun st e => handle token e st) events (p, cur)))).
Proof.
  intros ND.
  induction events as [|e rest IH]; intros p cur I W; [exact W|].
  cbn [fold_left].
  assert (I' := handle_keeps token db e (p, cur) I).
  assert (W' := handle_keeps_quota token db e p cur ND I W).
  destruct (handle token e (p, cur)) as [p' cur']. exact (IH p' cur' I' W').
Qed.

(** X21.  A visit of the multi-factor page keeps the session counters within
    their quotas: on tables whose keys are unique and whose counters are
    within their quotas, they are so after every visit, whatever the visitor
    does and however the store calls end. *)
Theorem a_visit_keeps_the_quota
    o_session o_docs now currentHour token fingerprint events db :
  NoDup (map SecureDownloadSessions.id (secure_download_sessions db)) ->
  sessions_within_quota (secure_download_sessions db) ->
  sessions_within_quota
    (secure_download_sessions
       (snd (session_of_events o_session o_docs now currentHour token
               fingerprint events db))).
Proof.
  intros ND W. unfold session_of_events.
  apply (fold_keeps_quota token db events ND); [|exact W].
  apply on_mount_keeps.
Qed.

Lemma a_visit_keeps_the_quota_witness :
  sessions_within_quota
    (secure_download_sessions
       (snd (session_of_events Resolves Resolves 500 10 "mfa-1" "fp"
               [TypeEmail "A@B.com"; PressVerifyEmail; TypeCode "123456";
                PressVerifyCode Resolves 510;
                PressDownload download_served 520 10 "doc-row-1" "u"]
               sample_tables))).
Proof.
  apply (a_visit_keeps_the_quota Resolves Resolves 500 10 "mfa-1" "fp"
           [TypeEmail "A@B.com"; PressVerifyEmail; TypeCode "123456";
            PressVerifyCode Resolves 510;
            PressDownload download_served 520 10 "doc-row-1" "u"]
           sample_tables).
  - simpl. constructor; [intros []|constructor].
  - intros r [<-|[]]. simpl. lia.
Defined.

Lemma denied_is_final token events :
  forall p db,
    error p <> None ->
    fold_left (fun st e => handle token e st) events (p, db) = (p, db).
Proof.
  induction events as [|e rest IH]; intros p db H; simpl; [reflexivity|].
  destruct (enabled e p) eqn:En.
  - apply enabled_needs_no_error in En. contradiction.
  - now apply IH.
Qed.

(** X22.  One wrong code ends the visit: when the visitor presses "Verify
    Code" with a code that is not the session's, the page shows "Access
    Denied" with "Invalid verification code", and from then on no event
    changes the page or the tables; the code cannot be typed again. *)
Theorem a_wrong_code_ends_the_visit token o now events p db session :
  error p = None -> step p = 2 -> isVerifying p = false ->
  sessionData p = Some session ->
  verificationCode p <> EmptyString ->
  verificationCode p <> SecureDownloadSessions.verification_code session ->
  let st := fold_left (fun st e => handle token e st)
              (PressVerifyCode o now :: events) (p, db) in
  render (fst st) = AccessDenied "Invalid verification code"
  /\ step (fst st) = 2
  /\ snd st = db.
Proof.
  intros Er St Iv Hs Ne Wr. simpl.
  unfold enabled, render. rewrite Er, St, Iv.
  apply String.eqb_neq in Ne. apply String.eqb_neq in Wr.
  rewrite Ne. simpl. unfold handleCodeVerification. rewrite Hs, Ne, Wr. simpl.
  rewrite denied_is_final by (simpl; discriminate).
  simpl. auto.
Qed.

Lemma a_wrong_code_ends_the_visit_witness :
  let st := fold_left (fun st e => handle "mfa-1" e st)
              [PressVerifyCode Resolves 510; TypeCode "123456";
               PressVerifyCode Resolves 520]
              (page_with_wrong_code, sample_tables) in
  render (fst st) = AccessDenied "Invalid verification code"
  /\ step (fst st) = 2
  /\ snd st = sample_tables.
Proof.
  apply (a_wrong_code_ends_the_visit "mfa-1" Resolves 510
           [TypeCode "123456"; PressVerifyCode Resolves 520]
           page_with_wrong_code sample_tables sample_session);
    first [reflexivity | discriminate].
Defined.

End FlowFacts.

(** * The row-level policies, the page and the sweeps *)

Module PolicyFacts.

Import Migration Policies More.

Lemma filter_update_where_hidden {A} (vis cond : A -> bool) set rows :
  (forall r, vis r = true -> cond r = false) ->
  (forall r, cond r = true -> vis (set r) = false) ->
  filter vis (update_where cond set rows) = filter vis rows.
Proof.
  intros H1 H2. unfold update_where.
  induction rows as [|r rows IH]; simpl; [reflexivity|].
  destruct (cond r) eqn:C.
  - rewrite (H2 r C). destruct (vis r) eqn:V.
    + rewrite (H1 r V) in C. discriminate C.
    + exact IH.
  - destruct (vis r); now rewrite IH.
Qed.

Lemma keys_filter_update_where {A K} (key : A -> K) (vis cond : A -> bool)
    set rows :
  (forall r, key (set r) = key r) ->
  (forall r, cond r = true -> vis r = true /\ vis (set r) = true) ->
  map key (filter vis (update_where cond set rows)) = map key (filter vis rows).
Proof.
  intros H1 H2. unfold update_where.
  induction rows as [|r rows IH]; simpl; [reflexivity|].
  destruct (cond r) eqn:C.
  - destruct (H2 r C) as [-> ->]. simpl. now rewrite H1, IH.
  - destruct (vis r); simpl; now rewrite IH.
Qed.

(** A row the policy shows at [now'] is not stale at an earlier [now], and a
    row just expired is not shown. *)
Lemma shown_is_not_stale now now' active expires :
  now <= now' ->
  active_and_unexpired now' active expires = true ->
  stale now expires active = false.
Proof.
  unfold active_and_unexpired, stale. intros H V.
  apply andb_prop in V. destruct V as [_ V].
  rewrite Z.gtb_ltb in V. apply Z.ltb_lt in V.
  assert (E : (expires <? now) = false) by (apply Z.ltb_ge; lia).
  now rewrite E.
Qed.

Lemma run_job_is_invisible j now db :
  run_at j <= now ->
  secure_download_sessions (public_view now (run_job j db))
  = secure_download_sessions (public_view now db)
  /\ blockchain_download_sessions (public_view now (run_job j db))
     = blockchain_download_sessions (public_view now db)
  /\ progressive_download_sessions (public_view now (run_job j db))
     = progressive_download_sessions (public_view now db)
  /\ customer_portals (public_view now (run_job j db))
     = customer_portals (public_view now db)
  /\ qr_download_sessions (public_view now (run_job j db))
     = qr_download_sessions (public_view now db)
  /\ map ProgressiveUnlocks.id (progressive_unlocks (public_view now (run_job j db)))
     = map ProgressiveUnlocks.id (progressive_unlocks (public_view now db)).
Proof.
  intros H. destruct j as [t|t]; simpl in H; simpl.
  - repeat split.
    apply keys_filter_update_where; [reflexivity|].
    intros r C. unfold due in C. apply andb_prop in C. destruct C as [C _].
    apply Z.leb_le in C. unfold can_view_unlock. simpl.
    assert (E : (ProgressiveUnlocks.unlock_time r <=? now) = true)
      by (apply Z.leb_le; lia).
    rewrite E. split; [apply orb_true_r | reflexivity].
  - repeat split;
      try (apply filter_update_where_hidden;
           [ intros r V; now apply (shown_is_not_stale t now)
           | intros r _; reflexivity ]).
Qed.

(** X23.  The sweeps change nothing that the public can see: at an instant
    not before the runs of the scheduler, the policies show the same session
    rows, portal rows and QR rows after the runs as before them, and the
    unlock entries of the same keys.  Hiding what has expired is the work of
    the policies, not of the sweep. *)
Theorem sweeps_are_invisible_to_the_public jobs now db :
  Forall (fun j => run_at j <= now) jobs ->
  let before := public_view now db in
  let after := public_view now (run_jobs jobs db) in
  secure_download_sessions after = secure_download_sessions before
  /\ blockchain_download_sessions after = blockchain_download_sessions before
  /\ progressive_download_sessions after = progressive_download_sessions before
  /\ customer_portals after = customer_portals before
  /\ qr_download_sessions after = qr_download_sessions before
  /\ map ProgressiveUnlocks.id (progressive_unlocks after)
     = map ProgressiveUnlocks.id (progressive_unlocks before).
Proof.
  intros H. cbv zeta. unfold run_jobs. revert db.
  induction H as [|j jobs Hj _ IH]; intros db; [simpl; auto 6|].
  cbn [fold_left].
  destruct (IH (run_job j db)) as [A1 [A2 [A3 [A4 [A5 A6]]]]].
  destruct (run_job_is_invisible j now db Hj) as [B1 [B2 [B3 [B4 [B5 B6]]]]].
  rewrite A1, A2, A3, A4, A5, A6. auto 6.
Qed.

Lemma sweeps_are_invisible_to_the_public_witness :
  let jobs := [CleanupSessions 1500; UnlockStages 1600] in
  let before := public_view 2000 Samples.sample_database in
  let after := public_view 2000 (run_jobs jobs Samples.sample_database) in
  secure_download_sessions after = secure_download_sessions before
  /\ blockchain_download_sessions after = blockchain_download_sessions before
  /\ progressive_download_sessions after = progressive_download_sessions before
  /\ customer_portals after = customer_portals before
  /\ qr_download_sessions after = qr_download_sessions before
  /\ map ProgressiveUnlocks.id (progressive_unlocks after)
     = map ProgressiveUnlocks.id (progressive_unlocks before).
Proof.
  apply (sweeps_are_invisible_to_the_public
           [CleanupSessions 1500; UnlockStages 1600] 2000
           Samples.sample_database).
  repeat constructor; simpl; lia.
Defined.

(** X24.  Behind the policy the page never reports an expired session: when
    the page's clock is not ahead of the database's, [checkSession] on the
    rows the policy shows never sets "This download session has expired";
    and when every session of the token has expired by the database's clock,
    a select that does not reject leaves the visitor with "Invalid or expired
    session token". *)
Theorem policy_hides_expired_sessions
    o_session o_docs now_db now currentHour token fingerprint db :
  now <= now_db ->
  let p := VerifyDownloadPage.checkSession o_session o_docs now currentHour
             token (page_view now_db db)
             (VerifyDownloadPage.initial fingerprint) in
  VerifyDownloadPage.error p <> Some "This download session has expired"
  /\ (o_session <> Rejects ->
      (forall r, In r (VerifyDownloadPage.secure_download_sessions db) ->
                 SecureDownloadSessions.token r = token ->
                 SecureDownloadSessions.expires_at r <= now_db) ->
      VerifyDownloadPage.error p = Some "Invalid or expired session token").
Proof.
  intros H. cbv zeta. unfold VerifyDownloadPage.checkSession.
  destruct o_session; simpl.
  - destruct (single _) as [session|] eqn:O; simpl.
    + apply RaceFacts.single_in in O. apply filter_In in O.
      destruct O as [O T]. apply filter_In in O. destruct O as [O V].
      unfold can_view_mfa_session, active_and_unexpired in V.
      apply andb_prop in V. destruct V as [_ V].
      rewrite Z.gtb_ltb in V. apply Z.ltb_lt in V.
      assert (E : (SecureDownloadSessions.expires_at session <? now) = false)
        by (apply Z.ltb_ge; lia).
      rewrite E. split.
      * destruct (VerifyDownloadPage.outside_window currentHour session);
          simpl; [discriminate|].
        destruct o_docs; simpl; discriminate.
      * intros _ All. exfalso.
        unfold VerifyDownloadPage.active_session_with_token in T.
        apply andb_prop in T. destruct T as [T _].
        apply String.eqb_eq in T. specialize (All session O T). lia.
    + split; [discriminate|reflexivity].
  - split; [discriminate|reflexivity].
  - split; [discriminate|]. intros C. contradiction C. reflexivity.
Qed.

Lemma policy_hides_expired_sessions_witness :
  let p := VerifyDownloadPage.checkSession Resolves Resolves 1500 10 "mfa-1"
             (page_view 1500 Samples.sample_tables)
             (VerifyDownloadPage.initial "fp") in
  VerifyDownloadPage.error p <> Some "This download session has expired"
  /\ (Resolves <> Rejects ->
      (forall r,
          In r (VerifyDownloadPage.secure_download_sessions Samples.sample_tables) ->
          SecureDownloadSessions.token r = "mfa-1" ->
          SecureDownloadSessions.expires_at r <= 1500) ->
      VerifyDownloadPage.error p = Some "Invalid or expired session token").
Proof.
  apply (policy_hides_expired_sessions Resolves Resolves 1500 1500 10 "mfa-1"
           "fp" Samples.sample_tables).
  lia.
Defined.

End PolicyFacts.

(** * From issuance to verification *)

Module RoundTripFacts.

Import SecureDownloads Samples More.



Lemma token_taken_app t l1 l2 :
  token_taken t (l1 ++ l2) = (token_taken t l1 || token_taken t l2)%bool.
Proof. unfold token_taken. apply existsb_app. Qed.







End RoundTripFacts.
